(** * Solana wallet tracker: activity monitoring and transaction classification

    A shallow embedding of the classifier ([src/monitors/transaction-parser.js]),
    of the dedup / registry store ([src/services/storage-service.js]) and of the
    channel coordinator ([src/monitors/solana-monitor.js]), followed by the
    properties of the specification that were checked against them.

    Conventions of the embedding
    - asynchronous methods are run to completion: an [await] is a plain call;
    - the chain RPC, the price service and the wall clock are inputs, carried
      in an explicit environment record;
    - a thrown exception that the source catches is the [None] / error branch
      of the function that catches it;
    - console output and RPC calls are recorded in an effect trace. *)

From Stdlib Require Import ZArith QArith List String Ascii Bool Lia SpecFloat.
From Stdlib Require Import DecimalString.
Import ListNotations.

Open Scope string_scope.
Open Scope Z_scope.

(* ================================================================== *)
(** ** JavaScript numbers on integer values *)

Module JSNumber.

(** A JS number is an IEEE-754 binary64.  Every balance the classifier
    touches is integer valued (lamports, raw token amounts), so such a
    number is carried as the [Z] it denotes, and every arithmetic result is
    rounded to the nearest binary64 (ties to even): 53 significant bits. *)
Definition round53 (z : Z) : Z :=
  let a := Z.abs z in
  if a <? 2 ^ 53 then z
  else
    let e := Z.log2 a - 52 in
    let q := a / 2 ^ e in
    let r := a mod 2 ^ e in
    let half := 2 ^ (e - 1) in
    let q' := if r <? half then q
              else if half <? r then q + 1
              else if Z.even q then q else q + 1 in
    Z.sgn z * (q' * 2 ^ e).

(** [parseInt(s)] on the decimal string of the integer [raw]. *)
Definition parseInt (raw : Z) : Z := round53 raw.

(** [x - y] on two integer-valued numbers. *)
Definition sub (x y : Z) : Z := round53 (x - y).

(** [Math.abs] is exact. *)
Definition abs (x : Z) : Z := Z.abs x.

(** The same rounding taken from the Standard Library's IEEE-754
    specification, used to cross-check [round53] on sample points. *)
Definition SF2Z (f : spec_float) : option Z :=
  match f with
  | S754_zero _ => Some 0
  | S754_finite s m e =>
      let sign := if s then -1 else 1 in
      if 0 <=? e then Some (sign * (Zpos m * 2 ^ e))
      else if Zpos m mod 2 ^ (- e) =? 0 then Some (sign * (Zpos m / 2 ^ (- e)))
      else None
  | _ => None
  end.

Definition ieee_of_Z (z : Z) : option Z :=
  SF2Z (binary_normalize 53 1024 z 0 false).

End JSNumber.

(* ================================================================== *)
(** ** Constants ([src/utils/constants.js]) *)

Definition Address := string.
Definition Mint := string.
Definition Signature := string.

Module Constants.

Definition JUPITER_V6 := "JUP6LkbZbjS1jKKwapdHNy74zcZ3tLUZoi5QNyVTaV4".
Definition JUPITER_V4 := "JUP4Fb2cqiRUcaTHdrPC8h2gNsA2ETXiPDD33WcGuJB".
Definition RAYDIUM_AMM := "675kPX9MHTjS2zt1qfr1NYHuzeLXfQM9H24wFSUt1Mp8".
Definition RAYDIUM_CLMM := "CAMMCzo5YL8w4VFF8KVHrK22GGUQp5VhH5b9KmTcpY9".
Definition ORCA_WHIRLPOOL := "whirLbMiicVdio4qvUfM5KAg6Ct8VwpYzGff3uctyCc".
Definition METEORA := "M2mx93ekt1fmXSVkTrUL9xVFHkmME8HTUi5Cyc5aF7K".
Definition SERUM_V3 := "9xQeWvG816bUx9EPjHmaT23yvVM2ZWbrrpZb9PusVFin".
Definition OPENBOOK := "srmqPvymJeFKQ4zGQed1GFppgkRHL9kaELCbyksJtPX".

(** [Object.values(DEX_PROGRAM_IDS)], in declaration order. *)
Definition DEX_PROGRAM_IDS : list string :=
  [JUPITER_V6; JUPITER_V4; RAYDIUM_AMM; RAYDIUM_CLMM;
   ORCA_WHIRLPOOL; METEORA; SERUM_V3; OPENBOOK].

Definition SYSTEM_PROGRAM := "11111111111111111111111111111111".
Definition TOKEN_PROGRAM := "TokenkegQfeZyiNwAJbNbGKPFXCWuBvf9Ss623VQ5DA".
Definition ATOKEN_PROGRAM := "ATokenGPvbdGVxr1b2hvZbsiqW5xWH25efTNsLJA8knL".

Definition SOL := "So11111111111111111111111111111111111111112".
Definition USDC := "EPjFWdd5AufqSSqeM2qN1xzybapC8G4wEGGkZwyTDt1v".
Definition BONK := "DezXAZ8z7PnrnRJjz3wXBoRgixCa6xjnB7YaB1pPB263".

(** [TRANSACTION_TYPES] *)
Inductive TransactionType := SWAP | TRANSFER | NFT | DEFI | UNKNOWN.

Definition type_name (t : TransactionType) : string :=
  match t with
  | SWAP => "SWAP" | TRANSFER => "TRANSFER" | NFT => "NFT"
  | DEFI => "DEFI" | UNKNOWN => "UNKNOWN"
  end.

(** [DEX_PLATFORMS] *)
Definition PLATFORM_JUPITER := "Jupiter Aggregator".
Definition PLATFORM_RAYDIUM := "Raydium".
Definition PLATFORM_ORCA := "Orca".
Definition PLATFORM_METEORA := "Meteora".
Definition PLATFORM_SERUM := "Serum".
Definition PLATFORM_OPENBOOK := "OpenBook".
Definition PLATFORM_UNKNOWN := "Unknown DEX".

End Constants.

(* ================================================================== *)
(** ** Token metadata and prices ([token-service.js], [market-data-service.js]) *)

Record Metadata := mkMetadata {
  md_name : string;
  md_symbol : string;
  md_decimals : Z
}.

(** What [marketDataService.getTokenPrice] answers for a mint: prices are
    fractional, and are carried as rationals (the rounding of the USD
    arithmetic is not modelled; no property below depends on it). *)
Record PriceData := mkPriceData {
  pd_price : Q;
  pd_volume24h : Q;
  pd_marketCap : Q
}.

(** The price service is an external, time-varying collaborator (HTTP lookups
    behind a 30 s cache, [null] on any failure): its answers are an input. *)
Definition PriceOracle := Mint -> option PriceData.

Record TokenInfo := mkTokenInfo {
  ti_mint : Mint;
  ti_metadata : option Metadata;
  ti_price : option PriceData
}.

Module TokenService.

(** [DEFAULT_TOKEN_METADATA[mint]] *)
Definition DEFAULT_TOKEN_METADATA (mint : Mint) : option Metadata :=
  if (mint =? Constants.SOL)%string then Some (mkMetadata "Solana" "SOL" 9)
  else if (mint =? Constants.USDC)%string then Some (mkMetadata "USD Coin" "USDC" 6)
  else if (mint =? Constants.BONK)%string then Some (mkMetadata "Bonk" "BONK" 5)
  else None.

(** [fetchTokenMetadata] always answers [null]; the metadata cache only ever
    holds what this function computes, so it is not part of the state. *)
Definition getTokenMetadata (mint : Mint) : Metadata :=
  match DEFAULT_TOKEN_METADATA mint with
  | Some m => m
  | None => mkMetadata "Unknown Token" "UNKNOWN" 9
  end.

Definition getTokenDecimals (mint : Mint) : Z :=
  md_decimals (getTokenMetadata mint).

Definition getTokenInfo (getTokenPrice : PriceOracle) (mint : Mint) : TokenInfo :=
  {| ti_mint := mint;
     ti_metadata := Some (getTokenMetadata mint);
     ti_price := getTokenPrice mint |}.

End TokenService.

(* ================================================================== *)
(** ** Raw transactions (the envelope returned by [getTransaction]) *)

(** An account key is "sometimes a string, sometimes an object": an object
    key is known by what its [toString()] answers. *)
Inductive AccountKey :=
| KeyString (s : string)
| KeyObject (toString : string).

Record Instruction := mkInstruction {
  programId : string
}.

Record TokenBalance := mkTokenBalance {
  tb_accountIndex : nat;
  tb_mint : Mint;
  tb_owner : Address;
  (** [uiTokenAmount.amount]: the decimal string of the raw amount, carried as
      the integer it denotes. *)
  tb_amount : Z
}.

Record Meta := mkMeta {
  preBalances : list Z;
  postBalances : list Z;
  (** [null] and [[]] coincide under the source's [|| []]. *)
  preTokenBalances : list TokenBalance;
  postTokenBalances : list TokenBalance
}.

Record Message := mkMessage {
  instructions : list Instruction;
  accountKeys : list AccountKey
}.

Record TxBody := mkTxBody {
  signatures : list Signature;
  message : Message
}.

Record RawTransaction := mkRawTransaction {
  tx_blockTime : option Z;
  tx_meta : option Meta;
  tx_transaction : option TxBody
}.

(* ================================================================== *)
(** ** The classifier's result *)

(** [formatTokenAmount(amount, mint)]: the text of [amount / 10^decimals] with
    six fraction digits and trailing zeros removed.  The text is kept as the
    pair it is rendered from. *)
Record AmountText := mkAmountText {
  at_raw : Z;
  at_decimals : Z
}.

Record TokenLeg := mkTokenLeg {
  leg_mint : Mint;
  leg_symbol : string;
  leg_amount : Z;
  leg_usdValue : option Q
}.

Record TokenInfoBrief := mkTokenInfoBrief {
  tib_symbol : string;
  tib_price : Q;
  tib_marketCap : Q
}.

(** The object built by the [parse*Transaction] methods; a field that an
    object does not carry is [None].  [pd_value] is ['Unknown'] ([None]) or
    [formatUSD(x)] ([Some x]). *)
Record ParsedData := mkParsedData {
  platform : string;
  swap : option (AmountText * AmountText);       (* `${input} -> ${output}` *)
  inputToken : option TokenLeg;
  outputToken : option TokenLeg;
  transfer : option (bool * AmountText);          (* `${'+' or ''}${amount}` *)
  defi : option string;
  activity : option string;
  value : option Q;
  type : option string;
  tokenInfo : option TokenInfoBrief;
  signature : option Signature;
  blockTime : option Z;
  monitoredAddress : option Address
}.

Record TokenChange := mkTokenChange {
  tc_mint : Mint;
  tc_change : Z;
  tc_preAmount : Z;
  tc_postAmount : Z
}.

(** Insertion-ordered [Map] and [Set] of JavaScript, keyed by strings. *)
Module JSMap.

Fixpoint set (k : string) (v : Z) (m : list (string * Z)) : list (string * Z) :=
  match m with
  | [] => [(k, v)]
  | (k', v') :: m' =>
      if (k' =? k)%string then (k', v) :: m' else (k', v') :: set k v m'
  end.

Fixpoint get (k : string) (m : list (string * Z)) : option Z :=
  match m with
  | [] => None
  | (k', v') :: m' => if (k' =? k)%string then Some v' else get k m'
  end.

Definition keys (m : list (string * Z)) : list string := map fst m.

Definition has (k : string) (s : list string) : bool :=
  existsb (fun k' => (k' =? k)%string) s.

Definition add (k : string) (s : list string) : list string :=
  if has k s then s else s ++ [k].

(** [new Set(array)] *)
Definition Set_of (l : list string) : list string :=
  fold_left (fun s k => add k s) l [].

End JSMap.

(** [array.findIndex(p)], [None] for [-1]. *)
Fixpoint findIndex {A} (p : A -> bool) (l : list A) : option nat :=
  match l with
  | [] => None
  | x :: l' => if p x then Some O else option_map S (findIndex p l')
  end.

(* ================================================================== *)
(** ** The classifier ([src/monitors/transaction-parser.js]) *)

Module TransactionParser.

Import Constants.

(** [typeof account === 'string' ? account : account.toString()] *)
Definition accountStr (account : AccountKey) : string :=
  match account with
  | KeyString s => s
  | KeyObject s => s
  end.

(** [account === monitoredAddress]: an object is never [===] a string. *)
Definition strictEq (account : AccountKey) (monitoredAddress : Address) : bool :=
  match account with
  | KeyString s => (s =? monitoredAddress)%string
  | KeyObject _ => false
  end.

Definition isAddressInvolved (accounts : list AccountKey)
                             (monitoredAddress : Address) : bool :=
  let isInAccounts :=
    existsb (fun account => (accountStr account =? monitoredAddress)%string) accounts in
  let isFeePayer :=
    match accounts with
    | firstAccount :: _ => (accountStr firstAccount =? monitoredAddress)%string
    | [] => false
    end in
  isInAccounts || isFeePayer.

(** [array.includes(x)] *)
Definition arrayIncludes (l : list string) (x : string) : bool :=
  existsb (fun y => (y =? x)%string) l.

Fixpoint determineTransactionType (instructions : list Instruction)
  : TransactionType :=
  match instructions with
  | [] => UNKNOWN
  | instruction :: rest =>
      let programId := programId instruction in
      if arrayIncludes DEX_PROGRAM_IDS programId then SWAP
      else if (programId =? SYSTEM_PROGRAM)%string then TRANSFER
      else if (programId =? TOKEN_PROGRAM)%string then TRANSFER
      else determineTransactionType rest
  end.

Fixpoint determineDEXPlatform (instructions : list Instruction) : string :=
  match instructions with
  | [] => PLATFORM_UNKNOWN
  | instruction :: rest =>
      let programId := programId instruction in
      if (programId =? JUPITER_V6)%string || (programId =? JUPITER_V4)%string
      then PLATFORM_JUPITER
      else if (programId =? RAYDIUM_AMM)%string || (programId =? RAYDIUM_CLMM)%string
      then PLATFORM_RAYDIUM
      else if (programId =? ORCA_WHIRLPOOL)%string then PLATFORM_ORCA
      else if (programId =? METEORA)%string then PLATFORM_METEORA
      else if (programId =? SERUM_V3)%string then PLATFORM_SERUM
      else if (programId =? OPENBOOK)%string then PLATFORM_OPENBOOK
      else determineDEXPlatform rest
  end.

(** The [forEach] that fills [preBalanceMap] / [postBalanceMap]. *)
Definition balanceMap (balances : list TokenBalance) (monitoredAddress : Address)
  : list (string * Z) :=
  fold_left
    (fun m balance =>
       if (tb_owner balance =? monitoredAddress)%string
       then JSMap.set (tb_mint balance) (tb_amount balance) m
       else m)
    balances [].

(** One turn of the loop over [allMints]. *)
Definition changeOf (preBalanceMap postBalanceMap : list (string * Z)) (mint : Mint)
  : list TokenChange :=
  let preAmount :=
    JSNumber.parseInt (match JSMap.get mint preBalanceMap with Some a => a | None => 0 end) in
  let postAmount :=
    JSNumber.parseInt (match JSMap.get mint postBalanceMap with Some a => a | None => 0 end) in
  let change := JSNumber.sub postAmount preAmount in
  if change =? 0 then []
  else [ {| tc_mint := mint; tc_change := change;
            tc_preAmount := preAmount; tc_postAmount := postAmount |} ].

Definition extractTokenChanges (preBalances postBalances : list TokenBalance)
                               (accounts : list AccountKey)
                               (monitoredAddress : Address) : list TokenChange :=
  match findIndex (fun account => strictEq account monitoredAddress) accounts with
  | None => []
  | Some _ =>
      let preBalanceMap := balanceMap preBalances monitoredAddress in
      let postBalanceMap := balanceMap postBalances monitoredAddress in
      let allMints :=
        JSMap.Set_of (JSMap.keys preBalanceMap ++ JSMap.keys postBalanceMap) in
      flat_map (changeOf preBalanceMap postBalanceMap) allMints
  end.

Definition calculateSOLChange (accounts : list AccountKey)
                              (preBalances postBalances : list Z)
                              (monitoredAddress : Address) : Z :=
  match findIndex (fun account => strictEq account monitoredAddress) accounts with
  | None => 0
  | Some monitoredAccountIndex =>
      let preBalance := nth monitoredAccountIndex preBalances 0 in
      let postBalance := nth monitoredAccountIndex postBalances 0 in
      JSNumber.sub postBalance preBalance
  end.

(** The parser's own [formatTokenAmount]: nine decimals whatever the mint. *)
Definition formatTokenAmount (amount : Z) (mint : Mint) : AmountText :=
  let decimals := 9 in
  {| at_raw := amount; at_decimals := decimals |}.

(** [x ? formatUSD(x) : 'Unknown'] : [null] and [0] are both falsy. *)
Definition usdText (x : option Q) : option Q :=
  match x with
  | Some q => if Qeq_bool q 0 then None else Some q
  | None => None
  end.

Section WithPrices.

Variable getTokenPrice : PriceOracle.

Definition calculateUSDValue (amount : Z) (mint : Mint) : option Q :=
  match getTokenPrice mint with
  | None => None
  | Some priceData =>
      let decimals := TokenService.getTokenDecimals mint in
      let tokenAmount := (inject_Z amount / inject_Z (10 ^ decimals))%Q in
      Some (tokenAmount * pd_price priceData)%Q
  end.

(** [info?.metadata?.symbol || 'UNKNOWN'] *)
Definition symbolOf (info : TokenInfo) : string :=
  match ti_metadata info with
  | Some md => if (md_symbol md =? "")%string then "UNKNOWN" else md_symbol md
  | None => "UNKNOWN"
  end.

(** [info?.price ? { symbol, price, marketCap } : null] *)
Definition briefOf (info : TokenInfo) : option TokenInfoBrief :=
  match ti_price info with
  | Some p => Some {| tib_symbol := symbolOf info;
                      tib_price := pd_price p;
                      tib_marketCap := pd_marketCap p |}
  | None => None
  end.

Definition emptyParsed (platform : string) : ParsedData :=
  {| platform := platform; swap := None; inputToken := None;
     outputToken := None; transfer := None; defi := None; activity := None;
     value := None; type := None; tokenInfo := None; signature := None;
     blockTime := None; monitoredAddress := None |}.

Definition parseSwapTransaction (transaction : RawTransaction)
                                (monitoredAddress : Address) : option ParsedData :=
  match tx_transaction transaction, tx_meta transaction with
  | Some body, Some meta =>
      let instructions := instructions (message body) in
      let accounts := accountKeys (message body) in
      let platform := determineDEXPlatform instructions in
      let tokenChanges :=
        extractTokenChanges (preTokenBalances meta) (postTokenBalances meta)
                            accounts monitoredAddress in
      if (List.length tokenChanges <? 2)%nat then None
      else
        let tokenInfos :=
          map (fun change =>
                 (change, TokenService.getTokenInfo getTokenPrice (tc_mint change)))
              tokenChanges in
        let inputToken := find (fun t => tc_change (fst t) <? 0) tokenInfos in
        let outputToken := find (fun t => 0 <? tc_change (fst t)) tokenInfos in
        match inputToken, outputToken with
        | Some (inC, inInfo), Some (outC, outInfo) =>
            let inputSymbol := symbolOf inInfo in
            let outputSymbol := symbolOf outInfo in
            let inputAmount := JSNumber.abs (tc_change inC) in
            let outputAmount := tc_change outC in
            let inputUSD := calculateUSDValue inputAmount (tc_mint inC) in
            let outputUSD := calculateUSDValue outputAmount (tc_mint outC) in
            Some {| platform := platform;
                    swap := Some (formatTokenAmount inputAmount (tc_mint inC),
                                  formatTokenAmount outputAmount (tc_mint outC));
                    inputToken := Some {| leg_mint := tc_mint inC;
                                          leg_symbol := inputSymbol;
                                          leg_amount := inputAmount;
                                          leg_usdValue := inputUSD |};
                    outputToken := Some {| leg_mint := tc_mint outC;
                                           leg_symbol := outputSymbol;
                                           leg_amount := outputAmount;
                                           leg_usdValue := outputUSD |};
                    transfer := None; defi := None; activity := None;
                    value := usdText inputUSD;
                    type := None;
                    tokenInfo := briefOf outInfo;
                    signature := None; blockTime := None;
                    monitoredAddress := None |}
        | _, _ => None
        end
  | _, _ => None   (* a TypeError, caught: [return null] *)
  end.

Definition parseTransferTransaction (transaction : RawTransaction)
                                    (monitoredAddress : Address) : option ParsedData :=
  match tx_transaction transaction, tx_meta transaction with
  | Some body, Some meta =>
      let accounts := accountKeys (message body) in
      let solChange :=
        calculateSOLChange accounts (preBalances meta) (postBalances meta)
                           monitoredAddress in
      if negb (solChange =? 0) then
        let solUSD := calculateUSDValue (JSNumber.abs solChange) SOL in
        Some {| platform := "Solana Transfer";
                swap := None; inputToken := None; outputToken := None;
                transfer := Some (0 <? solChange,
                                  formatTokenAmount (JSNumber.abs solChange) SOL);
                defi := None; activity := None;
                value := usdText solUSD;
                type := Some (if 0 <? solChange then "Received" else "Sent");
                tokenInfo := None;
                signature := None; blockTime := None;
                monitoredAddress := None |}
      else
        let tokenChanges :=
          extractTokenChanges (preTokenBalances meta) (postTokenBalances meta)
                              accounts monitoredAddress in
        match tokenChanges with
        | tokenChange :: _ =>
            let tokenInfo :=
              TokenService.getTokenInfo getTokenPrice (tc_mint tokenChange) in
            let tokenUSD :=
              calculateUSDValue (JSNumber.abs (tc_change tokenChange))
                                (tc_mint tokenChange) in
            Some {| platform := "Token Transfer";
                    swap := None; inputToken := None; outputToken := None;
                    transfer :=
                      Some (0 <? tc_change tokenChange,
                            formatTokenAmount (JSNumber.abs (tc_change tokenChange))
                                              (tc_mint tokenChange));
                    defi := None; activity := None;
                    value := usdText tokenUSD;
                    type := Some (if 0 <? tc_change tokenChange
                                  then "Received" else "Sent");
                    tokenInfo := briefOf tokenInfo;
                    signature := None; blockTime := None;
                    monitoredAddress := None |}
        | [] => None
        end
  | _, _ => None   (* a TypeError, caught: [return null] *)
  end.

Definition parseDeFiTransaction (transaction : RawTransaction)
                                (monitoredAddress : Address) : option ParsedData :=
  match tx_transaction transaction with
  | Some body =>
      let platform := determineDEXPlatform (instructions (message body)) in
      Some {| platform := platform;
              swap := None; inputToken := None; outputToken := None;
              transfer := None; defi := Some "DeFi Interaction"; activity := None;
              value := None; type := None; tokenInfo := None;
              signature := None; blockTime := None; monitoredAddress := None |}
  | None => None
  end.

(** The loop of [parseUnknownTransaction]: the last match names the platform. *)
Definition unknownPlatform (instructions : list Instruction) : string :=
  fold_left
    (fun platform instruction =>
       let programId := programId instruction in
       if (programId =? SYSTEM_PROGRAM)%string then "System Program"
       else if (programId =? TOKEN_PROGRAM)%string then "SPL Token Program"
       else if (programId =? ATOKEN_PROGRAM)%string then "Associated Token Account"
       else platform)
    instructions "Unknown".

Definition parseUnknownTransaction (transaction : RawTransaction)
                                   (monitoredAddress : Address) : option ParsedData :=
  let platform :=
    match tx_transaction transaction with
    | Some body => unknownPlatform (instructions (message body))
    | None => "Unknown"   (* the [catch] branch *)
    end in
  Some {| platform := platform;
          swap := None; inputToken := None; outputToken := None;
          transfer := None; defi := None;
          activity := Some "Transaction Detected";
          value := None; type := Some "UNKNOWN"; tokenInfo := None;
          signature := None; blockTime := None; monitoredAddress := None |}.

(** The four assignments that close [parseTransaction]. *)
Definition stamp (parsedData : ParsedData) (signature : option Signature)
                 (blockTime : option Z) (transactionType : TransactionType)
                 (monitoredAddress : Address) : ParsedData :=
  {| platform := platform parsedData;
     swap := swap parsedData;
     inputToken := inputToken parsedData;
     outputToken := outputToken parsedData;
     transfer := transfer parsedData;
     defi := defi parsedData;
     activity := activity parsedData;
     value := value parsedData;
     type := Some (type_name transactionType);
     tokenInfo := tokenInfo parsedData;
     signature := signature;
     blockTime := blockTime;
     monitoredAddress := Some monitoredAddress |}.

(** [classify(tx, addr)] of the specification.  The argument is what
    [getTransaction] answered, [None] when it answered [null]. *)
Definition parseTransaction (transaction : option RawTransaction)
                            (monitoredAddress : Address) : option ParsedData :=
  match transaction with
  | None => None
  | Some tx =>
      match tx_meta tx, tx_transaction tx with
      | Some _, Some body =>
          let signature := hd_error (signatures body) in
          let blockTime := tx_blockTime tx in
          let instructions := instructions (message body) in
          let accounts := accountKeys (message body) in
          if negb (isAddressInvolved accounts monitoredAddress) then None
          else
            let transactionType := determineTransactionType instructions in
            let parsedData :=
              match transactionType with
              | SWAP => parseSwapTransaction tx monitoredAddress
              | TRANSFER => parseTransferTransaction tx monitoredAddress
              | DEFI => parseDeFiTransaction tx monitoredAddress
              | _ => parseUnknownTransaction tx monitoredAddress
              end in
            match parsedData with
            | Some parsedData =>
                Some (stamp parsedData signature blockTime transactionType
                            monitoredAddress)
            | None => None
            end
      | _, _ => None
      end
  end.

End WithPrices.

End TransactionParser.

(* ================================================================== *)
(** ** Public keys ([new PublicKey(address)] of the web3 library) *)

Inductive Completion (A : Type) :=
| Normal (a : A)
| Throw (error : string).
Arguments Normal {A} a.
Arguments Throw {A} error.

Module PublicKey.

Definition ALPHABET :=
  "123456789ABCDEFGHJKLMNPQRSTUVWXYZabcdefghijkmnopqrstuvwxyz".

Fixpoint indexOf (c : ascii) (alphabet : string) : option Z :=
  match alphabet with
  | EmptyString => None
  | String a rest =>
      if Ascii.eqb a c then Some 0 else option_map Z.succ (indexOf c rest)
  end.

(** The number a base58 text denotes; [None] on a character outside the
    alphabet. *)
Fixpoint bs58_value (acc : Z) (s : string) : option Z :=
  match s with
  | EmptyString => Some acc
  | String c rest =>
      match indexOf c ALPHABET with
      | Some d => bs58_value (acc * 58 + d) rest
      | None => None
      end
  end.

(** Every leading ['1'] decodes to one zero byte. *)
Fixpoint leadingOnes (s : string) : Z :=
  match s with
  | String "1"%char rest => 1 + leadingOnes rest
  | _ => 0
  end.

Definition byteLength (v : Z) : Z :=
  if v =? 0 then 0 else Z.log2 v / 8 + 1.

(** Length of [bs58.decode(value)], [None] when the decoding throws. *)
Definition decodedLength (value : string) : option Z :=
  match bs58_value 0 value with
  | Some v => Some (leadingOnes value + byteLength v)
  | None => None
  end.

Definition base58_decodable (value : string) : bool :=
  match bs58_value 0 value with Some _ => true | None => false end.

(** The constructor on a string: it throws unless the text decodes to
    exactly 32 bytes.  The key itself is not needed, only the outcome. *)
Definition new (value : string) : Completion unit :=
  match decodedLength value with
  | None => Throw "Non-base58 character"
  | Some n => if n =? 32 then Normal tt else Throw "Invalid public key input"
  end.

End PublicKey.

(* ================================================================== *)
(** ** Dedup ledger and address registry ([src/services/storage-service.js])

    The two JSON files are the state; reading and writing them is assumed
    not to fail. *)

Record AddressEntry := mkAddressEntry {
  ae_address : Address;
  ae_label : string;
  ae_addedAt : Z;
  ae_updatedAt : Z
}.

Record ProcessedEntry := mkProcessedEntry {
  pe_signature : Signature;
  pe_processedAt : Z;
  pe_updatedAt : Z;
  pe_type : option string;
  pe_address : Address;
  pe_platform : string
}.

Record Files := mkFiles {
  addresses : list AddressEntry;
  addresses_lastUpdated : Z;
  transactions : list ProcessedEntry;
  transactions_lastUpdated : Z
}.

(** [array[i] = x] for an index inside the array. *)
Fixpoint assign {A} (i : nat) (x : A) (l : list A) : list A :=
  match l, i with
  | [], _ => []
  | _ :: l', O => x :: l'
  | y :: l', S i' => y :: assign i' x l'
  end.

Module StorageService.

Definition getMonitoredAddresses (files : Files) : list AddressEntry :=
  addresses files.

Definition addMonitoredAddress (now : Z) (address : Address) (label : string)
                               (files : Files) : Files :=
  let addresses0 := addresses files in
  let addresses1 :=
    match findIndex (fun addr => (ae_address addr =? address)%string) addresses0 with
    | Some existingIndex =>
        let addedAt :=
          match nth_error addresses0 existingIndex with
          | Some old => ae_addedAt old
          | None => now
          end in
        assign existingIndex
               {| ae_address := address; ae_label := label;
                  ae_addedAt := addedAt; ae_updatedAt := now |}
               addresses0
    | None =>
        (addresses0 ++ [ {| ae_address := address; ae_label := label;
                            ae_addedAt := now; ae_updatedAt := now |} ])%list
    end in
  {| addresses := addresses1;
     addresses_lastUpdated := now;
     transactions := transactions files;
     transactions_lastUpdated := transactions_lastUpdated files |}.

Definition removeMonitoredAddress (now : Z) (address : Address) (files : Files)
  : Files :=
  let filteredAddresses :=
    filter (fun addr => negb (ae_address addr =? address)%string) (addresses files) in
  if (List.length filteredAddresses =? List.length (addresses files))%nat then files
  else
    {| addresses := filteredAddresses;
       addresses_lastUpdated := now;
       transactions := transactions files;
       transactions_lastUpdated := transactions_lastUpdated files |}.

Definition getProcessedTransactions (files : Files) : list ProcessedEntry :=
  transactions files.

(** [transactionData] is the object [{ type, address, platform }] that
    [processTransaction] passes. *)
Definition addProcessedTransaction (now : Z) (signature : Signature)
                                   (type : option string) (address : Address)
                                   (platform : string) (files : Files) : Files :=
  let transactions0 := transactions files in
  let transactions1 :=
    match findIndex (fun tx => (pe_signature tx =? signature)%string) transactions0 with
    | Some existingIndex =>
        let processedAt :=
          match nth_error transactions0 existingIndex with
          | Some old => pe_processedAt old
          | None => now
          end in
        assign existingIndex
               {| pe_signature := signature; pe_processedAt := processedAt;
                  pe_updatedAt := now; pe_type := type;
                  pe_address := address; pe_platform := platform |}
               transactions0
    | None =>
        (transactions0 ++ [ {| pe_signature := signature; pe_processedAt := now;
                               pe_updatedAt := now; pe_type := type;
                               pe_address := address; pe_platform := platform |} ])%list
    end in
  (* keep only the last 1000 transactions *)
  let transactions2 :=
    if (1000 <? List.length transactions1)%nat
    then skipn (List.length transactions1 - 1000) transactions1
    else transactions1 in
  {| addresses := addresses files;
     addresses_lastUpdated := addresses_lastUpdated files;
     transactions := transactions2;
     transactions_lastUpdated := now |}.

Definition isTransactionProcessed (signature : Signature) (files : Files) : bool :=
  existsb (fun tx => (pe_signature tx =? signature)%string)
          (getProcessedTransactions files).

End StorageService.

(* ================================================================== *)
(** ** The chain data source and the other inputs of one handler run *)

Inductive Rpc (A : Type) :=
| Answer (a : A)
| Unavailable.
Arguments Answer {A} a.
Arguments Unavailable {A}.

Record SigInfo := mkSigInfo {
  si_signature : Signature;
  si_slot : Z;
  si_blockTime : option Z
}.

Record Env := mkEnv {
  (** [new Date()] *)
  now : Z;
  (** the confirmed signatures of an address, newest first *)
  history : Address -> Rpc (list SigInfo);
  (** [connection.getTransaction]; [Answer None] is the [null] answer *)
  getTransaction : Signature -> Rpc (option RawTransaction);
  getTokenPrice : PriceOracle
}.

(** [String.prototype.includes] *)
Fixpoint stringIncludes (s sub : string) : bool :=
  String.prefix sub s ||
  match s with
  | EmptyString => false
  | String _ rest => stringIncludes rest sub
  end.

(** The [accountNotification] payload: the state of the account a
    subscription watches, and the number of that subscription. *)
Record AccountNotification := mkAccountNotification {
  an_subscription : Z;
  an_lamports : Z;
  (** [result.value.owner]: the program that owns the account *)
  an_owner : string
}.

Record LogsNotification := mkLogsNotification {
  ln_signature : Signature;
  ln_logs : list string
}.

Inductive WsMessage :=
| accountNotification (params : AccountNotification)
| logsNotification (params : LogsNotification)
| otherMessage.

(* ================================================================== *)
(** ** The channel coordinator ([src/monitors/solana-monitor.js]) *)

Module SolanaMonitor.

(** What a handler does to the outside, in order. *)
Inductive Effect :=
| GetSignatures (address : Address)                    (* getSignaturesForAddress *)
| GetTransaction (signature : Signature)               (* getTransaction *)
| Classify (signature : Signature) (address : Address) (* parseTransaction *)
| Emit (signature : Signature) (event : ParsedData)    (* logger.logTransaction *)
| Mark (signature : Signature)                         (* addProcessedTransaction *)
| Send (address : Address)                             (* accountSubscribe *)
| LogError (message : string).

Record Monitor := mkMonitor {
  (** a [Set]: insertion ordered, without repetition *)
  monitoredAddresses : list Address;
  (** [wsConnection.readyState === WebSocket.OPEN] *)
  wsOpen : bool;
  files : Files
}.

Definition getSignaturesForAddress (env : Env) (address : Address) (limit : nat)
  : Rpc (list SigInfo) :=
  match history env address with
  | Answer l => Answer (firstn limit l)
  | Unavailable => Unavailable
  end.

(** The write of the ledger is taken to succeed: its failure, which the
    [catch] of the handler would log, is not modelled. *)
Definition processTransaction (env : Env) (signature : Signature)
                              (address : Address) (files : Files)
  : Files * list Effect :=
  match getTransaction env signature with
  | Unavailable => (files, [GetTransaction signature; LogError "Error processing transaction"])
  | Answer None => (files, [GetTransaction signature])
  | Answer (Some transaction) =>
      match TransactionParser.parseTransaction (getTokenPrice env)
                                               (Some transaction) address with
      | Some parsedData =>
          (StorageService.addProcessedTransaction
             (now env) signature (type parsedData) address (platform parsedData) files,
           [GetTransaction signature; Classify signature address;
            Emit signature parsedData; Mark signature])
      | None => (files, [GetTransaction signature; Classify signature address])
      end
  end.

(** The [for ... of signatures] loop of [pollRecentTransactions]. *)
Fixpoint pollLoop (env : Env) (address : Address) (signatures : list SigInfo)
                  (files : Files) : Files * list Effect :=
  match signatures with
  | [] => (files, [])
  | sigInfo :: rest =>
      let signature := si_signature sigInfo in
      if StorageService.isTransactionProcessed signature files
      then pollLoop env address rest files
      else
        let '(files1, effects1) := processTransaction env signature address files in
        let '(files2, effects2) := pollLoop env address rest files1 in
        (files2, (effects1 ++ effects2)%list)
  end.

Definition pollRecentTransactions (env : Env) (address : Address) (files : Files)
  : Files * list Effect :=
  match PublicKey.new address with
  | Throw _ => (files, [LogError "Error polling transactions"])
  | Normal _ =>
      match getSignaturesForAddress env address 10 with
      | Unavailable =>
          (files, [GetSignatures address; LogError "Error polling transactions"])
      | Answer signatures =>
          let '(files1, effects1) := pollLoop env address signatures files in
          (files1, GetSignatures address :: effects1)
      end
  end.

(** One firing of the timer set by [startPollingMode]. *)
Fixpoint pollEach (env : Env) (addresses : list Address) (files : Files)
  : Files * list Effect :=
  match addresses with
  | [] => (files, [])
  | address :: rest =>
      let '(files1, effects1) := pollRecentTransactions env address files in
      let '(files2, effects2) := pollEach env rest files1 in
      (files2, (effects1 ++ effects2)%list)
  end.

Definition tick (env : Env) (m : Monitor) : Monitor * list Effect :=
  let '(files1, effects) := pollEach env (monitoredAddresses m) (files m) in
  ({| monitoredAddresses := monitoredAddresses m; wsOpen := wsOpen m;
      files := files1 |}, effects).

Definition handleAccountNotification (env : Env) (params : AccountNotification)
                                     (m : Monitor) : Monitor * list Effect :=
  let address := an_owner params in
  if JSMap.has address (monitoredAddresses m) then
    let '(files1, effects) := pollRecentTransactions env address (files m) in
    ({| monitoredAddresses := monitoredAddresses m; wsOpen := wsOpen m;
        files := files1 |}, effects)
  else (m, []).

(** The first monitored address that some log line contains. *)
Definition handleLogsNotification (env : Env) (params : LogsNotification)
                                  (m : Monitor) : Monitor * list Effect :=
  let signature := ln_signature params in
  match find (fun address => existsb (fun log => stringIncludes log address) (ln_logs params))
             (monitoredAddresses m) with
  | Some address =>
      let '(files1, effects) := processTransaction env signature address (files m) in
      ({| monitoredAddresses := monitoredAddresses m; wsOpen := wsOpen m;
          files := files1 |}, effects)
  | None => (m, [])
  end.

Definition handleWebSocketMessage (env : Env) (message : WsMessage) (m : Monitor)
  : Monitor * list Effect :=
  match message with
  | accountNotification params => handleAccountNotification env params m
  | logsNotification params => handleLogsNotification env params m
  | otherMessage => (m, [])
  end.

Definition loadMonitoredAddresses (m : Monitor) : Monitor :=
  {| monitoredAddresses :=
       JSMap.Set_of (map ae_address (StorageService.getMonitoredAddresses (files m)));
     wsOpen := wsOpen m;
     files := files m |}.

Definition addAddress (env : Env) (address : Address) (label : string) (m : Monitor)
  : Completion unit * Monitor * list Effect :=
  match PublicKey.new address with
  | Throw error => (Throw error, m, [LogError "Failed to add address"])
  | Normal _ =>
      let files1 :=
        StorageService.addMonitoredAddress (now env) address label (files m) in
      (Normal tt,
       {| monitoredAddresses := JSMap.add address (monitoredAddresses m);
          wsOpen := wsOpen m;
          files := files1 |},
       if wsOpen m then [Send address] else [])
  end.

Definition removeAddress (env : Env) (address : Address) (m : Monitor)
  : Completion unit * Monitor * list Effect :=
  (Normal tt,
   {| monitoredAddresses :=
        filter (fun a => negb (a =? address)%string) (monitoredAddresses m);
      wsOpen := wsOpen m;
      files := StorageService.removeMonitoredAddress (now env) address (files m) |},
   []).

(** What the coordinator reacts to, each with the answers its collaborators
    give while the handler runs. *)
Inductive Event :=
| TimerFired
| MessageReceived (message : WsMessage).

Definition step (env : Env) (ev : Event) (m : Monitor) : Monitor * list Effect :=
  match ev with
  | TimerFired => tick env m
  | MessageReceived message => handleWebSocketMessage env message m
  end.

(** Handlers are run to completion, one after another.  The source starts
    them as asynchronous callbacks that nothing awaits; two of them that
    overlap on the ledger file are not modelled. *)
Fixpoint run (events : list (Env * Event)) (m : Monitor) : Monitor * list Effect :=
  match events with
  | [] => (m, [])
  | (env, ev) :: rest =>
      let '(m1, effects1) := step env ev m in
      let '(m2, effects2) := run rest m1 in
      (m2, (effects1 ++ effects2)%list)
  end.

(** Projections of a trace. *)
Definition classified (effects : list Effect) : list Signature :=
  flat_map (fun e => match e with Classify s _ => [s] | _ => [] end) effects.

Definition fetched (effects : list Effect) : list Signature :=
  flat_map (fun e => match e with GetTransaction s => [s] | _ => [] end) effects.

Definition emitted (effects : list Effect) : list Signature :=
  flat_map (fun e => match e with Emit s _ => [s] | _ => [] end) effects.

Definition marked (effects : list Effect) : list Signature :=
  flat_map (fun e => match e with Mark s => [s] | _ => [] end) effects.

Definition polled (effects : list Effect) : list Address :=
  flat_map (fun e => match e with GetSignatures a => [a] | _ => [] end) effects.

End SolanaMonitor.

(* ================================================================== *)
(** ** Vocabulary of the statements, and the concrete data of the examples *)

(** Words used to state the properties. *)
Module Vocabulary.

Import Constants.

Definition isDex (i : Instruction) : bool :=
  TransactionParser.arrayIncludes DEX_PROGRAM_IDS (programId i).

Definition isTransfer (i : Instruction) : bool :=
  (programId i =? SYSTEM_PROGRAM)%string || (programId i =? TOKEN_PROGRAM)%string.

(** The raw amount a balance map holds for a mint, [0] when it holds none. *)
Definition rawAmount (m : list (string * Z)) (mint : Mint) : Z :=
  match JSMap.get mint m with Some a => a | None => 0 end.

(** Two events that differ at most in what comes from the price service:
    the USD value, the USD value of each leg and the quoted price. *)
Definition legsAgree (x y : option TokenLeg) : Prop :=
  option_map leg_mint x = option_map leg_mint y /\
  option_map leg_symbol x = option_map leg_symbol y /\
  option_map leg_amount x = option_map leg_amount y.

Definition agreeButPrices (a b : ParsedData) : Prop :=
  platform a = platform b /\ swap a = swap b /\ transfer a = transfer b /\
  defi a = defi b /\ activity a = activity b /\ type a = type b /\
  signature a = signature b /\ blockTime a = blockTime b /\
  monitoredAddress a = monitoredAddress b /\
  legsAgree (inputToken a) (inputToken b) /\
  legsAgree (outputToken a) (outputToken b).

Definition sameOutcome (x y : option ParsedData) : Prop :=
  match x, y with
  | None, None => True
  | Some a, Some b => agreeButPrices a b
  | _, _ => False
  end.

(** The signatures of the dedup ledger, oldest entry first. *)
Definition ledger (files : Files) : list Signature :=
  map pe_signature (transactions files).

Definition processed (s : Signature) (l : list Signature) : bool :=
  existsb (fun x => (x =? s)%string) l.

(** What [addProcessedTransaction] does to the signatures of the ledger. *)
Definition markSigs (s : Signature) (l : list Signature) : list Signature :=
  let l1 := if processed s l then l else (l ++ [s])%list in
  if (1000 <? List.length l1)%nat
  then skipn (List.length l1 - 1000) l1
  else l1.

(** [s] is one of the entries that are still in the ledger after [k] more
    signatures have been appended to it (the ledger keeps its last 1000). *)
Definition survives (k : nat) (s : Signature) (l : list Signature) : Prop :=
  In s (skipn (List.length l + k - 1000) l).

(** The classifier answers null on whatever [getTransaction] answers for [s]. *)
Definition nullFor (env : Env) (s : Signature) (a : Address) : Prop :=
  forall tx, getTransaction env s = Answer (Some tx) ->
             TransactionParser.parseTransaction (getTokenPrice env) (Some tx) a = None.

Definition answersTransaction (env : Env) (s : Signature) : bool :=
  match getTransaction env s with
  | Answer (Some _) => true
  | _ => false
  end.

(** The handler run fetched, classified, emitted or marked [s]. *)
Definition touches (s : Signature) (effects : list SolanaMonitor.Effect) : Prop :=
  In s (SolanaMonitor.fetched effects) \/ In s (SolanaMonitor.classified effects) \/
  In s (SolanaMonitor.emitted effects) \/ In s (SolanaMonitor.marked effects).

(** [s] is not in the ledger after the handler, which neither marked nor
    emitted it. *)
Definition untouched (s : Signature) (r : Files * list SolanaMonitor.Effect) : Prop :=
  processed s (ledger (fst r)) = false /\
  ~ In s (SolanaMonitor.marked (snd r)) /\ ~ In s (SolanaMonitor.emitted (snd r)).

(** The most signatures one handler run can append to the ledger through
    polling: ten for each address it polls. *)
Definition pollBudget (ev : SolanaMonitor.Event) (m : SolanaMonitor.Monitor) : nat :=
  match ev with
  | SolanaMonitor.TimerFired => 10 * List.length (SolanaMonitor.monitoredAddresses m)
  | SolanaMonitor.MessageReceived (accountNotification _) => 10
  | SolanaMonitor.MessageReceived _ => 0
  end.

Definition isLogs (ev : SolanaMonitor.Event) : bool :=
  match ev with
  | SolanaMonitor.MessageReceived (logsNotification _) => true
  | _ => false
  end.




End Vocabulary.

Module Examples.

Import Constants.

Definition wallet : Address := "9WzDXwBbmkg8ZTbNMqUxvQRAyrZzDsGYdLVL9zYtAWWM".
Definition wallet2 : Address := "5Q544fKrFoe6tsEbD7S8EmxGTJYAKtTVhAW5Q5pge4j1".
Definition other : Address := "7xKXtg2CW87d97TXJSDpbD5jBkheTqA83TZRuJosgAsU".

Definition mintA : Mint := "DezXAZ8z7PnrnRJjz3wXBoRgixCa6xjnB7YaB1pPB263".
Definition mintB : Mint := "EKpQGSJtjMFqKZ1KQanSqYXRcF8fB8zEHYMkLdCmvj7".
Definition mintC : Mint := "JUPyiwrYJFskUPiHa7hkeR8VUtAeFoSYbKedZNsDvCN".

Definition noPrices : PriceOracle := fun _ => None.

(** SOL quoted at 2 USD, nothing else quoted. *)
Definition solAt2 : PriceOracle :=
  fun mint => if (mint =? SOL)%string
              then Some {| pd_price := 2; pd_volume24h := 0; pd_marketCap := 0 |}
              else None.

Definition bal (mint : Mint) (amount : Z) : TokenBalance :=
  {| tb_accountIndex := 1; tb_mint := mint; tb_owner := wallet; tb_amount := amount |}.

Definition mkTx (sig : Signature) (programs : list string)
                (pre post : list Z) (preT postT : list TokenBalance)
  : RawTransaction :=
  {| tx_blockTime := Some 1700000000;
     tx_meta := Some {| preBalances := pre; postBalances := post;
                        preTokenBalances := preT; postTokenBalances := postT |};
     tx_transaction :=
       Some {| signatures := [sig];
               message := {| instructions := map mkInstruction programs;
                             accountKeys := [KeyString wallet; KeyString other] |} |} |}.

(** A system transfer placed before a Jupiter swap. *)
Definition transferThenSwap : list Instruction :=
  [mkInstruction SYSTEM_PROGRAM; mkInstruction JUPITER_V6].

(** A Jupiter swap whose deltas are [-1_500_000_000] and [+4_523_000_000]. *)
Definition swapTx : RawTransaction :=
  mkTx "sigSwap" [JUPITER_V6] [10; 0] [10; 0]
       [bal mintA 1500000000; bal mintB 0]
       [bal mintA 0; bal mintB 4523000000].


(** [{mintA: -100, mintB: -50}]: both legs negative. *)
Definition bothNegativeTx : RawTransaction :=
  mkTx "sigNeg" [JUPITER_V6] [10; 0] [10; 0]
       [bal mintA 100; bal mintB 50]
       [bal mintA 0; bal mintB 0].

(** Native delta [+5_000_000_000] together with a token delta. *)
Definition nativeAndTokenTx : RawTransaction :=
  mkTx "sigNative" [SYSTEM_PROGRAM] [1000; 0] [5000001000; 0]
       [bal mintA 7] [bal mintA 9].

(** The same transfer, with account keys that are objects. *)
Definition objectKeysTx : RawTransaction :=
  {| tx_blockTime := Some 1700000000;
     tx_meta := Some {| preBalances := [1000; 0]; postBalances := [5000001000; 0];
                        preTokenBalances := [bal mintA 7];
                        postTokenBalances := [bal mintA 9] |};
     tx_transaction :=
       Some {| signatures := ["sigObject"];
               message := {| instructions := [mkInstruction SYSTEM_PROGRAM];
                             accountKeys := [KeyObject wallet; KeyObject other] |} |} |}.

(** Two raw amounts one unit apart, above [2^53]. *)
Definition hugePre : list TokenBalance := [bal mintA 9007199254740993].
Definition hugePost : list TokenBalance := [bal mintA 9007199254740992].

Definition emptyFiles : Files :=
  {| addresses := []; addresses_lastUpdated := 0;
     transactions := []; transactions_lastUpdated := 0 |}.

(** A transaction that names both wallets and calls no known program. *)
Definition plainTx (sig : Signature) (time : Z) : RawTransaction :=
  {| tx_blockTime := Some time;
     tx_meta := Some {| preBalances := [5; 5]; postBalances := [5; 5];
                        preTokenBalances := []; postTokenBalances := [] |};
     tx_transaction :=
       Some {| signatures := [sig];
               message := {| instructions := [];
                             accountKeys := [KeyString wallet; KeyString wallet2] |} |} |}.

(** A Jupiter transaction that moves no token of [wallet]: null for it. *)
Definition emptySwapTx (sig : Signature) : RawTransaction :=
  mkTx sig [JUPITER_V6] [10; 0] [10; 0] [] [].

Definition sigAt (name : Signature) (time : Z) : SigInfo :=
  {| si_signature := name; si_slot := time; si_blockTime := Some time |}.

Definition quietEnv : Env :=
  {| now := 0;
     history := fun _ => Answer [];
     getTransaction := fun _ => Answer None;
     getTokenPrice := noPrices |}.

Definition walletMonitor : SolanaMonitor.Monitor :=
  {| SolanaMonitor.monitoredAddresses := [wallet];
     SolanaMonitor.wsOpen := true;
     SolanaMonitor.files := emptyFiles |}.

(** What the node sends when the lamports of [wallet] change: like every
    wallet, the account is owned by the System program. *)
Definition walletNotification : AccountNotification :=
  {| an_subscription := 23784; an_lamports := 33594; an_owner := SYSTEM_PROGRAM |}.



(** A quiet wallet whose only signature is ["quiet"], next to a busy wallet
    that shows ten new signatures at every firing of the timer. *)
Definition busySig (n : nat) : Signature :=
  NilEmpty.string_of_uint (Nat.to_uint n).

Definition busyEnv (k : nat) : Env :=
  {| now := Z.of_nat k;
     history := fun a =>
       if (a =? wallet)%string then Answer [sigAt "quiet" 1]
       else if (a =? wallet2)%string
       then Answer (map (fun j => sigAt (busySig (10 * k + j)) (Z.of_nat (10 * k + j)))
                        (rev (seq 0 10)))
       else Answer [];
     getTransaction := fun s => Answer (Some (plainTx s 1));
     getTokenPrice := noPrices |}.

Definition twoWallets : SolanaMonitor.Monitor :=
  {| SolanaMonitor.monitoredAddresses := [wallet; wallet2];
     SolanaMonitor.wsOpen := false;
     SolanaMonitor.files := emptyFiles |}.

Definition busyRun (ticks : nat) : list (Env * SolanaMonitor.Event) :=
  map (fun k => (busyEnv k, SolanaMonitor.TimerFired)) (seq 0 ticks).

(** A ledger that already holds ["seen"], and a log line naming [wallet]. *)
Definition seenFiles : Files :=
  StorageService.addProcessedTransaction 0 "seen" (Some "UNKNOWN") wallet "Unknown"
                                         emptyFiles.

Definition seenMonitor : SolanaMonitor.Monitor :=
  {| SolanaMonitor.monitoredAddresses := [wallet];
     SolanaMonitor.wsOpen := true;
     SolanaMonitor.files := seenFiles |}.

Definition seenLogs : LogsNotification :=
  {| ln_signature := "seen";
     ln_logs := ["Program log: transfer to 9WzDXwBbmkg8ZTbNMqUxvQRAyrZzDsGYdLVL9zYtAWWM"] |}.

(** The chain shows ["seen"] as the latest signature of [wallet]. *)
Definition seenEnv : Env :=
  {| now := 7;
     history := fun a =>
       if (a =? wallet)%string then Answer [sigAt "seen" 5] else Answer [];
     getTransaction := fun s => Answer (Some (plainTx s 5));
     getTokenPrice := noPrices |}.

(** One address, whose window holds the signature ["nullSig"] of a
    transaction the classifier maps to null. *)
Definition nullEnv : Env :=
  {| now := 0;
     history := fun a =>
       if (a =? wallet)%string then Answer [sigAt "nullSig" 50] else Answer [];
     getTransaction := fun s => Answer (Some (emptySwapTx s));
     getTokenPrice := noPrices |}.

End Examples.

(* ================================================================== *)
(** ** Further vocabulary *)

Module Words.

Import Constants.

Definition isATA (i : Instruction) : bool :=
  (programId i =? ATOKEN_PROGRAM)%string.

(** The key reads as the address ([toString()] for an object key). *)
Definition readsAs (a : Address) (k : AccountKey) : bool :=
  (TransactionParser.accountStr k =? a)%string.

(** The token balance belongs to [owner] and is of [mint]. *)
Definition balanceOf (owner : Address) (mint : Mint) (b : TokenBalance) : bool :=
  (tb_owner b =? owner)%string && (tb_mint b =? mint)%string.

Definition validKey (a : Address) : bool :=
  match PublicKey.new a with Normal _ => true | Throw _ => false end.

(** The monitored set and the persisted address list name the same
    addresses, in the same order. *)
Definition inSync (m : SolanaMonitor.Monitor) : Prop :=
  SolanaMonitor.monitoredAddresses m = map ae_address (addresses (SolanaMonitor.files m)).

(** An effect that records no work on a transaction. *)
Definition quiet (effects : list SolanaMonitor.Effect) : Prop :=
  SolanaMonitor.fetched effects = [] /\ SolanaMonitor.classified effects = [] /\
  SolanaMonitor.emitted effects = [] /\ SolanaMonitor.marked effects = [].

(** Every emitted event is marked and the reverse, what is marked was
    classified, and what is classified was fetched. *)
Definition orderly (effects : list SolanaMonitor.Effect) : Prop :=
  SolanaMonitor.emitted effects = SolanaMonitor.marked effects /\
  incl (SolanaMonitor.marked effects) (SolanaMonitor.classified effects) /\
  incl (SolanaMonitor.classified effects) (SolanaMonitor.fetched effects).

(** What a handler run may do to the files: the address registry is left
    alone, and the ledger stays bounded and free of repetition. *)
Definition ledgerKept (before after : Files) : Prop :=
  addresses after = addresses before /\
  addresses_lastUpdated after = addresses_lastUpdated before /\
  ((List.length (transactions before) <= 1000)%nat ->
   (List.length (transactions after) <= 1000)%nat) /\
  (NoDup (Vocabulary.ledger before) -> NoDup (Vocabulary.ledger after)).

(** The chain returns no transaction for any signature (it answers null, or
    it is unavailable). *)
Definition returnsNoTransaction (env : Env) : Prop :=
  forall s, Vocabulary.answersTransaction env s = false.

End Words.

(* ================================================================== *)
(** ** Balance deltas, as the specification words them

    The deltas of an address on exact integers, without reference to the
    classifier: what [extractTokenChanges] and [calculateSOLChange] are
    compared with. *)

Module Deltas.

Definition ownedBy (owner : Address) (b : TokenBalance) : bool :=
  (tb_owner b =? owner)%string.

(** The mints of the token balances of [owner], in the order of the list. *)
Definition mintsOf (balances : list TokenBalance) (owner : Address) : list Mint :=
  map tb_mint (filter (ownedBy owner) balances).

(** Each text once, in the order of first appearance. *)
Fixpoint distinct (l : list string) : list string :=
  match l with
  | [] => []
  | x :: rest => x :: filter (fun y => negb (y =? x)%string) (distinct rest)
  end.

(** The mints [owner] holds before or after the transaction: those of the
    pre-balances first, then those only the post-balances have. *)
Definition ownedMints (pre post : list TokenBalance) (owner : Address) : list Mint :=
  distinct (mintsOf pre owner ++ mintsOf post owner).

(** The raw amount [owner] holds of [mint]: that of its last listed token
    account of the mint, [0] when it has none. *)
Definition heldAmount (balances : list TokenBalance) (owner : Address) (mint : Mint)
  : Z :=
  match find (Words.balanceOf owner mint) (rev balances) with
  | Some b => tb_amount b
  | None => 0
  end.

(** The exact token delta of [owner] for [mint]: post minus pre. *)
Definition tokenDelta (pre post : list TokenBalance) (owner : Address) (mint : Mint)
  : Z :=
  heldAmount post owner mint - heldAmount pre owner mint.

(** The mints of [owner] whose exact delta is not zero, each with its delta,
    in the order of [ownedMints]. *)
Definition deltaList (pre post : list TokenBalance) (owner : Address)
  : list (Mint * Z) :=
  filter (fun d => negb (snd d =? 0))
         (map (fun mint => (mint, tokenDelta pre post owner mint))
              (ownedMints pre post owner)).


(** Every account key is a plain string (none is a key object). *)
Definition stringKeys (accounts : list AccountKey) : bool :=
  forallb (fun k => match k with KeyString _ => true | KeyObject _ => false end)
          accounts.

(** The account-key index of the address: the first key that reads as it. *)
Definition keyIndex (accounts : list AccountKey) (addr : Address) : option nat :=
  findIndex (Words.readsAs addr) accounts.

(** The exact native delta of the address: post minus pre at its account-key
    index, [0] when it is no account key. *)
Definition nativeDelta (accounts : list AccountKey) (pre post : list Z)
                       (addr : Address) : Z :=
  match keyIndex accounts addr with
  | Some i => nth i post 0 - nth i pre 0
  | None => 0
  end.

(** What a delta of the classifier lists for the comparison. *)
Definition listed (c : TokenChange) : Mint * Z := (tc_mint c, tc_change c).

End Deltas.

(* ================================================================== *)
(** ** Display helpers ([src/utils/formatters.js])

    A JavaScript string is taken as the sequence of its code units; the
    texts these helpers receive are base58 addresses and signatures, one
    byte per code unit.  Lengths and counts are non-negative integers. *)

Module Formatters.

(** [s.slice(0, n)] and [s.substring(0, n)] *)
Fixpoint take (n : nat) (s : string) : string :=
  match n, s with
  | S n', String c rest => String c (take n' rest)
  | _, _ => EmptyString
  end.

Fixpoint drop (n : nat) (s : string) : string :=
  match n, s with
  | S n', String _ rest => drop n' rest
  | _, _ => s
  end.

(** [s.slice(-n)]: the last [n] code units, and all of [s] for [-0]. *)
Definition sliceFromEnd (n : nat) (s : string) : string :=
  if (n =? 0)%nat then s else drop (String.length s - n) s.

Definition formatAddress (address : string) (prefixLength suffixLength : nat) : string :=
  if (String.length address <? prefixLength + suffixLength + 3)%nat then address
  else take prefixLength address ++ "..." ++ sliceFromEnd suffixLength address.

Definition truncateText (text : string) (maxLength : nat) (suffix : string) : string :=
  if (String.length text <=? maxLength)%nat then text
  else take (maxLength - String.length suffix) text ++ suffix.

End Formatters.

(* ================================================================== *)
(** ** A JavaScript [Map] keyed by strings, for any type of values *)

Module JSMapOf.

Section Values.

Variable V : Type.

Fixpoint set (k : string) (v : V) (m : list (string * V)) : list (string * V) :=
  match m with
  | [] => [(k, v)]
  | (k', v') :: m' =>
      if (k' =? k)%string then (k', v) :: m' else (k', v') :: set k v m'
  end.

Fixpoint get (k : string) (m : list (string * V)) : option V :=
  match m with
  | [] => None
  | (k', v') :: m' => if (k' =? k)%string then Some v' else get k m'
  end.

Fixpoint delete (k : string) (m : list (string * V)) : list (string * V) :=
  match m with
  | [] => []
  | (k', v') :: m' =>
      if (k' =? k)%string then delete k m' else (k', v') :: delete k m'
  end.

End Values.

Arguments set {V} k v m.
Arguments get {V} k m.
Arguments delete {V} k m.

End JSMapOf.

(* ================================================================== *)
(** ** The metadata cache of the token service ([token-service.js])

    [Date.now()] is an input; the two readings one call can make are taken
    at the same instant. *)

Module TokenCache.

Record Entry := mkEntry {
  data : Metadata;
  timestamp : Z
}.

Definition Cache := list (string * Entry).

(** [this.cacheTimeout]: five minutes *)
Definition cacheTimeout : Z := 300000.

Definition getCachedMetadata (now : Z) (mintAddress : Mint) (cache : Cache)
  : option Metadata * Cache :=
  match JSMapOf.get mintAddress cache with
  | None => (None, cache)
  | Some cached =>
      if now - timestamp cached >? cacheTimeout
      then (None, JSMapOf.delete mintAddress cache)
      else (Some (data cached), cache)
  end.

Definition setCachedMetadata (now : Z) (mintAddress : Mint) (metadata : Metadata)
                             (cache : Cache) : Cache :=
  JSMapOf.set mintAddress {| data := metadata; timestamp := now |} cache.

(** "For now, return null" *)
Definition fetchTokenMetadata (mintAddress : Mint) : option Metadata := None.

Definition getTokenMetadata (now : Z) (mintAddress : Mint) (cache : Cache)
  : Metadata * Cache :=
  match getCachedMetadata now mintAddress cache with
  | (Some cached, cache1) => (cached, cache1)
  | (None, cache1) =>
      match TokenService.DEFAULT_TOKEN_METADATA mintAddress with
      | Some metadata => (metadata, setCachedMetadata now mintAddress metadata cache1)
      | None =>
          match fetchTokenMetadata mintAddress with
          | Some metadata => (metadata, setCachedMetadata now mintAddress metadata cache1)
          | None =>
              let basicMetadata := mkMetadata "Unknown Token" "UNKNOWN" 9 in
              (basicMetadata, setCachedMetadata now mintAddress basicMetadata cache1)
          end
      end
  end.

(** Every cached entry holds what the lookup of its key computes. *)
Definition consistent (cache : Cache) : Prop :=
  forall k e, In (k, e) cache -> data e = TokenService.getTokenMetadata k.

End TokenCache.

(* ================================================================== *)
(** ** The price lookups of the market data service ([market-data-service.js])

    The two HTTP services are inputs: an answer is [None] when the request
    fails, times out, or the answer does not hold the token.  A request
    takes [latency] milliseconds, so what it brings is stored that much
    later than the cache was read. *)

Module MarketData.

Record Quote := mkQuote {
  price : Q;
  volume24h : Q;
  marketCap : Q;
  source : string
}.

(** The fields of an HTTP answer; [volume24h] and [marketCap] may be absent. *)
Record RawQuote := mkRawQuote {
  raw_price : Q;
  raw_volume24h : option Q;
  raw_marketCap : option Q
}.

Record Http := mkHttp {
  jupiterPrice : Mint -> option RawQuote;       (* GET <jupiter>/price?ids=mint *)
  coingeckoSearch : Mint -> option string;      (* GET /search: the id of coins[0] *)
  coingeckoSimplePrice : string -> option RawQuote; (* GET /simple/price?ids=id *)
  latency : Z
}.

Inductive Request :=
| GetJupiterPrice (mint : Mint)
| GetCoinGeckoSearch (mint : Mint)
| GetCoinGeckoSimplePrice (coinId : string).

Record Entry := mkEntry {
  data : Quote;
  timestamp : Z
}.

Definition Cache := list (string * Entry).

(** [this.cacheTimeout]: thirty seconds *)
Definition cacheTimeout : Z := 30000.

Definition getCachedData (now : Z) (key : string) (cache : Cache)
  : option Quote * Cache :=
  match JSMapOf.get key cache with
  | None => (None, cache)
  | Some cached =>
      if now - timestamp cached >? cacheTimeout
      then (None, JSMapOf.delete key cache)
      else (Some (data cached), cache)
  end.

Definition setCachedData (now : Z) (key : string) (q : Quote) (cache : Cache) : Cache :=
  JSMapOf.set key {| data := q; timestamp := now |} cache.

(** [x || 0] on a field that may be absent *)
Definition orZero (x : option Q) : Q :=
  match x with Some q => q | None => 0%Q end.

Definition quoteOf (raw : RawQuote) (source : string) : Quote :=
  {| price := raw_price raw;
     volume24h := orZero (raw_volume24h raw);
     marketCap := orZero (raw_marketCap raw);
     source := source |}.

Definition getJupiterPrice (http : Http) (now : Z) (tokenMint : Mint) (cache : Cache)
  : option Quote * Cache * list Request :=
  let cacheKey := "jupiter_" ++ tokenMint in
  match getCachedData now cacheKey cache with
  | (Some cached, cache1) => (Some cached, cache1, [])
  | (None, cache1) =>
      match jupiterPrice http tokenMint with
      | Some priceData =>
          let result := quoteOf priceData "Jupiter" in
          (Some result, setCachedData (now + latency http) cacheKey result cache1,
           [GetJupiterPrice tokenMint])
      | None => (None, cache1, [GetJupiterPrice tokenMint])
      end
  end.

Definition getCoinGeckoPrice (http : Http) (now : Z) (tokenMint : Mint) (cache : Cache)
  : option Quote * Cache * list Request :=
  let cacheKey := "coingecko_" ++ tokenMint in
  match getCachedData now cacheKey cache with
  | (Some cached, cache1) => (Some cached, cache1, [])
  | (None, cache1) =>
      match coingeckoSearch http tokenMint with
      | None => (None, cache1, [GetCoinGeckoSearch tokenMint])
      | Some coinId =>
          match coingeckoSimplePrice http coinId with
          | Some data =>
              let result := quoteOf data "CoinGecko" in
              (Some result,
               setCachedData (now + latency http + latency http) cacheKey result cache1,
               [GetCoinGeckoSearch tokenMint; GetCoinGeckoSimplePrice coinId])
          | None =>
              (None, cache1,
               [GetCoinGeckoSearch tokenMint; GetCoinGeckoSimplePrice coinId])
          end
      end
  end.

(** The answer of [getTokenPrice] without its three formatted texts. *)
Definition getTokenPrice (http : Http) (now : Z) (tokenMint : Mint) (cache : Cache)
  : option Quote * Cache * list Request :=
  match getJupiterPrice http now tokenMint cache with
  | (Some priceData, cache1, requests) => (Some priceData, cache1, requests)
  | (None, cache1, requests1) =>
      (* a lookup that gave nothing has asked Jupiter, and waited for it *)
      let '(priceData, cache2, requests2) :=
        getCoinGeckoPrice http (now + latency http) tokenMint cache1 in
      (priceData, cache2, (requests1 ++ requests2)%list)
  end.

End MarketData.

(* ================================================================== *)
(** ** Connection and polling lifecycle ([src/monitors/solana-monitor.js])

    The timers of the runtime are part of the state: [setInterval] returns a
    fresh number, which stays active until [clearInterval] is given it.  An
    event of the socket is taken to be an event of the socket that
    [wsConnection] holds. *)

Module Lifecycle.

Inductive ReadyState := CONNECTING | OPEN | CLOSED.

Record State := mkState {
  isRunning : bool;
  pollingInterval : option nat;
  wsConnection : option ReadyState;
  retryAttempts : nat;
  maxRetryAttempts : nat;
  (** the intervals that are firing *)
  activeIntervals : list nat;
  nextInterval : nat;
  (** the reconnections waiting for [retryDelay] to pass *)
  pendingReconnects : nat
}.

(** The monitor as its constructor leaves it. *)
Definition initial (maxRetryAttempts : nat) : State :=
  {| isRunning := false; pollingInterval := None; wsConnection := None;
     retryAttempts := 0; maxRetryAttempts := maxRetryAttempts;
     activeIntervals := []; nextInterval := 0; pendingReconnects := 0 |}.

Definition initializeWebSocket (st : State) : State :=
  {| isRunning := isRunning st; pollingInterval := pollingInterval st;
     wsConnection := Some CONNECTING;
     retryAttempts := retryAttempts st; maxRetryAttempts := maxRetryAttempts st;
     activeIntervals := activeIntervals st; nextInterval := nextInterval st;
     pendingReconnects := pendingReconnects st |}.

Definition startPollingMode (st : State) : State :=
  {| isRunning := isRunning st;
     pollingInterval := Some (nextInterval st);
     wsConnection := wsConnection st;
     retryAttempts := retryAttempts st; maxRetryAttempts := maxRetryAttempts st;
     activeIntervals := nextInterval st :: activeIntervals st;
     nextInterval := S (nextInterval st);
     pendingReconnects := pendingReconnects st |}.

Definition handleWebSocketDisconnect (st : State) : State :=
  if (retryAttempts st <? maxRetryAttempts st)%nat then
    {| isRunning := isRunning st; pollingInterval := pollingInterval st;
       wsConnection := wsConnection st;
       retryAttempts := S (retryAttempts st); maxRetryAttempts := maxRetryAttempts st;
       activeIntervals := activeIntervals st; nextInterval := nextInterval st;
       pendingReconnects := S (pendingReconnects st) |}
  else startPollingMode st.

Definition handleWebSocketError (st : State) : State :=
  handleWebSocketDisconnect st.

(** The socket reports that it is closed or open. *)
Definition withReadyState (r : ReadyState) (st : State) : State :=
  {| isRunning := isRunning st; pollingInterval := pollingInterval st;
     wsConnection := match wsConnection st with Some _ => Some r | None => None end;
     retryAttempts := retryAttempts st; maxRetryAttempts := maxRetryAttempts st;
     activeIntervals := activeIntervals st; nextInterval := nextInterval st;
     pendingReconnects := pendingReconnects st |}.

(** The ['open'] listener, before it subscribes. *)
Definition onOpen (st : State) : State :=
  let st1 := withReadyState OPEN st in
  {| isRunning := isRunning st1; pollingInterval := pollingInterval st1;
     wsConnection := wsConnection st1;
     retryAttempts := 0; maxRetryAttempts := maxRetryAttempts st1;
     activeIntervals := activeIntervals st1; nextInterval := nextInterval st1;
     pendingReconnects := pendingReconnects st1 |}.

Definition onClose (st : State) : State :=
  handleWebSocketDisconnect (withReadyState CLOSED st).

Definition onError (st : State) : State := handleWebSocketError st.

(** The [setTimeout] of a reconnection fires. *)
Definition onReconnectTimer (st : State) : State :=
  let st1 := initializeWebSocket st in
  {| isRunning := isRunning st1; pollingInterval := pollingInterval st1;
     wsConnection := wsConnection st1;
     retryAttempts := retryAttempts st1; maxRetryAttempts := maxRetryAttempts st1;
     activeIntervals := activeIntervals st1; nextInterval := nextInterval st1;
     pendingReconnects := pred (pendingReconnects st1) |}.

Definition start (st : State) : State :=
  if isRunning st then st
  else
    startPollingMode
      {| isRunning := true; pollingInterval := pollingInterval st;
         wsConnection := wsConnection st;
         retryAttempts := retryAttempts st; maxRetryAttempts := maxRetryAttempts st;
         activeIntervals := activeIntervals st; nextInterval := nextInterval st;
         pendingReconnects := pendingReconnects st |}.

(** [clearInterval(id)] *)
Definition clearInterval (id : nat) (active : list nat) : list nat :=
  filter (fun j => negb (j =? id)%nat) active.

Definition stop (st : State) : State :=
  if negb (isRunning st) then st
  else
    {| isRunning := false;
       pollingInterval := None;
       wsConnection := None;
       retryAttempts := retryAttempts st; maxRetryAttempts := maxRetryAttempts st;
       activeIntervals :=
         match pollingInterval st with
         | Some id => clearInterval id (activeIntervals st)
         | None => activeIntervals st
         end;
       nextInterval := nextInterval st;
       pendingReconnects := pendingReconnects st |}.

Inductive Event := Start | Stop | Open | Close | Error | ReconnectTimer.

Definition step (ev : Event) (st : State) : State :=
  match ev with
  | Start => start st
  | Stop => stop st
  | Open => onOpen st
  | Close => onClose st
  | Error => onError st
  | ReconnectTimer => onReconnectTimer st
  end.

Definition run (events : list Event) (st : State) : State :=
  fold_left (fun s ev => step ev s) events st.

Definition isDisconnect (ev : Event) : bool :=
  match ev with Close | Error => true | _ => false end.

Definition disconnects (events : list Event) : nat :=
  List.length (filter isDisconnect events).

(** An outage: the socket only fails and reconnection timers fire. *)
Definition isOutage (ev : Event) : bool :=
  match ev with Close | Error | ReconnectTimer => true | _ => false end.

(** The timers are as the runtime hands them out. *)
Definition timersOk (st : State) : Prop :=
  NoDup (activeIntervals st) /\
  (forall id, In id (activeIntervals st) -> (id < nextInterval st)%nat) /\
  (forall id, pollingInterval st = Some id -> In id (activeIntervals st)).

End Lifecycle.

(** Further concrete data. *)
Module Samples.

(** The chain lists a signature for the wallet but cannot return its
    transaction. *)
Definition downEnv : Env :=
  {| now := 3;
     history := fun a =>
       if (a =? Examples.wallet)%string then Answer [Examples.sigAt "pending" 9]
       else Answer [];
     getTransaction := fun _ => Unavailable;
     getTokenPrice := Examples.noPrices |}.

(** A log notification whose lines name no monitored address. *)
Definition strangerLogs : LogsNotification :=
  {| ln_signature := "elsewhere";
     ln_logs := ["Program 11111111111111111111111111111111 invoke [1]";
                 "Program log: nothing to see"] |}.

(** Jupiter quotes every token at 2 USD, without volume or market cap, in
    120 ms; CoinGecko knows no token. *)
Definition jupiterOnly : MarketData.Http :=
  {| MarketData.jupiterPrice := fun _ => Some (MarketData.mkRawQuote (2 # 1) None None);
     MarketData.coingeckoSearch := fun _ => None;
     MarketData.coingeckoSimplePrice := fun _ => None;
     MarketData.latency := 120 |}.

(** Jupiter has no token; CoinGecko finds a coin for every token and has no
    price for it. *)
Definition unpriced : MarketData.Http :=
  {| MarketData.jupiterPrice := fun _ => None;
     MarketData.coingeckoSearch := fun _ => Some "some-coin";
     MarketData.coingeckoSimplePrice := fun _ => None;
     MarketData.latency := 120 |}.

(** A running monitor whose retry budget of two is used up. *)
Definition exhausted : Lifecycle.State :=
  Lifecycle.run [Lifecycle.Start; Lifecycle.Close; Lifecycle.ReconnectTimer;
                 Lifecycle.Error; Lifecycle.ReconnectTimer]
                (Lifecycle.initial 2).

(** A system transfer that takes 600 lamports from [wallet2] and leaves the
    balance of [wallet], which it also names, as it was. *)
Definition sharedTx : RawTransaction :=
  {| tx_blockTime := Some 60;
     tx_meta := Some {| preBalances := [1000; 500]; postBalances := [400; 500];
                        preTokenBalances := []; postTokenBalances := [] |};
     tx_transaction :=
       Some {| signatures := ["shared"];
               message := {| instructions := [mkInstruction Constants.SYSTEM_PROGRAM];
                             accountKeys := [KeyString Examples.wallet2;
                                             KeyString Examples.wallet] |} |} |}.

(** The windows of both wallets hold the signature of [sharedTx]. *)
Definition sharedEnv : Env :=
  {| now := 0;
     history := fun a =>
       if (a =? Examples.wallet)%string || (a =? Examples.wallet2)%string
       then Answer [Examples.sigAt "shared" 60] else Answer [];
     getTransaction := fun s =>
       if (s =? "shared")%string then Answer (Some sharedTx) else Answer None;
     getTokenPrice := Examples.noPrices |}.

End Samples.

(* ================================================================== *)
(** * Properties *)

(** ** JavaScript numbers *)

Lemma round53_exact (z : Z) : Z.abs z <= 2 ^ 53 -> JSNumber.round53 z = z.
Proof.
  intros H. unfold JSNumber.round53.
  destruct (Z.abs z <? 2 ^ 53) eqn:E; [reflexivity |].
  apply Z.ltb_ge in E.
  change (2 ^ 53) with 9007199254740992 in H, E.
  assert (Hz : z = 9007199254740992 \/ z = - 9007199254740992) by lia.
  destruct Hz as [-> | ->]; vm_compute; reflexivity.
Qed.

(** [round53] against the Standard Library's binary64 rounding. *)
Lemma round53_matches_binary64_on_samples :
  forallb (fun z => match JSNumber.ieee_of_Z z with
                    | Some y => JSNumber.round53 z =? y
                    | None => false
                    end)
          [0; 1; -1; 3; 2 ^ 53 - 1; 2 ^ 53; 2 ^ 53 + 1; 2 ^ 53 + 2; 2 ^ 53 + 3;
           - (2 ^ 53 + 1); - (2 ^ 53 + 3); 2 ^ 54 + 1; 2 ^ 54 + 2; 2 ^ 54 + 3;
           2 ^ 54 + 5; 2 ^ 54 + 6; 2 ^ 54 + 7; 2 ^ 63 + 1024; 2 ^ 63 + 1025;
           2 ^ 63 + 3072; 2 ^ 64 - 1; 123456789012345678901] = true.
Proof. vm_compute. reflexivity. Qed.

(** ** Type determination *)

Import Constants TransactionParser Vocabulary.

Lemma dex_ids_are_not_transfer_ids :
  forallb (fun id => negb ((id =? SYSTEM_PROGRAM)%string || (id =? TOKEN_PROGRAM)%string))
          DEX_PROGRAM_IDS = true.
Proof. vm_compute. reflexivity. Qed.

Lemma isDex_not_isTransfer (i : Instruction) :
  isDex i = true -> isTransfer i = false.
Proof.
  unfold isDex, isTransfer, arrayIncludes.
  intros H. apply existsb_exists in H. destruct H as [id [Hin Heq]].
  apply String.eqb_eq in Heq. subst id.
  pose proof dex_ids_are_not_transfer_ids as Hall.
  rewrite forallb_forall in Hall. specialize (Hall _ Hin).
  now apply negb_true_iff in Hall.
Qed.

(** C4 (as amended): the type is decided by the first instruction, in list
    order, whose program is a known DEX, the System program or the SPL Token
    program: SWAP when that instruction is a DEX one, TRANSFER when it is a
    transfer one, UNKNOWN when there is no such instruction.  No program
    identifier is both a DEX one and a transfer one. *)
Theorem determineTransactionType_first_match (instrs : list Instruction) :
  determineTransactionType instrs =
    match find (fun i => isDex i || isTransfer i) instrs with
    | Some i => if isDex i then SWAP else TRANSFER
    | None => UNKNOWN
    end
  /\ (forall i, isDex i && isTransfer i = false).
Proof.
  split.
  - induction instrs as [| i rest IH]; [reflexivity |].
    cbn [determineTransactionType find]. rewrite IH. unfold isDex, isTransfer.
    destruct (arrayIncludes DEX_PROGRAM_IDS (programId i)) eqn:Hd; cbn [orb];
      [now rewrite Hd |].
    destruct ((programId i =? SYSTEM_PROGRAM)%string); cbn [orb]; [now rewrite Hd |].
    destruct ((programId i =? TOKEN_PROGRAM)%string); [now rewrite Hd | reflexivity].
  - intros i. destruct (isDex i) eqn:Hd; [| reflexivity].
    now rewrite (isDex_not_isTransfer i Hd).
Qed.

(** C4 (as stated) fails: a transaction that holds a DEX instruction and a
    transfer instruction, the transfer one first, is typed TRANSFER. *)
Lemma transfer_before_dex_is_TRANSFER :
  existsb isDex Examples.transferThenSwap = true /\
  existsb isTransfer Examples.transferThenSwap = true /\
  determineTransactionType Examples.transferThenSwap = TRANSFER /\
  determineTransactionType Examples.transferThenSwap <> SWAP.
Proof. repeat split; try reflexivity. discriminate. Qed.

(* ------------------------------------------------------------------ *)
(** ** Swap extraction *)

Lemma find_none_existsb {A} (p : A -> bool) (l : list A) :
  find p l = None <-> existsb p l = false.
Proof.
  induction l as [| x l IH]; cbn [find existsb]; [tauto |].
  destruct (p x); cbn [orb]; [split; discriminate | exact IH].
Qed.

Lemma find_some_existsb {A} (p : A -> bool) (l : list A) (x : A) :
  find p l = Some x -> existsb p l = true.
Proof.
  intros H. destruct (existsb p l) eqn:E; [reflexivity |].
  apply find_none_existsb in E. congruence.
Qed.

Lemma find_map_pair {A B} (p : A -> bool) (f : A -> B) (l : list A) :
  find (fun t => p (fst t)) (map (fun c => (c, f c)) l) =
  option_map (fun c => (c, f c)) (find p l).
Proof.
  induction l as [| x l IH]; cbn [find map fst option_map]; [reflexivity |].
  destruct (p x); [reflexivity | exact IH].
Qed.

Lemma find_negative_pairs {B} (f : TokenChange -> B) (l : list TokenChange) :
  find (fun t => tc_change (fst t) <? 0) (map (fun c => (c, f c)) l) =
  option_map (fun c => (c, f c)) (find (fun c => tc_change c <? 0) l).
Proof. exact (find_map_pair (fun c => tc_change c <? 0) f l). Qed.

Lemma find_positive_pairs {B} (f : TokenChange -> B) (l : list TokenChange) :
  find (fun t => 0 <? tc_change (fst t)) (map (fun c => (c, f c)) l) =
  option_map (fun c => (c, f c)) (find (fun c => 0 <? tc_change c) l).
Proof. exact (find_map_pair (fun c => 0 <? tc_change c) f l). Qed.





(* ------------------------------------------------------------------ *)
(** ** Transfer extraction *)


(** The relevance filter compares [toString()] of a key, the balance lookups
    compare the key itself: with object keys the address is involved, but its
    native delta is taken to be 0 and it has no token change. *)
Lemma object_account_keys_are_not_matched :
  isAddressInvolved [KeyObject Examples.wallet; KeyObject Examples.other]
                    Examples.wallet = true /\
  calculateSOLChange [KeyObject Examples.wallet; KeyObject Examples.other]
                     [1000; 0] [5000001000; 0] Examples.wallet = 0 /\
  parseTransaction Examples.noPrices (Some Examples.objectKeysTx) Examples.wallet = None.
Proof. vm_compute. repeat split; reflexivity. Qed.

(* ------------------------------------------------------------------ *)
(** ** Balance deltas *)

Lemma get_set (k k' : string) (v v' : Z) (m : list (string * Z)) :
  JSMap.get k (JSMap.set k' v' m) = Some v -> v = v' \/ JSMap.get k m = Some v.
Proof.
  induction m as [| [k0 v0] m IH]; cbn [JSMap.set JSMap.get].
  - destruct (k' =? k)%string; [intros [= <-]; now left | discriminate].
  - destruct (k0 =? k')%string eqn:E; cbn [JSMap.get].
    + destruct (k0 =? k)%string; [intros [= <-]; now left | now right].
    + destruct (k0 =? k)%string; [now right | exact IH].
Qed.

Lemma balanceMap_values (P : Z -> Prop) (l : list TokenBalance) (addr : Address) :
  (forall b, In b l -> P (tb_amount b)) ->
  forall k v, JSMap.get k (balanceMap l addr) = Some v -> P v.
Proof.
  unfold balanceMap. intros Hl.
  assert (G : forall (m : list (string * Z)),
             (forall k v, JSMap.get k m = Some v -> P v) ->
             forall k v,
               JSMap.get k
                 (fold_left
                    (fun m balance =>
                       if (tb_owner balance =? addr)%string
                       then JSMap.set (tb_mint balance) (tb_amount balance) m
                       else m) l m) = Some v -> P v).
  { induction l as [| b l IH]; intros m Hm k v; cbn [fold_left]; [apply Hm |].
    apply IH.
    - intros b' Hb'. apply Hl. now right.
    - intros k0 v0. destruct (tb_owner b =? addr)%string; [| apply Hm].
      intros H. apply get_set in H. destruct H as [-> | H]; [| eapply Hm; eauto].
      apply Hl. now left. }
  apply G. intros k v. cbn [JSMap.get]. discriminate.
Qed.

Lemma rawAmount_bounded (P : Z -> Prop) (l : list TokenBalance) (addr : Address)
      (mint : Mint) :
  P 0 -> (forall b, In b l -> P (tb_amount b)) -> P (rawAmount (balanceMap l addr) mint).
Proof.
  intros H0 Hl. unfold rawAmount.
  destruct (JSMap.get mint (balanceMap l addr)) eqn:E; [| exact H0].
  eapply balanceMap_values; eauto.
Qed.

(** C8 (as stated) fails: the raw amounts [9007199254740993] and
    [9007199254740992] are one unit apart, but [parseInt] rounds the first to
    the second, the computed delta is 0 and no change is listed. *)
Lemma delta_lost_above_2_53 :
  extractTokenChanges Examples.hugePre Examples.hugePost
                      [KeyString Examples.wallet] Examples.wallet = []
  /\ 9007199254740992 - 9007199254740993 = -1
  /\ JSNumber.parseInt 9007199254740993 = 9007199254740992
  /\ JSNumber.ieee_of_Z 9007199254740993 = Some 9007199254740992.
Proof. vm_compute. repeat split; reflexivity. Qed.

(* ------------------------------------------------------------------ *)
(** ** Determinism of the classifier *)

Lemma sameOutcome_swap (p1 p2 : PriceOracle) (tx : RawTransaction) (addr : Address) :
  sameOutcome (parseSwapTransaction p1 tx addr) (parseSwapTransaction p2 tx addr).
Proof.
  unfold parseSwapTransaction.
  destruct (tx_transaction tx) as [body |]; [| exact I].
  destruct (tx_meta tx) as [meta |]; [| exact I].
  set (changes := extractTokenChanges _ _ _ _).
  destruct (List.length changes <? 2)%nat; [exact I |].
  rewrite !find_negative_pairs, !find_positive_pairs.
  destruct (find (fun c => tc_change c <? 0) changes) as [inC |];
    cbn [option_map]; [| exact I].
  destruct (find (fun c => 0 <? tc_change c) changes) as [outC |];
    cbn [option_map]; [| exact I].
  unfold sameOutcome, agreeButPrices, legsAgree. cbn.
  repeat split; reflexivity.
Qed.

Lemma sameOutcome_transfer (p1 p2 : PriceOracle) (tx : RawTransaction) (addr : Address) :
  sameOutcome (parseTransferTransaction p1 tx addr) (parseTransferTransaction p2 tx addr).
Proof.
  unfold parseTransferTransaction.
  destruct (tx_transaction tx) as [body |]; [| exact I].
  destruct (tx_meta tx) as [meta |]; [| exact I].
  destruct (negb (calculateSOLChange _ _ _ _ =? 0)).
  - unfold sameOutcome, agreeButPrices, legsAgree. cbn. repeat split; reflexivity.
  - destruct (extractTokenChanges _ _ _ _) as [| first rest]; [exact I |].
    unfold sameOutcome, agreeButPrices, legsAgree. cbn. repeat split; reflexivity.
Qed.

Lemma sameOutcome_stamp (x y : option ParsedData) sig bt ty addr :
  sameOutcome x y ->
  sameOutcome (match x with Some p => Some (stamp p sig bt ty addr) | None => None end)
              (match y with Some p => Some (stamp p sig bt ty addr) | None => None end).
Proof.
  destruct x as [a |], y as [b |]; cbn [sameOutcome]; try tauto.
  unfold agreeButPrices, stamp. cbn.
  intros (H1 & H2 & H3 & H4 & H5 & H6 & H7 & H8 & H9 & H10 & H11).
  repeat split; try assumption; try reflexivity; try apply H10; try apply H11.
Qed.

Lemma sameOutcome_refl (x : option ParsedData) : sameOutcome x x.
Proof.
  destruct x; cbn [sameOutcome]; [| exact I].
  unfold agreeButPrices, legsAgree. repeat split; reflexivity.
Qed.

Lemma calculateUSDValue_ext (p1 p2 : PriceOracle) :
  (forall mint, p1 mint = p2 mint) ->
  forall amount mint, calculateUSDValue p1 amount mint = calculateUSDValue p2 amount mint.
Proof. intros H amount mint. unfold calculateUSDValue. now rewrite H. Qed.

Lemma getTokenInfo_ext (p1 p2 : PriceOracle) :
  (forall mint, p1 mint = p2 mint) ->
  forall mint, TokenService.getTokenInfo p1 mint = TokenService.getTokenInfo p2 mint.
Proof. intros H mint. unfold TokenService.getTokenInfo. now rewrite H. Qed.

Lemma parseSwapTransaction_ext (p1 p2 : PriceOracle) tx addr :
  (forall mint, p1 mint = p2 mint) ->
  parseSwapTransaction p1 tx addr = parseSwapTransaction p2 tx addr.
Proof.
  intros H. unfold parseSwapTransaction.
  destruct (tx_transaction tx) as [body |]; [| reflexivity].
  destruct (tx_meta tx) as [meta |]; [| reflexivity].
  set (changes := extractTokenChanges _ _ _ _).
  destruct (List.length changes <? 2)%nat; [reflexivity |].
  rewrite (map_ext _ _ (fun c => f_equal (pair c) (getTokenInfo_ext p1 p2 H (tc_mint c)))).
  destruct (find _ _) as [[inC inInfo] |]; [| reflexivity].
  destruct (find _ _) as [[outC outInfo] |]; [| reflexivity].
  now rewrite !(calculateUSDValue_ext p1 p2 H).
Qed.

Lemma parseTransferTransaction_ext (p1 p2 : PriceOracle) tx addr :
  (forall mint, p1 mint = p2 mint) ->
  parseTransferTransaction p1 tx addr = parseTransferTransaction p2 tx addr.
Proof.
  intros H. unfold parseTransferTransaction.
  destruct (tx_transaction tx) as [body |]; [| reflexivity].
  destruct (tx_meta tx) as [meta |]; [| reflexivity].
  destruct (negb _).
  - now rewrite (calculateUSDValue_ext p1 p2 H).
  - destruct (extractTokenChanges _ _ _ _) as [| first rest]; [reflexivity |].
    now rewrite (calculateUSDValue_ext p1 p2 H), (getTokenInfo_ext p1 p2 H).
Qed.

(** C7 (as amended): the classifier is a function of the transaction, the
    address and the answers of the price service.  Under the same answers two
    invocations give the same result; under different answers they are still
    both null or both an event, and the two events agree on every field
    except the USD value, the USD value of the legs and the quoted price. *)
Theorem parseTransaction_deterministic_up_to_prices
  (p1 p2 : PriceOracle) (tx : option RawTransaction) (addr : Address) :
  ((forall mint, p1 mint = p2 mint) ->
   parseTransaction p1 tx addr = parseTransaction p2 tx addr)
  /\ sameOutcome (parseTransaction p1 tx addr) (parseTransaction p2 tx addr).
Proof.
  split.
  - intros H. unfold parseTransaction.
    destruct tx as [tx |]; [| reflexivity].
    destruct (tx_meta tx); [| reflexivity].
    destruct (tx_transaction tx) as [body |]; [| reflexivity].
    destruct (negb _); [reflexivity |].
    destruct (determineTransactionType _);
      rewrite ?(parseSwapTransaction_ext p1 p2 tx addr H),
              ?(parseTransferTransaction_ext p1 p2 tx addr H); reflexivity.
  - unfold parseTransaction.
    destruct tx as [tx |]; [| exact I].
    destruct (tx_meta tx); [| exact I].
    destruct (tx_transaction tx) as [body |]; [| exact I].
    destruct (negb _); [exact I |].
    destruct (determineTransactionType _); apply sameOutcome_stamp.
    + apply sameOutcome_swap.
    + apply sameOutcome_transfer.
    + apply sameOutcome_refl.
    + apply sameOutcome_refl.
    + apply sameOutcome_refl.
Qed.

Lemma parseTransaction_deterministic_up_to_prices_witness :
  parseTransaction Examples.solAt2 (Some Examples.nativeAndTokenTx) Examples.wallet
  = parseTransaction
      (fun mint => if (mint =? SOL)%string
                   then Some {| pd_price := 2; pd_volume24h := 0; pd_marketCap := 0 |}
                   else Examples.noPrices mint)
      (Some Examples.nativeAndTokenTx) Examples.wallet.
Proof.
  apply (parseTransaction_deterministic_up_to_prices
           Examples.solAt2
           (fun mint => if (mint =? SOL)%string
                        then Some {| pd_price := 2; pd_volume24h := 0;
                                     pd_marketCap := 0 |}
                        else Examples.noPrices mint)
           (Some Examples.nativeAndTokenTx) Examples.wallet).
  intros mint. unfold Examples.solAt2, Examples.noPrices. reflexivity.
Defined.

(** C7 (as stated) fails: the same transaction and address, classified once
    while the price service has no quote and once while it quotes SOL at
    2 USD, give two events that differ in their USD value. *)
Lemma same_inputs_different_usd_value :
  parseTransaction Examples.noPrices (Some Examples.nativeAndTokenTx) Examples.wallet
  <> parseTransaction Examples.solAt2 (Some Examples.nativeAndTokenTx) Examples.wallet
  /\ option_map value
       (parseTransaction Examples.noPrices (Some Examples.nativeAndTokenTx)
                         Examples.wallet) = Some None
  /\ option_map value
       (parseTransaction Examples.solAt2 (Some Examples.nativeAndTokenTx)
                         Examples.wallet) <> Some None.
Proof. vm_compute. repeat split; discriminate. Qed.

(* ------------------------------------------------------------------ *)
(** ** Adding an address *)

Import SolanaMonitor.

(** C9: for an address text that is not base58-decodable, [addAddress] ends by
    throwing the validation error to its caller, and leaves the monitor as it
    was: the set of monitored addresses, the persisted address list and the
    socket are untouched (only the error is logged). *)
Theorem addAddress_rejects_malformed
  (env : Env) (address : Address) (label : string) (m : Monitor) :
  PublicKey.base58_decodable address = false ->
  addAddress env address label m
  = (Throw "Non-base58 character", m, [LogError "Failed to add address"]).
Proof.
  intros H. unfold addAddress, PublicKey.new, PublicKey.decodedLength.
  unfold PublicKey.base58_decodable in H.
  destruct (PublicKey.bs58_value 0 address); [discriminate | reflexivity].
Qed.

Lemma addAddress_rejects_malformed_witness :
  addAddress Examples.quietEnv "not-an-address" "label" Examples.walletMonitor
  = (Throw "Non-base58 character", Examples.walletMonitor,
     [LogError "Failed to add address"]).
Proof.
  apply (addAddress_rejects_malformed Examples.quietEnv "not-an-address" "label"
                                      Examples.walletMonitor).
  vm_compute. reflexivity.
Defined.

(* ------------------------------------------------------------------ *)
(** ** Account notifications *)

Lemma processTransaction_polled env s a files :
  polled (snd (processTransaction env s a files)) = [].
Proof.
  unfold processTransaction.
  destruct (getTransaction env s) as [[tx |] |]; try reflexivity.
  destruct (parseTransaction _ _ _); reflexivity.
Qed.

Lemma polled_app (e1 e2 : list Effect) : polled (e1 ++ e2) = (polled e1 ++ polled e2)%list.
Proof. apply flat_map_app. Qed.

Lemma pollLoop_polled env a sigs files :
  polled (snd (pollLoop env a sigs files)) = [].
Proof.
  revert files. induction sigs as [| h rest IH]; intros files; cbn [pollLoop];
    [reflexivity |].
  destruct (StorageService.isTransactionProcessed _ _); [apply IH |].
  pose proof (processTransaction_polled env (si_signature h) a files) as Hp.
  destruct (processTransaction env (si_signature h) a files) as [files1 effects1].
  specialize (IH files1).
  destruct (pollLoop env a rest files1) as [files2 effects2].
  cbn [snd] in *. now rewrite polled_app, Hp, IH.
Qed.

Lemma pollRecentTransactions_polled env a files :
  polled (snd (pollRecentTransactions env a files)) = [] \/
  polled (snd (pollRecentTransactions env a files)) = [a].
Proof.
  unfold pollRecentTransactions.
  destruct (PublicKey.new a); [| now left].
  destruct (getSignaturesForAddress env a 10) as [sigs |]; [| now right].
  pose proof (pollLoop_polled env a sigs files) as Hp.
  destruct (pollLoop env a sigs files) as [files1 effects1].
  cbn [snd] in *. right.
  change (polled (GetSignatures a :: effects1)) with (a :: polled effects1).
  now rewrite Hp.
Qed.

(** The handler polls at most one address: the [owner] field of the payload,
    and only when that field is itself a monitored address. *)
Lemma handleAccountNotification_polls_owner_only env params m :
  let effects := snd (handleAccountNotification env params m) in
  (polled effects = [] \/ polled effects = [an_owner params]) /\
  (JSMap.has (an_owner params) (monitoredAddresses m) = false ->
   handleAccountNotification env params m = (m, [])).
Proof.
  unfold handleAccountNotification.
  destruct (JSMap.has (an_owner params) (monitoredAddresses m)).
  - split; [| discriminate].
    pose proof (pollRecentTransactions_polled env (an_owner params) (files m)) as Hp.
    destruct (pollRecentTransactions env (an_owner params) (files m)). exact Hp.
  - split; [now left | reflexivity].
Qed.

(** C6 fails on the code: the notification the node sends for the monitored
    wallet names the System program as [owner]; the handler looks that owner
    up in the monitored set, finds nothing, and polls no address at all,
    whatever the chain would answer. *)
Theorem wallet_notification_triggers_no_poll (env : Env) :
  JSMap.has Examples.wallet (monitoredAddresses Examples.walletMonitor) = true /\
  handleWebSocketMessage env (accountNotification Examples.walletNotification)
                         Examples.walletMonitor
  = (Examples.walletMonitor, []) /\
  polled (snd (handleWebSocketMessage env
                 (accountNotification Examples.walletNotification)
                 Examples.walletMonitor)) = [].
Proof. repeat split. Qed.

(* ------------------------------------------------------------------ *)
(** ** The dedup ledger *)

Lemma findIndex_none {A} (p : A -> bool) (l : list A) :
  findIndex p l = None <-> existsb p l = false.
Proof.
  induction l as [| x l IH]; cbn [findIndex existsb]; [tauto |].
  destruct (p x); cbn [orb]; [split; discriminate |].
  destruct (findIndex p l); cbn [option_map].
  - split; [discriminate |]. intros H. apply IH in H. discriminate.
  - tauto.
Qed.

Lemma findIndex_some {A} (p : A -> bool) (l : list A) (i : nat) :
  findIndex p l = Some i -> exists x, nth_error l i = Some x /\ p x = true.
Proof.
  revert i. induction l as [| x l IH]; intros i; cbn [findIndex]; [discriminate |].
  destruct (p x) eqn:E.
  - intros [= <-]. exists x. now split.
  - destruct (findIndex p l) as [j |]; cbn [option_map]; [| discriminate].
    intros [= <-]. destruct (IH j eq_refl) as [y [Hy Hp]]. exists y. now split.
Qed.

Lemma map_assign {A B} (f : A -> B) (i : nat) (x y : A) (l : list A) :
  nth_error l i = Some y -> f x = f y -> map f (assign i x l) = map f l.
Proof.
  revert i. induction l as [| z l IH]; intros [| i]; cbn [nth_error assign map];
    try discriminate.
  - intros [= ->] Hf. now rewrite Hf.
  - intros Hn Hf. now rewrite IH.
Qed.

Lemma existsb_map_compose {A B} (q : B -> bool) (f : A -> B) (l : list A) :
  existsb q (map f l) = existsb (fun x => q (f x)) l.
Proof. induction l as [| x l IH]; cbn [map existsb]; [reflexivity | now rewrite IH]. Qed.

Lemma processed_In (s : Signature) (l : list Signature) :
  processed s l = true <-> In s l.
Proof.
  unfold processed. rewrite existsb_exists. split.
  - intros [x [Hin Heq]]. apply String.eqb_eq in Heq. now subst.
  - intros Hin. exists s. split; [exact Hin | apply String.eqb_refl].
Qed.

Lemma processed_false_not_In (s : Signature) (l : list Signature) :
  processed s l = false <-> ~ In s l.
Proof.
  rewrite <- processed_In. destruct (processed s l); split; congruence.
Qed.

Lemma isTransactionProcessed_ledger (s : Signature) (files : Files) :
  StorageService.isTransactionProcessed s files = processed s (ledger files).
Proof.
  unfold StorageService.isTransactionProcessed, StorageService.getProcessedTransactions,
    processed, ledger.
  now rewrite existsb_map_compose.
Qed.

Lemma map_keep_last {A B} (f : A -> B) (l : list A) :
  map f (if (1000 <? List.length l)%nat then skipn (List.length l - 1000) l else l)
  = if (1000 <? List.length (map f l))%nat
    then skipn (List.length (map f l) - 1000) (map f l)
    else map f l.
Proof.
  rewrite length_map. destruct (1000 <? List.length l)%nat; [| reflexivity].
  now rewrite skipn_map.
Qed.

Lemma ledger_addProcessedTransaction now s ty a p files :
  ledger (StorageService.addProcessedTransaction now s ty a p files)
  = markSigs s (ledger files).
Proof.
  unfold StorageService.addProcessedTransaction, ledger, markSigs.
  cbn [transactions]. rewrite map_keep_last.
  set (l := transactions files).
  assert (Hp : processed s (map pe_signature l)
               = existsb (fun tx => (pe_signature tx =? s)%string) l).
  { unfold processed. apply existsb_map_compose. }
  destruct (findIndex (fun tx => (pe_signature tx =? s)%string) l) as [i |] eqn:E.
  - destruct (findIndex_some _ _ _ E) as [old [Hold Hsig]].
    apply String.eqb_eq in Hsig.
    assert (Hex : processed s (map pe_signature l) = true).
    { rewrite Hp. destruct (existsb _ l) eqn:Ex; [reflexivity |].
      apply findIndex_none in Ex. congruence. }
    rewrite Hex, Hold.
    rewrite (map_assign pe_signature i _ old l Hold) by (cbn; congruence).
    reflexivity.
  - apply findIndex_none in E. rewrite Hp, E.
    rewrite map_app. reflexivity.
Qed.

Lemma In_skipn {A} (n : nat) (l : list A) (x : A) : In x (skipn n l) -> In x l.
Proof.
  intros H. rewrite <- (firstn_skipn n l). apply in_app_iff. now right.
Qed.

Lemma In_skipn_le {A} (a b : nat) (l t : list A) (x : A) :
  (b <= a)%nat -> In x (skipn a l) -> In x (skipn b (l ++ t)).
Proof.
  intros Hle H. rewrite skipn_app. apply in_app_iff. left.
  replace a with ((a - b) + b)%nat in H by lia.
  rewrite <- skipn_skipn in H. now apply In_skipn in H.
Qed.

Lemma survives_In k s l : survives k s l -> In s l.
Proof. apply In_skipn. Qed.

Lemma survives_le k k' s l : (k' <= k)%nat -> survives k s l -> survives k' s l.
Proof.
  unfold survives. intros Hle H.
  rewrite <- (app_nil_r l) at 2. eapply In_skipn_le; [| exact H]. lia.
Qed.

Lemma survives_processed k s l : survives k s l -> processed s l = true.
Proof. intros H. apply processed_In. eapply survives_In; eauto. Qed.

Lemma survives_keep_last k s (l t : list Signature) :
  (List.length t <= 1)%nat ->
  survives (S k) s l ->
  survives k s (if (1000 <? List.length (l ++ t))%nat
                then skipn (List.length (l ++ t) - 1000) (l ++ t)
                else (l ++ t)%list).
Proof.
  unfold survives. intros Ht H.
  destruct (1000 <? List.length (l ++ t))%nat eqn:E.
  - apply Nat.ltb_lt in E. rewrite length_skipn, skipn_skipn.
    rewrite length_app in *.
    eapply In_skipn_le; [| exact H]. lia.
  - rewrite length_app. eapply In_skipn_le; [| exact H]. lia.
Qed.

Lemma survives_markSigs k s h l : survives (S k) s l -> survives k s (markSigs h l).
Proof.
  intros H. unfold markSigs.
  destruct (processed h l).
  - rewrite <- (app_nil_r l). apply survives_keep_last; [cbn; lia | exact H].
  - apply survives_keep_last; [cbn; lia | exact H].
Qed.

Lemma In_markSigs s h l : In s (markSigs h l) -> In s l \/ s = h.
Proof.
  unfold markSigs.
  assert (H1 : In s (if processed h l then l else (l ++ [h])%list) -> In s l \/ s = h).
  { destruct (processed h l); [tauto |].
    rewrite in_app_iff. cbn [In]. intuition. }
  destruct (1000 <? _)%nat; [| exact H1].
  intros H. apply In_skipn in H. auto.
Qed.

(** *** What one [processTransaction] does *)

Lemma touches_app s e1 e2 : touches s (e1 ++ e2) <-> touches s e1 \/ touches s e2.
Proof.
  unfold touches, fetched, classified, emitted, marked.
  rewrite !flat_map_app, !in_app_iff. tauto.
Qed.

Lemma touches_nil s : ~ touches s [].
Proof. unfold touches. cbn. tauto. Qed.

Lemma processTransaction_touches env sg a files s :
  touches s (snd (processTransaction env sg a files)) -> s = sg.
Proof.
  unfold processTransaction, touches.
  destruct (getTransaction env sg) as [[tx |] |].
  - destruct (parseTransaction _ _ _); cbn; intuition.
  - cbn; intuition.
  - cbn; intuition.
Qed.

Lemma processTransaction_ledger env sg a files :
  let r := processTransaction env sg a files in
  (fst r = files /\ marked (snd r) = [] /\ emitted (snd r) = []) \/
  (ledger (fst r) = markSigs sg (ledger files) /\
   marked (snd r) = [sg] /\ emitted (snd r) = [sg] /\
   exists tx, getTransaction env sg = Answer (Some tx) /\
              parseTransaction (getTokenPrice env) (Some tx) a <> None).
Proof.
  unfold processTransaction.
  destruct (getTransaction env sg) as [[tx |] |]; cbn zeta; try (left; now repeat split).
  destruct (parseTransaction _ _ _) as [ev |] eqn:E; [| left; now repeat split].
  right. cbn [fst snd]. rewrite ledger_addProcessedTransaction.
  repeat split. exists tx. split; [reflexivity | congruence].
Qed.

Lemma processTransaction_fetched env sg a files :
  fetched (snd (processTransaction env sg a files)) = [sg] /\
  classified (snd (processTransaction env sg a files))
  = if answersTransaction env sg then [sg] else [].
Proof.
  unfold processTransaction, answersTransaction.
  destruct (getTransaction env sg) as [[tx |] |]; try (split; reflexivity).
  destruct (parseTransaction _ _ _); split; reflexivity.
Qed.

Lemma processTransaction_survives env sg a files k s :
  survives (S k) s (ledger files) ->
  survives k s (ledger (fst (processTransaction env sg a files))).
Proof.
  intros H.
  destruct (processTransaction_ledger env sg a files) as [[-> _] | [-> _]].
  - eapply survives_le; [| exact H]. lia.
  - now apply survives_markSigs.
Qed.

(** *** Polling skips what stays in the ledger *)

Lemma pollLoop_skips env a sigs :
  forall files k s,
    survives (List.length sigs + k) s (ledger files) ->
    ~ touches s (snd (pollLoop env a sigs files)) /\
    survives k s (ledger (fst (pollLoop env a sigs files))).
Proof.
  induction sigs as [| h rest IH]; intros files k s Hs; cbn [pollLoop].
  - split; [apply touches_nil | exact Hs].
  - rewrite isTransactionProcessed_ledger.
    destruct (processed (si_signature h) (ledger files)) eqn:Hh.
    + apply IH. eapply survives_le; [| exact Hs]. cbn [List.length]. lia.
    + assert (Hne : s <> si_signature h).
      { intros ->. apply survives_processed in Hs. congruence. }
      pose proof (processTransaction_touches env (si_signature h) a files s) as Ht.
      pose proof (processTransaction_survives env (si_signature h) a files
                    (List.length rest + k) s Hs) as Hs1.
      destruct (processTransaction env (si_signature h) a files) as [files1 e1].
      cbn [fst snd] in Ht, Hs1.
      destruct (IH files1 k s Hs1) as [Hnt Hs2].
      destruct (pollLoop env a rest files1) as [files2 e2].
      cbn [fst snd] in *.
      split; [| exact Hs2].
      rewrite touches_app. intros [H | H]; [apply Hne, Ht, H | exact (Hnt H)].
Qed.

Lemma touches_cons_GetSignatures s a e :
  touches s (GetSignatures a :: e) <-> touches s e.
Proof. unfold touches. cbn. tauto. Qed.

Lemma pollRecentTransactions_skips env a files k s :
  survives (10 + k) s (ledger files) ->
  ~ touches s (snd (pollRecentTransactions env a files)) /\
  survives k s (ledger (fst (pollRecentTransactions env a files))).
Proof.
  intros Hs.
  assert (Hk : survives k s (ledger files)) by (eapply survives_le; [| exact Hs]; lia).
  unfold pollRecentTransactions, getSignaturesForAddress.
  destruct (PublicKey.new a).
  - destruct (history env a) as [l |].
    + assert (Hw : survives (List.length (firstn 10 l) + k) s (ledger files)).
      { eapply survives_le; [| exact Hs]. pose proof (firstn_le_length 10 l). lia. }
      destruct (pollLoop_skips env a (firstn 10 l) files k s Hw) as [Hnt Hs2].
      destruct (pollLoop env a (firstn 10 l) files) as [files1 e1].
      cbn [fst snd] in *. split; [| exact Hs2].
      now rewrite touches_cons_GetSignatures.
    + cbn [fst snd]. split; [| exact Hk]. unfold touches. cbn. tauto.
  - cbn [fst snd]. split; [| exact Hk]. unfold touches. cbn. tauto.
Qed.

Lemma pollEach_skips env addrs :
  forall files k s,
    survives (10 * List.length addrs + k) s (ledger files) ->
    ~ touches s (snd (pollEach env addrs files)) /\
    survives k s (ledger (fst (pollEach env addrs files))).
Proof.
  induction addrs as [| a rest IH]; intros files k s Hs; cbn [pollEach].
  - split; [apply touches_nil | exact Hs].
  - assert (Hs' : survives (10 + (10 * List.length rest + k)) s (ledger files)).
    { eapply survives_le; [| exact Hs]. cbn [List.length]. lia. }
    destruct (pollRecentTransactions_skips env a files _ s Hs') as [Hnt1 Hs1].
    destruct (pollRecentTransactions env a files) as [files1 e1].
    cbn [fst snd] in *.
    destruct (IH files1 k s Hs1) as [Hnt2 Hs2].
    destruct (pollEach env rest files1) as [files2 e2].
    cbn [fst snd] in *. split; [| exact Hs2].
    rewrite touches_app. tauto.
Qed.

(** C1 (as amended): while a signature is an entry of the dedup ledger that
    the handler run cannot push out (the ledger keeps its last 1000 entries,
    and a poll appends at most ten per polled address), a timer tick and an
    account notification neither fetch its transaction, nor classify it, nor
    emit an event for it, nor mark it again; and it is still in the ledger
    afterwards. *)
Theorem polling_skips_ledger_entries (env : Env) (ev : Event) (m : Monitor)
                                     (s : Signature) :
  isLogs ev = false ->
  survives (pollBudget ev m) s (ledger (files m)) ->
  ~ touches s (snd (step env ev m)) /\
  StorageService.isTransactionProcessed s (files (fst (step env ev m))) = true.
Proof.
  intros Hlogs Hs. rewrite isTransactionProcessed_ledger.
  destruct ev as [| [params | params |]]; cbn [isLogs] in Hlogs; try discriminate;
    cbn [step handleWebSocketMessage pollBudget] in *.
  - unfold tick.
    assert (Hs' : survives (10 * List.length (monitoredAddresses m) + 0) s
                           (ledger (files m))).
    { eapply survives_le; [| exact Hs]. lia. }
    destruct (pollEach_skips env (monitoredAddresses m) (files m) 0 s Hs') as [Hnt Hs2].
    destruct (pollEach env (monitoredAddresses m) (files m)) as [files1 e1].
    cbn [fst snd files] in *. split; [exact Hnt |].
    eapply survives_processed; eauto.
  - unfold handleAccountNotification.
    destruct (JSMap.has (an_owner params) (monitoredAddresses m)).
    + assert (Hs' : survives (10 + 0) s (ledger (files m))).
      { eapply survives_le; [| exact Hs]. lia. }
      destruct (pollRecentTransactions_skips env (an_owner params) (files m) 0 s Hs')
        as [Hnt Hs2].
      destruct (pollRecentTransactions env (an_owner params) (files m)) as [files1 e1].
      cbn [fst snd files] in *. split; [exact Hnt |].
      eapply survives_processed; eauto.
    + cbn [fst snd]. split; [apply touches_nil | eapply survives_processed; eauto].
  - cbn [fst snd]. split; [apply touches_nil | eapply survives_processed; eauto].
Qed.

Lemma polling_skips_ledger_entries_witness :
  ~ touches "seen" (snd (step Examples.seenEnv TimerFired Examples.seenMonitor)) /\
  StorageService.isTransactionProcessed
    "seen" (files (fst (step Examples.seenEnv TimerFired Examples.seenMonitor))) = true.
Proof.
  apply (polling_skips_ledger_entries Examples.seenEnv TimerFired
                                      Examples.seenMonitor "seen").
  - reflexivity.
  - vm_compute. left. reflexivity.
Defined.

(** C1 (as stated) fails: the quiet wallet's signature is classified, emitted
    and marked at the first firing of the timer; a hundred firings later the
    busy wallet has pushed it out of the 1000-entry ledger, and the next poll
    of the quiet wallet classifies it, emits it and marks it a second time. *)
Lemma evicted_signature_is_processed_again :
  StorageService.isTransactionProcessed
    "quiet" (files (fst (run (Examples.busyRun 1) Examples.twoWallets))) = true /\
  StorageService.isTransactionProcessed
    "quiet" (files (fst (run (Examples.busyRun 100) Examples.twoWallets))) = false /\
  count_occ string_dec
    (classified (snd (run (Examples.busyRun 101) Examples.twoWallets))) "quiet" = 2%nat /\
  count_occ string_dec
    (emitted (snd (run (Examples.busyRun 101) Examples.twoWallets))) "quiet" = 2%nat /\
  count_occ string_dec
    (marked (snd (run (Examples.busyRun 101) Examples.twoWallets))) "quiet" = 2%nat.
Proof. vm_compute. repeat split; reflexivity. Qed.

(** The logs channel does not consult the ledger at all: a log notification
    for a signature that is in the ledger is fetched, classified, emitted and
    marked again. *)
Lemma logs_notification_ignores_the_ledger :
  StorageService.isTransactionProcessed "seen" (files Examples.seenMonitor) = true /\
  let effects :=
    snd (step Examples.seenEnv (MessageReceived (logsNotification Examples.seenLogs))
              Examples.seenMonitor) in
  fetched effects = ["seen"] /\ classified effects = ["seen"] /\
  emitted effects = ["seen"] /\ marked effects = ["seen"].
Proof. vm_compute. repeat split; reflexivity. Qed.

(* ------------------------------------------------------------------ *)
(** ** Order of processing within one poll *)

Lemma fetched_app e1 e2 : fetched (e1 ++ e2) = (fetched e1 ++ fetched e2)%list.
Proof. apply flat_map_app. Qed.

Lemma classified_app e1 e2 :
  classified (e1 ++ e2) = (classified e1 ++ classified e2)%list.
Proof. apply flat_map_app. Qed.




Lemma processTransaction_keeps_novel env sg a files s :
  s <> sg ->
  processed s (ledger files) = false ->
  processed s (ledger (fst (processTransaction env sg a files))) = false.
Proof.
  intros Hne Hp.
  destruct (processTransaction_ledger env sg a files) as [[-> _] | [-> _]];
    [exact Hp |].
  apply processed_false_not_In. intros Hin. apply In_markSigs in Hin.
  apply processed_false_not_In in Hp. tauto.
Qed.


(** A signature of the window that is not in the ledger when the poll starts
    is fetched, and classified when the chain returns its transaction. *)
Lemma pollLoop_reaches env a sigs :
  forall files s,
    processed s (ledger files) = false ->
    In s (map si_signature sigs) ->
    In (GetTransaction s) (snd (pollLoop env a sigs files)) /\
    (forall tx, getTransaction env s = Answer (Some tx) ->
                In (Classify s a) (snd (pollLoop env a sigs files))).
Proof.
  induction sigs as [| h rest IH]; intros files s Hp Hin; cbn [pollLoop];
    [destruct Hin |].
  cbn [map In] in Hin.
  rewrite isTransactionProcessed_ledger.
  destruct (String.eqb_spec (si_signature h) s) as [Heq | Hne].
  - rewrite Heq, Hp.
    assert (Hhere :
      In (GetTransaction s) (snd (processTransaction env s a files)) /\
      (forall tx, getTransaction env s = Answer (Some tx) ->
                  In (Classify s a) (snd (processTransaction env s a files)))).
    { unfold processTransaction.
      destruct (getTransaction env s) as [[tx |] |].
      - destruct (parseTransaction _ _ _); cbn [snd In]; split; auto.
      - cbn [snd In]. split; [auto | discriminate].
      - cbn [snd In]. split; [auto | discriminate]. }
    destruct (processTransaction env s a files) as [files1 e1].
    destruct (pollLoop env a rest files1) as [files2 e2].
    cbn [fst snd] in *. destruct Hhere as [H1 H2].
    split; [| intros tx Htx]; apply in_app_iff; left; eauto.
  - assert (Hrest : In s (map si_signature rest))
      by (destruct Hin; [contradiction | assumption]).
    destruct (processed (si_signature h) (ledger files)).
    + now apply IH.
    + pose proof (processTransaction_keeps_novel env (si_signature h) a files s
                    (fun E => Hne (eq_sym E)) Hp) as H1.
      destruct (processTransaction env (si_signature h) a files) as [files1 e1].
      destruct (IH files1 s H1 Hrest) as [H2 H3].
      destruct (pollLoop env a rest files1) as [files2 e2].
      cbn [fst snd] in *.
      split; [| intros tx Htx]; apply in_app_iff; right; eauto.
Qed.





(* ------------------------------------------------------------------ *)
(** ** Signatures the classifier maps to null *)

Lemma marked_app e1 e2 : marked (e1 ++ e2) = (marked e1 ++ marked e2)%list.
Proof. apply flat_map_app. Qed.

Lemma emitted_app e1 e2 : emitted (e1 ++ e2) = (emitted e1 ++ emitted e2)%list.
Proof. apply flat_map_app. Qed.

Lemma untouched_seq s files1 e1 files2 e2 :
  untouched s (files1, e1) -> untouched s (files2, e2) ->
  untouched s (files2, (e1 ++ e2)%list).
Proof.
  unfold untouched. cbn [fst snd]. rewrite marked_app, emitted_app, !in_app_iff. tauto.
Qed.

Lemma processTransaction_untouched env sg a files s :
  processed s (ledger files) = false ->
  (sg = s -> nullFor env s a) ->
  untouched s (processTransaction env sg a files).
Proof.
  intros Hp Hnull. unfold untouched.
  destruct (processTransaction_ledger env sg a files)
    as [[-> [-> ->]] | [-> [-> [-> [tx [Htx Hev]]]]]].
  - cbn [In]. tauto.
  - assert (Hne : s <> sg).
    { intros ->. apply Hev. now apply (Hnull eq_refl). }
    split; [| cbn [In]; intuition].
    apply processed_false_not_In. intros Hin. apply In_markSigs in Hin.
    apply processed_false_not_In in Hp. tauto.
Qed.

Lemma pollLoop_untouched env a sigs :
  forall files s,
    processed s (ledger files) = false -> nullFor env s a ->
    untouched s (pollLoop env a sigs files).
Proof.
  induction sigs as [| h rest IH]; intros files s Hp Hnull; cbn [pollLoop].
  - unfold untouched. cbn. tauto.
  - destruct (StorageService.isTransactionProcessed _ _); [now apply IH |].
    pose proof (processTransaction_untouched env (si_signature h) a files s Hp
                  (fun _ => Hnull)) as H1.
    destruct (processTransaction env (si_signature h) a files) as [files1 e1].
    pose proof (IH files1 s (proj1 H1) Hnull) as H2.
    destruct (pollLoop env a rest files1) as [files2 e2].
    now apply (untouched_seq s files1).
Qed.

Lemma pollRecentTransactions_untouched env a files s :
  processed s (ledger files) = false -> nullFor env s a ->
  untouched s (pollRecentTransactions env a files).
Proof.
  intros Hp Hnull. unfold pollRecentTransactions.
  destruct (PublicKey.new a); [| unfold untouched; cbn; tauto].
  destruct (getSignaturesForAddress env a 10) as [sigs |];
    [| unfold untouched; cbn; tauto].
  pose proof (pollLoop_untouched env a sigs files s Hp Hnull) as H.
  destruct (pollLoop env a sigs files) as [files1 e1].
  exact H.
Qed.

Lemma pollEach_untouched env addrs :
  forall files s,
    processed s (ledger files) = false ->
    (forall a, In a addrs -> nullFor env s a) ->
    untouched s (pollEach env addrs files).
Proof.
  induction addrs as [| a rest IH]; intros files s Hp Hnull; cbn [pollEach].
  - unfold untouched. cbn. tauto.
  - pose proof (pollRecentTransactions_untouched env a files s Hp
                  (Hnull a (or_introl eq_refl))) as H1.
    destruct (pollRecentTransactions env a files) as [files1 e1].
    pose proof (IH files1 s (proj1 H1) (fun b Hb => Hnull b (or_intror Hb))) as H2.
    destruct (pollEach env rest files1) as [files2 e2].
    now apply (untouched_seq s files1).
Qed.

Lemma has_In a (l : list Address) : JSMap.has a l = true -> In a l.
Proof.
  unfold JSMap.has. rewrite existsb_exists. intros [x [Hin Heq]].
  apply String.eqb_eq in Heq. now subst.
Qed.

Lemma step_untouched env ev m s :
  processed s (ledger (files m)) = false ->
  (forall a, In a (monitoredAddresses m) -> nullFor env s a) ->
  untouched s (files (fst (step env ev m)), snd (step env ev m)) /\
  monitoredAddresses (fst (step env ev m)) = monitoredAddresses m.
Proof.
  intros Hp Hnull.
  destruct ev as [| [params | params |]];
    cbn [step handleWebSocketMessage].
  - unfold tick.
    pose proof (pollEach_untouched env (monitoredAddresses m) (files m) s Hp Hnull) as H.
    destruct (pollEach env (monitoredAddresses m) (files m)) as [files1 e1].
    cbn [fst snd files monitoredAddresses]. now split.
  - unfold handleAccountNotification.
    destruct (JSMap.has (an_owner params) (monitoredAddresses m)) eqn:Hhas.
    + pose proof (pollRecentTransactions_untouched env (an_owner params) (files m) s Hp
                    (Hnull _ (has_In _ _ Hhas))) as H.
      destruct (pollRecentTransactions env (an_owner params) (files m)) as [files1 e1].
      cbn [fst snd files monitoredAddresses]. now split.
    + cbn [fst snd]. split; [| reflexivity]. unfold untouched. cbn. tauto.
  - unfold handleLogsNotification.
    match goal with
    | |- context [find ?p ?addrs] => destruct (find p addrs) as [a |] eqn:Hfind
    end.
    + apply find_some in Hfind. destruct Hfind as [Hin _].
      pose proof (processTransaction_untouched env (ln_signature params) a (files m) s Hp
                    (fun _ => Hnull a Hin)) as H.
      destruct (processTransaction env (ln_signature params) a (files m)) as [files1 e1].
      cbn [fst snd files monitoredAddresses]. now split.
    + cbn [fst snd]. split; [| reflexivity]. unfold untouched. cbn. tauto.
  - cbn [fst snd]. split; [| reflexivity]. unfold untouched. cbn. tauto.
Qed.

Lemma run_untouched events :
  forall m s,
    processed s (ledger (files m)) = false ->
    (forall env ev a, In (env, ev) events -> In a (monitoredAddresses m) ->
                      nullFor env s a) ->
    untouched s (files (fst (run events m)), snd (run events m)).
Proof.
  induction events as [| [env ev] rest IH]; intros m s Hp Hnull; cbn [run].
  - unfold untouched. cbn. tauto.
  - destruct (step_untouched env ev m s Hp
                (fun a Ha => Hnull env ev a (or_introl eq_refl) Ha)) as [H1 Hm].
    destruct (step env ev m) as [m1 e1]. cbn [fst snd] in *.
    assert (H2 : untouched s (files (fst (run rest m1)), snd (run rest m1))).
    { apply IH; [exact (proj1 H1) |].
      intros env0 ev0 a Hin Ha. rewrite Hm in Ha.
      apply (Hnull env0 ev0 a); [now right | exact Ha]. }
    destruct (run rest m1) as [m2 e2]. cbn [fst snd] in *.
    now apply (untouched_seq s (files m1)).
Qed.

(* ================================================================== *)
(** * Further properties of the code *)

Import Words.

(* ------------------------------------------------------------------ *)
(** ** The classifier *)

Lemma isAddressInvolved_existsb (accounts : list AccountKey) (a : Address) :
  isAddressInvolved accounts a = existsb (readsAs a) accounts.
Proof.
  unfold isAddressInvolved, readsAs.
  destruct accounts as [| k rest]; cbn [existsb]; [reflexivity |].
  destruct (accountStr k =? a)%string; cbn [orb]; [reflexivity |].
  apply orb_false_r.
Qed.

Lemma determineTransactionType_range (instrs : list Instruction) :
  determineTransactionType instrs = SWAP \/
  determineTransactionType instrs = TRANSFER \/
  determineTransactionType instrs = UNKNOWN.
Proof.
  induction instrs as [| i rest IH]; cbn [determineTransactionType]; [tauto |].
  destruct (arrayIncludes DEX_PROGRAM_IDS (programId i)); [tauto |].
  destruct (programId i =? SYSTEM_PROGRAM)%string; [tauto |].
  destruct (programId i =? TOKEN_PROGRAM)%string; [tauto | exact IH].
Qed.

(** Relevance: an event is only ever built for a transaction that carries
    its metadata and its body and has an account key that reads as the
    monitored address; the fee-payer test of [isAddressInvolved] adds nothing
    to the scan of the keys. *)
Theorem event_requires_involved_address
  (prices : PriceOracle) (tx : option RawTransaction) (a : Address) (ev : ParsedData) :
  parseTransaction prices tx a = Some ev ->
  exists t body meta k,
    tx = Some t /\ tx_transaction t = Some body /\ tx_meta t = Some meta /\
    In k (accountKeys (message body)) /\ accountStr k = a /\
    isAddressInvolved (accountKeys (message body)) a
    = existsb (readsAs a) (accountKeys (message body)).
Proof.
  unfold parseTransaction. destruct tx as [t |]; [| discriminate].
  destruct (tx_meta t) as [meta |] eqn:Hm; [| discriminate].
  destruct (tx_transaction t) as [body |] eqn:Hb; [| discriminate].
  destruct (isAddressInvolved (accountKeys (message body)) a) eqn:Hinv;
    cbn [negb]; [| discriminate].
  intros _. rewrite isAddressInvolved_existsb in Hinv.
  apply existsb_exists in Hinv. destruct Hinv as [k [Hin Hk]].
  apply String.eqb_eq in Hk.
  exists t, body, meta, k. repeat split; try assumption; try reflexivity.
  apply isAddressInvolved_existsb.
Qed.

Lemma event_requires_involved_address_witness :
  exists t body meta k,
    Some Examples.swapTx = Some t /\ tx_transaction t = Some body /\
    tx_meta t = Some meta /\
    In k (accountKeys (message body)) /\ accountStr k = Examples.wallet /\
    isAddressInvolved (accountKeys (message body)) Examples.wallet
    = existsb (readsAs Examples.wallet) (accountKeys (message body)).
Proof.
  destruct (parseTransaction Examples.noPrices (Some Examples.swapTx) Examples.wallet)
    as [ev |] eqn:E; [| vm_compute in E; discriminate].
  exact (event_requires_involved_address Examples.noPrices (Some Examples.swapTx)
           Examples.wallet ev E).
Defined.

(** Every event is stamped with the first signature of the transaction, its
    block time and the monitored address, and its type is one of SWAP,
    TRANSFER and UNKNOWN: type determination never answers DEFI or NFT, so
    the DeFi branch of the classifier is never taken. *)
Theorem event_is_stamped
  (prices : PriceOracle) (t : RawTransaction) (body : TxBody) (a : Address)
  (ev : ParsedData) :
  tx_transaction t = Some body ->
  parseTransaction prices (Some t) a = Some ev ->
  signature ev = hd_error (signatures body) /\
  blockTime ev = tx_blockTime t /\
  monitoredAddress ev = Some a /\
  type ev = Some (type_name (determineTransactionType (instructions (message body)))) /\
  (type ev = Some "SWAP" \/ type ev = Some "TRANSFER" \/ type ev = Some "UNKNOWN") /\
  defi ev = None.
Proof.
  intros Hb. unfold parseTransaction. rewrite Hb.
  destruct (tx_meta t) as [meta |] eqn:Hm; [| discriminate].
  destruct (negb _); [discriminate |].
  pose proof (determineTransactionType_range (instructions (message body))) as Hr.
  destruct (determineTransactionType (instructions (message body))) eqn:Ht;
    try (destruct Hr as [Hr | [Hr | Hr]]; discriminate).
  - destruct (parseSwapTransaction prices t a) as [p |] eqn:Hp; [| discriminate].
    intros [= <-]. cbn. repeat split; auto.
    unfold parseSwapTransaction in Hp. rewrite Hb, Hm in Hp.
    destruct (_ <? 2)%nat; [discriminate |].
    destruct (find _ _) as [[inC inInfo] |]; [| discriminate].
    destruct (find _ _) as [[outC outInfo] |]; [| discriminate].
    now injection Hp as <-.
  - destruct (parseTransferTransaction prices t a) as [p |] eqn:Hp; [| discriminate].
    intros [= <-]. cbn. repeat split; auto.
    unfold parseTransferTransaction in Hp. rewrite Hb, Hm in Hp.
    destruct (negb _); [now injection Hp as <- |].
    destruct (extractTokenChanges _ _ _ _); [discriminate | now injection Hp as <-].
  - unfold parseUnknownTransaction. intros [= <-]. cbn. repeat split; auto.
Qed.

Lemma event_is_stamped_witness :
  exists ev,
    parseTransaction Examples.noPrices (Some Examples.swapTx) Examples.wallet = Some ev /\
    signature ev = Some "sigSwap" /\ monitoredAddress ev = Some Examples.wallet.
Proof.
  destruct (parseTransaction Examples.noPrices (Some Examples.swapTx) Examples.wallet)
    as [ev |] eqn:E; [| vm_compute in E; discriminate].
  exists ev. split; [reflexivity |].
  destruct (event_is_stamped Examples.noPrices Examples.swapTx
              {| signatures := ["sigSwap"];
                 message := {| instructions := [mkInstruction JUPITER_V6];
                               accountKeys := [KeyString Examples.wallet;
                                               KeyString Examples.other] |} |}
              Examples.wallet ev eq_refl E) as [Hs [_ [Ha _]]].
  split; [exact Hs | exact Ha].
Defined.

(** *** Platforms *)

Lemma isDex_cascade (i : Instruction) :
  isDex i =
  ((programId i =? JUPITER_V6)%string || ((programId i =? JUPITER_V4)%string ||
   ((programId i =? RAYDIUM_AMM)%string || ((programId i =? RAYDIUM_CLMM)%string ||
    ((programId i =? ORCA_WHIRLPOOL)%string || ((programId i =? METEORA)%string ||
     ((programId i =? SERUM_V3)%string || ((programId i =? OPENBOOK)%string
      || false)))))))).
Proof.
  unfold isDex, arrayIncludes, DEX_PROGRAM_IDS. cbn [existsb].
  now rewrite !(String.eqb_sym _ (programId i)).
Qed.

Lemma platform_names_differ :
  forallb (fun p => negb (p =? PLATFORM_UNKNOWN)%string)
          [PLATFORM_JUPITER; PLATFORM_RAYDIUM; PLATFORM_ORCA; PLATFORM_METEORA;
           PLATFORM_SERUM; PLATFORM_OPENBOOK] = true.
Proof. vm_compute. reflexivity. Qed.

Lemma named_platform (p : string) :
  In p [PLATFORM_JUPITER; PLATFORM_RAYDIUM; PLATFORM_ORCA; PLATFORM_METEORA;
        PLATFORM_SERUM; PLATFORM_OPENBOOK] ->
  p <> PLATFORM_UNKNOWN.
Proof.
  intros Hin. pose proof platform_names_differ as H.
  rewrite forallb_forall in H. specialize (H p Hin).
  apply negb_true_iff in H. now apply String.eqb_neq in H.
Qed.

(** The platform of the first DEX instruction, when there is one. *)
Lemma determineDEXPlatform_cases (instrs : list Instruction) :
  (existsb isDex instrs = false /\ determineDEXPlatform instrs = PLATFORM_UNKNOWN) \/
  (existsb isDex instrs = true /\
   In (determineDEXPlatform instrs)
      [PLATFORM_JUPITER; PLATFORM_RAYDIUM; PLATFORM_ORCA; PLATFORM_METEORA;
       PLATFORM_SERUM; PLATFORM_OPENBOOK]).
Proof.
  induction instrs as [| i rest IH]; cbn [existsb determineDEXPlatform];
    [left; now split |].
  rewrite isDex_cascade.
  destruct (programId i =? JUPITER_V6)%string; cbn [orb];
    [right; split; [reflexivity | cbn [In]; tauto] |].
  destruct (programId i =? JUPITER_V4)%string; cbn [orb];
    [right; split; [reflexivity | cbn [In]; tauto] |].
  destruct (programId i =? RAYDIUM_AMM)%string; cbn [orb];
    [right; split; [reflexivity | cbn [In]; tauto] |].
  destruct (programId i =? RAYDIUM_CLMM)%string; cbn [orb];
    [right; split; [reflexivity | cbn [In]; tauto] |].
  destruct (programId i =? ORCA_WHIRLPOOL)%string; cbn [orb];
    [right; split; [reflexivity | cbn [In]; tauto] |].
  destruct (programId i =? METEORA)%string; cbn [orb];
    [right; split; [reflexivity | cbn [In]; tauto] |].
  destruct (programId i =? SERUM_V3)%string; cbn [orb];
    [right; split; [reflexivity | cbn [In]; tauto] |].
  destruct (programId i =? OPENBOOK)%string; cbn [orb];
    [right; split; [reflexivity | cbn [In]; tauto] |].
  exact IH.
Qed.

Lemma SWAP_has_dex (instrs : list Instruction) :
  determineTransactionType instrs = SWAP -> existsb isDex instrs = true.
Proof.
  induction instrs as [| i rest IH]; cbn [determineTransactionType existsb];
    [discriminate |].
  unfold isDex at 1.
  destruct (arrayIncludes DEX_PROGRAM_IDS (programId i)); cbn [orb]; [reflexivity |].
  destruct (programId i =? SYSTEM_PROGRAM)%string; [discriminate |].
  destruct (programId i =? TOKEN_PROGRAM)%string; [discriminate | exact IH].
Qed.

(** The DEX platform is "Unknown DEX" exactly when no instruction calls one
    of the eight known DEX programs; in particular a transaction typed SWAP
    always gets one of the six platform names. *)
Theorem dex_platform_unknown_iff (instrs : list Instruction) :
  (determineDEXPlatform instrs = PLATFORM_UNKNOWN <-> existsb isDex instrs = false)
  /\ (determineTransactionType instrs = SWAP ->
      In (determineDEXPlatform instrs)
         [PLATFORM_JUPITER; PLATFORM_RAYDIUM; PLATFORM_ORCA; PLATFORM_METEORA;
          PLATFORM_SERUM; PLATFORM_OPENBOOK]).
Proof.
  destruct (determineDEXPlatform_cases instrs) as [[Hd Hp] | [Hd Hp]].
  - split; [tauto |]. intros Ht. apply SWAP_has_dex in Ht. congruence.
  - split; [| intros _; exact Hp].
    split; [| congruence]. intros Hu. apply named_platform in Hp. contradiction.
Qed.

Lemma dex_platform_unknown_iff_witness :
  In (determineDEXPlatform [mkInstruction ATOKEN_PROGRAM; mkInstruction ORCA_WHIRLPOOL;
                            mkInstruction JUPITER_V6])
     [PLATFORM_JUPITER; PLATFORM_RAYDIUM; PLATFORM_ORCA; PLATFORM_METEORA;
      PLATFORM_SERUM; PLATFORM_OPENBOOK].
Proof.
  apply (dex_platform_unknown_iff [mkInstruction ATOKEN_PROGRAM;
                                   mkInstruction ORCA_WHIRLPOOL;
                                   mkInstruction JUPITER_V6]).
  vm_compute. reflexivity.
Defined.

Lemma UNKNOWN_has_no_known_program (instrs : list Instruction) :
  determineTransactionType instrs = UNKNOWN ->
  forall i, In i instrs ->
            (programId i =? SYSTEM_PROGRAM)%string = false /\
            (programId i =? TOKEN_PROGRAM)%string = false /\
            isDex i = false.
Proof.
  induction instrs as [| j rest IH]; cbn [determineTransactionType In];
    [intros _ i [] |].
  destruct (arrayIncludes DEX_PROGRAM_IDS (programId j)) eqn:Hd; [discriminate |].
  destruct (programId j =? SYSTEM_PROGRAM)%string eqn:Hs; [discriminate |].
  destruct (programId j =? TOKEN_PROGRAM)%string eqn:Ht; [discriminate |].
  intros Hu i [<- | Hin]; [now repeat split | now apply IH].
Qed.

Lemma unknownPlatform_fold (instrs : list Instruction) :
  (forall i, In i instrs ->
             (programId i =? SYSTEM_PROGRAM)%string = false /\
             (programId i =? TOKEN_PROGRAM)%string = false) ->
  forall acc,
    fold_left
      (fun platform instruction =>
         if (programId instruction =? SYSTEM_PROGRAM)%string then "System Program"
         else if (programId instruction =? TOKEN_PROGRAM)%string then "SPL Token Program"
         else if (programId instruction =? ATOKEN_PROGRAM)%string
              then "Associated Token Account"
         else platform)
      instrs acc
    = if existsb isATA instrs then "Associated Token Account" else acc.
Proof.
  induction instrs as [| i rest IH]; intros Hno acc; cbn [fold_left existsb];
    [reflexivity |].
  destruct (Hno i (or_introl eq_refl)) as [Hs Ht]. rewrite Hs, Ht.
  rewrite IH by (intros j Hj; apply Hno; now right).
  change (isATA i) with (programId i =? ATOKEN_PROGRAM)%string.
  destruct (programId i =? ATOKEN_PROGRAM)%string; cbn [orb]; [| reflexivity].
  now destruct (existsb isATA rest).
Qed.

(** A relevant transaction that calls no DEX, System or SPL Token program
    always yields an event, never null: its activity is "Transaction
    Detected", its value is unknown, and its platform is "Associated Token
    Account" when some instruction calls that program and "Unknown"
    otherwise (the System and SPL Token labels of [parseUnknownTransaction]
    can never appear in an event). *)
Theorem unknown_transaction_always_reported
  (prices : PriceOracle) (t : RawTransaction) (body : TxBody) (meta : Meta)
  (a : Address) :
  tx_transaction t = Some body ->
  tx_meta t = Some meta ->
  isAddressInvolved (accountKeys (message body)) a = true ->
  determineTransactionType (instructions (message body)) = UNKNOWN ->
  exists ev,
    parseTransaction prices (Some t) a = Some ev /\
    type ev = Some "UNKNOWN" /\
    activity ev = Some "Transaction Detected" /\
    value ev = None /\
    platform ev = if existsb isATA (instructions (message body))
                  then "Associated Token Account" else "Unknown".
Proof.
  intros Hb Hm Hinv Ht.
  unfold parseTransaction. rewrite Hm, Hb, Hinv, Ht. cbn [negb].
  unfold parseUnknownTransaction. rewrite Hb.
  eexists. split; [reflexivity |]. cbn. repeat split.
  unfold unknownPlatform. apply unknownPlatform_fold.
  intros i Hi. destruct (UNKNOWN_has_no_known_program _ Ht i Hi) as [Hs [Htk _]].
  now split.
Qed.

Lemma unknown_transaction_always_reported_witness :
  exists ev,
    parseTransaction Examples.noPrices (Some (Examples.plainTx "sigPlain" 5))
                     Examples.wallet = Some ev /\
    type ev = Some "UNKNOWN" /\
    activity ev = Some "Transaction Detected" /\
    value ev = None /\
    platform ev = "Unknown".
Proof.
  exact (unknown_transaction_always_reported
           Examples.noPrices (Examples.plainTx "sigPlain" 5)
           {| signatures := ["sigPlain"];
              message := {| instructions := [];
                            accountKeys := [KeyString Examples.wallet;
                                            KeyString Examples.wallet2] |} |}
           {| preBalances := [5; 5]; postBalances := [5; 5];
              preTokenBalances := []; postTokenBalances := [] |}
           Examples.wallet eq_refl eq_refl eq_refl eq_refl).
Defined.

(** *** Token balance maps *)

Lemma get_set_same (k : string) (v : Z) (m : list (string * Z)) :
  JSMap.get k (JSMap.set k v m) = Some v.
Proof.
  induction m as [| [k0 v0] m IH]; cbn [JSMap.set JSMap.get].
  - now rewrite String.eqb_refl.
  - destruct (k0 =? k)%string eqn:E; cbn [JSMap.get]; rewrite E; [reflexivity | exact IH].
Qed.

Lemma get_set_other (k k' : string) (v : Z) (m : list (string * Z)) :
  k' <> k -> JSMap.get k (JSMap.set k' v m) = JSMap.get k m.
Proof.
  intros Hne. induction m as [| [k0 v0] m IH]; cbn [JSMap.set JSMap.get].
  - apply String.eqb_neq in Hne. now rewrite Hne.
  - destruct (k0 =? k')%string eqn:E; cbn [JSMap.get].
    + apply String.eqb_eq in E. subst k0.
      apply String.eqb_neq in Hne. now rewrite Hne.
    + destruct (k0 =? k)%string; [reflexivity | exact IH].
Qed.

Lemma find_app {A} (p : A -> bool) (l1 l2 : list A) :
  find p (l1 ++ l2) = match find p l1 with Some x => Some x | None => find p l2 end.
Proof.
  induction l1 as [| x l1 IH]; cbn [app find]; [reflexivity |].
  destruct (p x); [reflexivity | exact IH].
Qed.

(** When the monitored owner holds several token accounts of one mint, the
    balance map keeps the amount of the last of them in the list: the
    amounts are not added up. *)
Theorem balanceMap_last_write_wins
  (balances : list TokenBalance) (owner : Address) (mint : Mint) :
  JSMap.get mint (balanceMap balances owner)
  = option_map tb_amount (find (balanceOf owner mint) (rev balances)).
Proof.
  unfold balanceMap.
  assert (G : forall m,
    JSMap.get mint
      (fold_left
         (fun m balance =>
            if (tb_owner balance =? owner)%string
            then JSMap.set (tb_mint balance) (tb_amount balance) m
            else m) balances m)
    = match find (balanceOf owner mint) (rev balances) with
      | Some b => Some (tb_amount b)
      | None => JSMap.get mint m
      end).
  { induction balances as [| b rest IH]; intros m; cbn [fold_left rev find];
      [reflexivity |].
    rewrite IH, find_app. destruct (find _ (rev rest)); [reflexivity |].
    cbn [find]. unfold balanceOf.
    destruct (tb_owner b =? owner)%string; cbn [andb]; [| reflexivity].
    destruct (String.eqb_spec (tb_mint b) mint) as [-> | Hne].
    - apply get_set_same.
    - now apply get_set_other. }
  rewrite G. cbn [JSMap.get]. now destruct (find _ _).
Qed.

Lemma has_true_In (k : string) (s : list string) : JSMap.has k s = true <-> In k s.
Proof.
  unfold JSMap.has. rewrite existsb_exists. split.
  - intros [x [Hin Heq]]. apply String.eqb_eq in Heq. now subst.
  - intros Hin. exists k. split; [exact Hin | apply String.eqb_refl].
Qed.

Lemma add_NoDup (k : string) (s : list string) : NoDup s -> NoDup (JSMap.add k s).
Proof.
  intros Hnd. unfold JSMap.add. destruct (JSMap.has k s) eqn:E; [exact Hnd |].
  apply NoDup_app; [exact Hnd | repeat constructor; intros [] |].
  intros x Hx [<- | []].
  apply has_true_In in Hx. congruence.
Qed.

Lemma In_add (k x : string) (s : list string) :
  In x (JSMap.add k s) <-> In x s \/ x = k.
Proof.
  unfold JSMap.add. destruct (JSMap.has k s) eqn:E.
  - apply has_true_In in E. split; [tauto | intros [H | ->]; assumption].
  - rewrite in_app_iff. cbn [In]. intuition.
Qed.

Lemma Set_of_spec (l : list string) :
  NoDup (JSMap.Set_of l) /\ (forall x, In x (JSMap.Set_of l) <-> In x l).
Proof.
  unfold JSMap.Set_of.
  assert (G : forall acc, NoDup acc ->
    NoDup (fold_left (fun s k => JSMap.add k s) l acc) /\
    (forall x, In x (fold_left (fun s k => JSMap.add k s) l acc) <-> In x acc \/ In x l)).
  { induction l as [| k rest IH]; intros acc Hnd; cbn [fold_left].
    - split; [exact Hnd | intros x; cbn [In]; tauto].
    - destruct (IH (JSMap.add k acc) (add_NoDup k acc Hnd)) as [H1 H2].
      split; [exact H1 |]. intros x. rewrite H2, In_add. cbn [In]. intuition. }
  destruct (G [] (NoDup_nil _)) as [H1 H2].
  split; [exact H1 |]. intros x. rewrite H2. cbn [In]. tauto.
Qed.

Lemma In_keys_set (k k' : string) (v : Z) (m : list (string * Z)) :
  In k (JSMap.keys (JSMap.set k' v m)) -> k = k' \/ In k (JSMap.keys m).
Proof.
  unfold JSMap.keys.
  induction m as [| [k0 v0] m IH]; cbn [JSMap.set map fst In].
  - intros [<- | []]. now left.
  - destruct (k0 =? k')%string; cbn [map fst In]; [tauto |].
    intros [H | H]; [tauto |]. destruct (IH H); tauto.
Qed.

Lemma In_keys_balanceMap (balances : list TokenBalance) (owner : Address) (k : string) :
  In k (JSMap.keys (balanceMap balances owner)) ->
  exists b, In b balances /\ tb_owner b = owner /\ tb_mint b = k.
Proof.
  unfold balanceMap.
  assert (G : forall m,
    In k (JSMap.keys
            (fold_left
               (fun m balance =>
                  if (tb_owner balance =? owner)%string
                  then JSMap.set (tb_mint balance) (tb_amount balance) m
                  else m) balances m)) ->
    In k (JSMap.keys m) \/
    exists b, In b balances /\ tb_owner b = owner /\ tb_mint b = k).
  { induction balances as [| b rest IH]; intros m; cbn [fold_left]; [tauto |].
    intros H. apply IH in H. destruct H as [H | [b' [Hin Hb']]].
    - destruct (String.eqb_spec (tb_owner b) owner) as [Ho | Ho]; [| now left].
      apply In_keys_set in H. destruct H as [-> | H]; [| now left].
      right. exists b. cbn [In]. auto.
    - right. exists b'. cbn [In]. tauto. }
  intros H. apply G in H. destruct H as [[] | H]. exact H.
Qed.

Lemma changes_mints (pre post : list (string * Z)) (mints : list string) :
  (forall m, In m (map tc_mint (flat_map (changeOf pre post) mints)) -> In m mints) /\
  (NoDup mints -> NoDup (map tc_mint (flat_map (changeOf pre post) mints))).
Proof.
  induction mints as [| k rest [IH1 IH2]]; cbn [flat_map map].
  - split; [tauto | intros _; constructor].
  - assert (Hk : changeOf pre post k = [] \/
                 exists c, changeOf pre post k = [c] /\ tc_mint c = k).
    { unfold changeOf. destruct (_ =? 0); [now left |]. right. eexists. now split. }
    rewrite map_app.
    destruct Hk as [-> | [c [-> Hc]]]; cbn [map app In].
    + split; [intros m Hm; right; now apply IH1 |].
      intros Hnd. inversion Hnd; subst. now apply IH2.
    + rewrite Hc. split.
      * intros m [<- | Hm]; [now left | right; now apply IH1].
      * intros Hnd. inversion Hnd as [| x xs Hnotin Hnd']; subst.
        constructor; [| now apply IH2]. intros Hin. apply Hnotin. now apply IH1.
Qed.

(** The list of token changes has at most one entry per mint, and every
    listed mint is the mint of a pre- or post-balance owned by the monitored
    address; when the address is not a string key of the transaction the
    list is empty. *)
Theorem token_changes_one_per_owned_mint
  (pre post : list TokenBalance) (accounts : list AccountKey) (a : Address) :
  let changes := extractTokenChanges pre post accounts a in
  NoDup (map tc_mint changes)
  /\ (forall c, In c changes ->
        exists b, (In b pre \/ In b post) /\ tb_owner b = a /\ tb_mint b = tc_mint c)
  /\ (findIndex (fun account => strictEq account a) accounts = None -> changes = []).
Proof.
  cbn zeta. unfold extractTokenChanges.
  destruct (findIndex _ accounts); [| repeat split; [constructor | intros c [] ]].
  set (mints := JSMap.Set_of _).
  destruct (Set_of_spec (JSMap.keys (balanceMap pre a) ++ JSMap.keys (balanceMap post a)))
    as [Hnd Hin]. fold mints in Hnd, Hin.
  destruct (changes_mints (balanceMap pre a) (balanceMap post a) mints) as [H1 H2].
  split; [now apply H2 |]. split; [| discriminate].
  intros c Hc.
  assert (Hm : In (tc_mint c) mints) by (apply H1; now apply in_map).
  apply Hin in Hm. apply in_app_iff in Hm.
  destruct Hm as [Hm | Hm]; apply In_keys_balanceMap in Hm;
    destruct Hm as [b [Hb [Ho Hmint]]]; exists b; tauto.
Qed.

Lemma token_changes_one_per_owned_mint_witness :
  extractTokenChanges [Examples.bal Examples.mintA 7] [Examples.bal Examples.mintA 9]
                      [KeyObject Examples.wallet; KeyString Examples.other]
                      Examples.wallet = [].
Proof.
  apply (token_changes_one_per_owned_mint
           [Examples.bal Examples.mintA 7] [Examples.bal Examples.mintA 9]
           [KeyObject Examples.wallet; KeyString Examples.other] Examples.wallet).
  reflexivity.
Defined.

(** *** Prices that cannot be looked up *)

(** When the price service has no answer for any mint, the classifier still
    builds its events, and reports the value as unknown and no price info. *)
Theorem no_price_means_unknown_value
  (prices : PriceOracle) (tx : option RawTransaction) (a : Address) (ev : ParsedData) :
  (forall mint, prices mint = None) ->
  parseTransaction prices tx a = Some ev ->
  value ev = None /\ tokenInfo ev = None /\
  (forall leg, inputToken ev = Some leg \/ outputToken ev = Some leg ->
               leg_usdValue leg = None).
Proof.
  intros Hno. unfold parseTransaction.
  destruct tx as [t |]; [| discriminate].
  destruct (tx_meta t) as [meta |] eqn:Hm; [| discriminate].
  destruct (tx_transaction t) as [body |] eqn:Hb; [| discriminate].
  destruct (negb _); [discriminate |].
  assert (Husd : forall amount mint, calculateUSDValue prices amount mint = None).
  { intros amount mint. unfold calculateUSDValue. now rewrite Hno. }
  assert (Hbrief : forall mint, briefOf (TokenService.getTokenInfo prices mint) = None).
  { intros mint. unfold briefOf, TokenService.getTokenInfo. cbn. now rewrite Hno. }
  destruct (determineTransactionType _).
  - unfold parseSwapTransaction. rewrite Hb, Hm.
    destruct (_ <? 2)%nat; [discriminate |].
    rewrite find_negative_pairs, find_positive_pairs.
    destruct (find _ _) as [inC |]; cbn [option_map]; [| discriminate].
    destruct (find _ _) as [outC |]; cbn [option_map]; [| discriminate].
    intros [= <-]. cbn. rewrite !Husd, Hbrief. cbn.
    repeat split. intros leg [[= <-] | [= <-]]; reflexivity.
  - unfold parseTransferTransaction. rewrite Hb, Hm.
    destruct (negb _).
    + intros [= <-]. cbn. rewrite Husd. cbn.
      repeat split. intros leg [H | H]; discriminate.
    + destruct (extractTokenChanges _ _ _ _) as [| c rest]; [discriminate |].
      intros [= <-]. cbn. rewrite Husd, Hbrief. cbn.
      repeat split. intros leg [H | H]; discriminate.
  - unfold parseUnknownTransaction. intros [= <-]. cbn.
    repeat split. intros leg [H | H]; discriminate.
  - unfold parseDeFiTransaction. rewrite Hb. intros [= <-]. cbn.
    repeat split. intros leg [H | H]; discriminate.
  - unfold parseUnknownTransaction. intros [= <-]. cbn.
    repeat split. intros leg [H | H]; discriminate.
Qed.

Lemma no_price_means_unknown_value_witness :
  exists ev,
    parseTransaction Examples.noPrices (Some Examples.swapTx) Examples.wallet = Some ev /\
    value ev = None /\ tokenInfo ev = None.
Proof.
  destruct (parseTransaction Examples.noPrices (Some Examples.swapTx) Examples.wallet)
    as [ev |] eqn:E; [| vm_compute in E; discriminate].
  exists ev. split; [reflexivity |].
  destruct (no_price_means_unknown_value Examples.noPrices (Some Examples.swapTx)
              Examples.wallet ev (fun _ => eq_refl) E) as [Hv [Hi _]].
  split; [exact Hv | exact Hi].
Defined.

(** *** Sign of the native delta *)

Lemma round53_sgn (z : Z) : Z.sgn (JSNumber.round53 z) = Z.sgn z.
Proof.
  unfold JSNumber.round53.
  destruct (Z.abs z <? 2 ^ 53) eqn:E; [reflexivity |].
  apply Z.ltb_ge in E.
  assert (Hpos : 0 < Z.abs z).
  { change (2 ^ 53) with 9007199254740992 in E. lia. }
  assert (Hlog : 53 <= Z.log2 (Z.abs z)) by (apply Z.log2_le_pow2; [exact Hpos | exact E]).
  set (e := Z.log2 (Z.abs z) - 52).
  assert (He : 0 < e) by (unfold e; lia).
  assert (H2e : 0 < 2 ^ e) by (apply Z.pow_pos_nonneg; lia).
  assert (Hq : 1 <= Z.abs z / 2 ^ e).
  { apply Z.div_le_lower_bound; [exact H2e |].
    rewrite Z.mul_1_r.
    transitivity (2 ^ Z.log2 (Z.abs z)).
    - apply Z.pow_le_mono_r; unfold e; lia.
    - apply Z.log2_spec. exact Hpos. }
  set (q := Z.abs z / 2 ^ e) in *.
  assert (Hq' : 0 < (if Z.abs z mod 2 ^ e <? 2 ^ (e - 1) then q
                     else if 2 ^ (e - 1) <? Z.abs z mod 2 ^ e then q + 1
                     else if Z.even q then q else q + 1)).
  { destruct (_ <? _); [lia |]. destruct (_ <? _); [lia |]. destruct (Z.even q); lia. }
  rewrite Z.sgn_mul, Z.sgn_mul.
  rewrite (Z.sgn_pos _ Hq'), (Z.sgn_pos _ H2e).
  destruct z; cbn; reflexivity.
Qed.

(** The subtraction of [calculateSOLChange] rounds no difference away: of
    the two numbers it reads at the index of the address, the delta it
    returns has the sign of their exact difference, and is zero only when
    they are equal.  This is a fact of the function on the numbers it is
    given; what a balance above 2^53 lamports lost when the response was
    parsed is lost before the function runs. *)
Theorem native_delta_has_the_right_sign
  (accounts : list AccountKey) (pre post : list Z) (a : Address) (i : nat) :
  findIndex (fun account => strictEq account a) accounts = Some i ->
  Z.sgn (calculateSOLChange accounts pre post a) = Z.sgn (nth i post 0 - nth i pre 0).
Proof.
  intros Hi. unfold calculateSOLChange. rewrite Hi. apply round53_sgn.
Qed.

Lemma native_delta_has_the_right_sign_witness :
  Z.sgn (calculateSOLChange [KeyString Examples.other; KeyString Examples.wallet]
                            [0; 9007199254740994] [0; 9007199254740992]
                            Examples.wallet)
  = Z.sgn (nth 1 [0; 9007199254740992] 0 - nth 1 [0; 9007199254740994] 0).
Proof.
  apply (native_delta_has_the_right_sign
           [KeyString Examples.other; KeyString Examples.wallet]
           [0; 9007199254740994] [0; 9007199254740992] Examples.wallet 1).
  vm_compute. reflexivity.
Defined.

(* ------------------------------------------------------------------ *)
(** ** The dedup ledger file *)

Lemma markSigs_length (s : Signature) (l : list Signature) :
  (List.length (markSigs s l) <= 1000)%nat \/
  (markSigs s l = l /\ (List.length l <= 1000)%nat).
Proof.
  unfold markSigs. destruct (1000 <? _)%nat eqn:E.
  - left. apply Nat.ltb_lt in E. rewrite length_skipn. lia.
  - left. apply Nat.ltb_ge in E. exact E.
Qed.

Lemma NoDup_skipn {A} (n : nat) (l : list A) : NoDup l -> NoDup (skipn n l).
Proof.
  intros H. rewrite <- (firstn_skipn n l) in H. now apply NoDup_app_remove_l in H.
Qed.

Lemma markSigs_NoDup (s : Signature) (l : list Signature) :
  NoDup l -> NoDup (markSigs s l).
Proof.
  intros Hnd. unfold markSigs.
  assert (H1 : NoDup (if processed s l then l else (l ++ [s])%list)).
  { destruct (processed s l) eqn:E; [exact Hnd |].
    apply NoDup_app; [exact Hnd | repeat constructor; intros [] |].
    intros x Hx [<- | []]. apply processed_false_not_In in E. contradiction. }
  destruct (1000 <? _)%nat; [now apply NoDup_skipn | exact H1].
Qed.

Lemma ledger_stays_bounded_and_unique_lemma
  (now : Z) (s : Signature) (ty : option string) (a : Address) (p : string)
  (files : Files) :
  (List.length (transactions
                  (StorageService.addProcessedTransaction now s ty a p files)) <= 1000)%nat
  /\ (NoDup (ledger files) ->
      NoDup (ledger (StorageService.addProcessedTransaction now s ty a p files)))
  /\ addresses (StorageService.addProcessedTransaction now s ty a p files)
     = addresses files.
Proof.
  split; [| split; [| reflexivity]].
  - rewrite <- (length_map pe_signature). fold (ledger
      (StorageService.addProcessedTransaction now s ty a p files)).
    rewrite ledger_addProcessedTransaction.
    destruct (markSigs_length s (ledger files)) as [H | [-> H]]; exact H.
  - rewrite ledger_addProcessedTransaction. apply markSigs_NoDup.
Qed.

(** [addProcessedTransaction] always leaves at most 1000 entries in the
    ledger, whatever its size was, keeps its signatures free of repetition,
    and does not touch the address registry. *)
Theorem ledger_stays_bounded_and_unique
  (now : Z) (s : Signature) (ty : option string) (a : Address) (p : string)
  (files : Files) :
  let files' := StorageService.addProcessedTransaction now s ty a p files in
  (List.length (transactions files') <= 1000)%nat
  /\ (NoDup (ledger files) -> NoDup (ledger files'))
  /\ addresses files' = addresses files.
Proof. apply ledger_stays_bounded_and_unique_lemma. Qed.

Lemma ledger_stays_bounded_and_unique_witness :
  NoDup (ledger (StorageService.addProcessedTransaction
                   3 "seen" (Some "SWAP") Examples.wallet "Orca" Examples.seenFiles)).
Proof.
  apply (ledger_stays_bounded_and_unique 3 "seen" (Some "SWAP") Examples.wallet "Orca"
                                         Examples.seenFiles).
  vm_compute. repeat constructor. intros [].
Defined.

Lemma In_skipn_last {A} (n : nat) (l : list A) (x : A) :
  (n <= List.length l)%nat -> In x (skipn n (l ++ [x])).
Proof.
  intros H. rewrite skipn_app. apply in_app_iff. right.
  replace (n - List.length l)%nat with O by lia. now left.
Qed.

(** Insert then look up: in a ledger of at most 1000 entries, a signature
    that has just been marked is reported as processed; and while the ledger
    holds fewer than 1000 entries, marking one signature forgets no other. *)
Theorem marked_signature_is_found
  (now : Z) (s s' : Signature) (ty : option string) (a : Address) (p : string)
  (files : Files) :
  (List.length (transactions files) <= 1000)%nat ->
  let files' := StorageService.addProcessedTransaction now s ty a p files in
  StorageService.isTransactionProcessed s files' = true
  /\ ((List.length (transactions files) < 1000)%nat ->
      StorageService.isTransactionProcessed s' files = true ->
      StorageService.isTransactionProcessed s' files' = true).
Proof.
  intros Hlen. cbn zeta. rewrite !isTransactionProcessed_ledger.
  rewrite ledger_addProcessedTransaction.
  assert (Hl : (List.length (ledger files) <= 1000)%nat)
    by (unfold ledger; now rewrite length_map).
  split.
  - apply processed_In. unfold markSigs.
    destruct (processed s (ledger files)) eqn:E.
    + apply processed_In in E.
      destruct (1000 <? _)%nat eqn:E2; [apply Nat.ltb_lt in E2; lia | exact E].
    + destruct (1000 <? _)%nat eqn:E2.
      * apply In_skipn_last. rewrite length_app. cbn [List.length]. lia.
      * apply in_app_iff. right. now left.
  - intros Hroom Hp.
    apply processed_In. apply processed_In in Hp. unfold markSigs.
    assert (Hl' : (List.length (ledger files) < 1000)%nat)
      by (unfold ledger; now rewrite length_map).
    destruct (processed s (ledger files)).
    + destruct (1000 <? _)%nat eqn:E2; [apply Nat.ltb_lt in E2; lia | exact Hp].
    + destruct (1000 <? _)%nat eqn:E2.
      * apply Nat.ltb_lt in E2. rewrite length_app in E2. cbn [List.length] in E2. lia.
      * apply in_app_iff. now left.
Qed.

Lemma marked_signature_is_found_witness :
  StorageService.isTransactionProcessed
    "fresh"
    (StorageService.addProcessedTransaction 3 "fresh" (Some "SWAP") Examples.wallet
                                            "Orca" Examples.seenFiles) = true
  /\ ((List.length (transactions Examples.seenFiles) < 1000)%nat ->
      StorageService.isTransactionProcessed "seen" Examples.seenFiles = true ->
      StorageService.isTransactionProcessed
        "seen"
        (StorageService.addProcessedTransaction 3 "fresh" (Some "SWAP") Examples.wallet
                                                "Orca" Examples.seenFiles) = true).
Proof.
  apply (marked_signature_is_found 3 "fresh" "seen" (Some "SWAP") Examples.wallet "Orca"
                                   Examples.seenFiles).
  vm_compute. lia.
Defined.

(** Marking a signature that is already in the ledger (of at most 1000
    entries) is an update in place: the order of the signatures and every
    first-processed time stay as they were, and the entry of the signature
    takes the new update time, type, address and platform. *)
Theorem remarking_updates_in_place
  (now : Z) (s : Signature) (ty : option string) (a : Address) (p : string)
  (files : Files) :
  (List.length (transactions files) <= 1000)%nat ->
  StorageService.isTransactionProcessed s files = true ->
  let files' := StorageService.addProcessedTransaction now s ty a p files in
  map pe_signature (transactions files') = map pe_signature (transactions files)
  /\ map pe_processedAt (transactions files') = map pe_processedAt (transactions files)
  /\ exists e, find (fun tx => (pe_signature tx =? s)%string) (transactions files') = Some e
               /\ pe_updatedAt e = now /\ pe_type e = ty /\ pe_address e = a
               /\ pe_platform e = p.
Proof.
  intros Hlen Hp. cbn zeta.
  unfold StorageService.isTransactionProcessed,
    StorageService.getProcessedTransactions in Hp.
  unfold StorageService.addProcessedTransaction. cbn [transactions].
  set (l := transactions files) in *.
  destruct (findIndex (fun tx => (pe_signature tx =? s)%string) l) as [i |] eqn:E;
    [| apply findIndex_none in E; congruence].
  destruct (findIndex_some _ _ _ E) as [old [Hold Hsig]].
  rewrite Hold. apply String.eqb_eq in Hsig.
  set (new := {| pe_signature := s; pe_processedAt := pe_processedAt old;
                 pe_updatedAt := now; pe_type := ty; pe_address := a;
                 pe_platform := p |}).
  assert (Hs : map pe_signature (assign i new l) = map pe_signature l)
    by (apply (map_assign pe_signature i new old l Hold); cbn; congruence).
  assert (Hlen' : List.length (assign i new l) = List.length l).
  { rewrite <- (length_map pe_signature), Hs. apply length_map. }
  rewrite Hlen'.
  destruct (1000 <? List.length l)%nat eqn:E2; [apply Nat.ltb_lt in E2; lia |].
  split; [exact Hs |]. split.
  - apply (map_assign pe_processedAt i new old l Hold). reflexivity.
  - exists new. split; [| now repeat split].
    clear - E Hold. revert i E Hold.
    induction l as [| z l IH]; intros i; cbn [findIndex]; [discriminate |].
    destruct (pe_signature z =? s)%string eqn:Hz.
    + intros [= <-] _. cbn [assign find]. cbn. now rewrite String.eqb_refl.
    + destruct (findIndex _ l) as [j |] eqn:Ej; cbn [option_map]; [| discriminate].
      intros [= <-] Hold. cbn [assign find nth_error] in *. rewrite Hz.
      now apply (IH j).
Qed.

Lemma remarking_updates_in_place_witness :
  map pe_signature
      (transactions (StorageService.addProcessedTransaction
                       9 "seen" (Some "SWAP") Examples.other "Orca" Examples.seenFiles))
  = map pe_signature (transactions Examples.seenFiles)
  /\ map pe_processedAt
         (transactions (StorageService.addProcessedTransaction
                          9 "seen" (Some "SWAP") Examples.other "Orca" Examples.seenFiles))
     = map pe_processedAt (transactions Examples.seenFiles).
Proof.
  destruct (remarking_updates_in_place 9 "seen" (Some "SWAP") Examples.other "Orca"
                                       Examples.seenFiles) as [H1 [H2 _]].
  - vm_compute. lia.
  - vm_compute. reflexivity.
  - split; [exact H1 | exact H2].
Defined.

(* ------------------------------------------------------------------ *)
(** ** The address registry *)

Lemma has_map_address (a : Address) (l : list AddressEntry) :
  JSMap.has a (map ae_address l)
  = existsb (fun addr => (ae_address addr =? a)%string) l.
Proof. unfold JSMap.has. apply existsb_map_compose. Qed.

Lemma addMonitoredAddress_addresses now a label files :
  map ae_address (addresses (StorageService.addMonitoredAddress now a label files))
  = JSMap.add a (map ae_address (addresses files)).
Proof.
  unfold StorageService.addMonitoredAddress, JSMap.add. cbn [addresses].
  rewrite has_map_address.
  destruct (findIndex _ (addresses files)) as [i |] eqn:E.
  - destruct (findIndex_some _ _ _ E) as [old [Hold Ha]].
    apply String.eqb_eq in Ha. rewrite Hold.
    destruct (existsb _ (addresses files)) eqn:Ex;
      [| apply findIndex_none in Ex; congruence].
    apply (map_assign ae_address i _ old _ Hold). cbn. congruence.
  - apply findIndex_none in E. rewrite E. now rewrite map_app.
Qed.

Lemma find_assign_first {A} (p : A -> bool) (i : nat) (x : A) (l : list A) :
  findIndex p l = Some i -> p x = true -> find p (assign i x l) = Some x.
Proof.
  revert i. induction l as [| z l IH]; intros i; cbn [findIndex]; [discriminate |].
  destruct (p z) eqn:Hz.
  - intros [= <-] Hx. cbn [assign find]. now rewrite Hx.
  - destruct (findIndex p l) as [j |] eqn:Ej; cbn [option_map]; [| discriminate].
    intros [= <-] Hx. cbn [assign find]. rewrite Hz. now apply IH.
Qed.

Lemma find_findIndex {A} (p : A -> bool) (l : list A) :
  find p l = match findIndex p l with Some i => nth_error l i | None => None end.
Proof.
  induction l as [| z l IH]; cbn [find findIndex]; [reflexivity |].
  destruct (p z); [reflexivity |]. rewrite IH.
  now destruct (findIndex p l).
Qed.

(** Adding an address to the persisted list is an upsert: the list of
    addresses gains the address at its end only when it was not listed; the
    entry of the address then carries the new label and update time, and
    keeps the time it was first added when it was already listed; the dedup
    ledger is not touched. *)
Theorem addMonitoredAddress_upserts
  (now : Z) (a : Address) (label : string) (files : Files) :
  let files' := StorageService.addMonitoredAddress now a label files in
  let old := find (fun addr => (ae_address addr =? a)%string) (addresses files) in
  map ae_address (addresses files') = JSMap.add a (map ae_address (addresses files))
  /\ find (fun addr => (ae_address addr =? a)%string) (addresses files')
     = Some {| ae_address := a; ae_label := label;
               ae_addedAt := match old with Some e => ae_addedAt e | None => now end;
               ae_updatedAt := now |}
  /\ (NoDup (map ae_address (addresses files)) ->
      NoDup (map ae_address (addresses files')))
  /\ transactions files' = transactions files.
Proof.
  cbn zeta. split; [apply addMonitoredAddress_addresses |].
  split; [| split; [| reflexivity]].
  - rewrite (find_findIndex _ (addresses files)).
    unfold StorageService.addMonitoredAddress. cbn [addresses].
    destruct (findIndex _ (addresses files)) as [i |] eqn:E.
    + destruct (findIndex_some _ _ _ E) as [e [He _]]. rewrite He.
      apply find_assign_first; [exact E | cbn; apply String.eqb_refl].
    + rewrite find_app.
      assert (Hnone : find (fun addr => (ae_address addr =? a)%string) (addresses files)
                      = None).
      { rewrite find_findIndex, E. reflexivity. }
      rewrite Hnone. cbn [find ae_address]. now rewrite String.eqb_refl.
  - rewrite addMonitoredAddress_addresses. apply add_NoDup.
Qed.

Lemma addMonitoredAddress_upserts_witness :
  NoDup (map ae_address
           (addresses (StorageService.addMonitoredAddress
                         4 Examples.wallet "renamed"
                         (StorageService.addMonitoredAddress
                            1 Examples.wallet "main" Examples.emptyFiles)))).
Proof.
  apply (addMonitoredAddress_upserts
           4 Examples.wallet "renamed"
           (StorageService.addMonitoredAddress 1 Examples.wallet "main" Examples.emptyFiles)).
  vm_compute. repeat constructor. intros [].
Defined.

Lemma removeMonitoredAddress_addresses now a files :
  map ae_address (addresses (StorageService.removeMonitoredAddress now a files))
  = filter (fun x => negb (x =? a)%string) (map ae_address (addresses files)).
Proof.
  unfold StorageService.removeMonitoredAddress.
  assert (Hmap : forall l,
    map ae_address (filter (fun addr => negb (ae_address addr =? a)%string) l)
    = filter (fun x => negb (x =? a)%string) (map ae_address l)).
  { induction l as [| e l IH]; cbn [filter map]; [reflexivity |].
    destruct (ae_address e =? a)%string; cbn [negb map]; now rewrite IH. }
  assert (Hsame : forall l : list AddressEntry,
    List.length (filter (fun addr => negb (ae_address addr =? a)%string) l)
    = List.length l ->
    filter (fun addr => negb (ae_address addr =? a)%string) l = l).
  { induction l as [| e l IH]; cbn [filter]; [reflexivity |].
    destruct (negb _).
    - cbn [List.length]. intros H. f_equal. apply IH. lia.
    - cbn [List.length]. intros H.
      pose proof (filter_length_le (fun addr => negb (ae_address addr =? a)%string) l).
      lia. }
  destruct (_ =? _)%nat eqn:E.
  - apply Nat.eqb_eq in E. rewrite <- Hmap. now rewrite (Hsame _ E).
  - cbn [addresses]. apply Hmap.
Qed.

(** Removing an address from the persisted list drops every entry of that
    address and keeps the others in order; when the address is not listed the
    files are left exactly as they were; the dedup ledger is never touched. *)
Theorem removeMonitoredAddress_drops_only_that_address
  (now : Z) (a : Address) (files : Files) :
  let files' := StorageService.removeMonitoredAddress now a files in
  map ae_address (addresses files')
  = filter (fun x => negb (x =? a)%string) (map ae_address (addresses files))
  /\ ~ In a (map ae_address (addresses files'))
  /\ (~ In a (map ae_address (addresses files)) -> files' = files)
  /\ transactions files' = transactions files.
Proof.
  cbn zeta. split; [apply removeMonitoredAddress_addresses |].
  split; [| split].
  - rewrite removeMonitoredAddress_addresses. intros Hin.
    apply filter_In in Hin. destruct Hin as [_ H].
    now rewrite String.eqb_refl in H.
  - intros Hnot. unfold StorageService.removeMonitoredAddress.
    assert (Hsame : filter (fun addr => negb (ae_address addr =? a)%string)
                           (addresses files) = addresses files).
    { induction (addresses files) as [| e l IH]; cbn [filter]; [reflexivity |].
      cbn [map In] in Hnot.
      destruct (String.eqb_spec (ae_address e) a) as [Heq | Hne]; [tauto |].
      cbn [negb]. f_equal. apply IH. tauto. }
    rewrite Hsame. now rewrite Nat.eqb_refl.
  - unfold StorageService.removeMonitoredAddress.
    destruct (_ =? _)%nat; reflexivity.
Qed.

Lemma removeMonitoredAddress_drops_only_that_address_witness :
  StorageService.removeMonitoredAddress 5 Examples.other Examples.seenFiles
  = Examples.seenFiles.
Proof.
  apply (removeMonitoredAddress_drops_only_that_address 5 Examples.other
                                                        Examples.seenFiles).
  vm_compute. tauto.
Defined.

(** Round trip: adding an address that is not listed and then removing it
    gives back the address list as it was. *)
Theorem add_then_remove_restores_the_list
  (now now' : Z) (a : Address) (label : string) (files : Files) :
  ~ In a (map ae_address (addresses files)) ->
  addresses (StorageService.removeMonitoredAddress
               now' a (StorageService.addMonitoredAddress now a label files))
  = addresses files.
Proof.
  intros Hnot.
  unfold StorageService.removeMonitoredAddress, StorageService.addMonitoredAddress.
  cbn [addresses].
  assert (Hnone : findIndex (fun addr => (ae_address addr =? a)%string) (addresses files)
                  = None).
  { apply findIndex_none. rewrite <- has_map_address.
    destruct (JSMap.has a (map ae_address (addresses files))) eqn:E; [| reflexivity].
    apply has_true_In in E. contradiction. }
  rewrite Hnone.
  assert (Hsame : filter (fun addr => negb (ae_address addr =? a)%string)
                         (addresses files) = addresses files).
  { induction (addresses files) as [| e l IH]; cbn [filter]; [reflexivity |].
    cbn [map In] in Hnot.
    destruct (String.eqb_spec (ae_address e) a) as [Heq | Hne]; [tauto |].
    cbn [negb]. f_equal. apply IH; [tauto |].
    cbn [findIndex] in Hnone. apply String.eqb_neq in Hne. rewrite Hne in Hnone.
    now destruct (findIndex _ l). }
  rewrite filter_app, Hsame. cbn [filter ae_address].
  rewrite String.eqb_refl. cbn [negb]. rewrite app_nil_r.
  destruct (_ =? _)%nat eqn:E; [| reflexivity].
  apply Nat.eqb_eq in E. rewrite length_app in E. cbn [List.length] in E. lia.
Qed.

Lemma add_then_remove_restores_the_list_witness :
  addresses (StorageService.removeMonitoredAddress
               8 Examples.other
               (StorageService.addMonitoredAddress 7 Examples.other "cold" Examples.seenFiles))
  = addresses Examples.seenFiles.
Proof.
  apply (add_then_remove_restores_the_list 7 8 Examples.other "cold" Examples.seenFiles).
  vm_compute. tauto.
Defined.

(* ------------------------------------------------------------------ *)
(** ** The monitored set and the registry stay in step *)

(** [addAddress] and [removeAddress] keep the in-memory set and the
    persisted address list in step: when they name the same addresses in the
    same order before the call, they do so after it, whether the call
    succeeds or throws. *)
Theorem add_and_remove_keep_registry_in_sync
  (env : Env) (a : Address) (label : string) (m : Monitor) :
  inSync m ->
  inSync (snd (fst (addAddress env a label m))) /\
  inSync (snd (fst (removeAddress env a m))).
Proof.
  unfold inSync. intros H. split.
  - unfold addAddress. destruct (PublicKey.new a); [| exact H].
    cbn [fst snd monitoredAddresses files].
    now rewrite addMonitoredAddress_addresses, H.
  - unfold removeAddress. cbn [fst snd monitoredAddresses files].
    now rewrite removeMonitoredAddress_addresses, H.
Qed.

Lemma add_and_remove_keep_registry_in_sync_witness :
  inSync (snd (fst (addAddress Examples.quietEnv Examples.other "cold"
                               {| monitoredAddresses := []; wsOpen := true;
                                  files := Examples.emptyFiles |})))
  /\ inSync (snd (fst (removeAddress Examples.quietEnv Examples.other
                                     {| monitoredAddresses := []; wsOpen := true;
                                        files := Examples.emptyFiles |}))).
Proof.
  apply (add_and_remove_keep_registry_in_sync Examples.quietEnv Examples.other "cold"
           {| monitoredAddresses := []; wsOpen := true; files := Examples.emptyFiles |}).
  reflexivity.
Defined.

Lemma Set_of_NoDup_id (l : list string) : NoDup l -> JSMap.Set_of l = l.
Proof.
  unfold JSMap.Set_of.
  assert (G : forall acc, NoDup (acc ++ l) ->
                          fold_left (fun s k => JSMap.add k s) l acc = (acc ++ l)%list).
  { induction l as [| k rest IH]; intros acc Hnd; cbn [fold_left];
      [now rewrite app_nil_r |].
    assert (Hk : JSMap.has k acc = false).
    { destruct (JSMap.has k acc) eqn:E; [| reflexivity].
      apply has_true_In in E. apply NoDup_remove_2 in Hnd.
      exfalso. apply Hnd. apply in_app_iff. now left. }
    unfold JSMap.add at 2. rewrite Hk.
    rewrite IH; rewrite <- app_assoc; [reflexivity | exact Hnd]. }
  intros Hnd. now apply (G []).
Qed.

(** Loading puts in the monitored set exactly the addresses of the persisted
    list, each once; when the persisted list has no repeated address the set
    lists them in the same order. *)
Theorem loadMonitoredAddresses_mirrors_the_file (m : Monitor) :
  let m' := loadMonitoredAddresses m in
  NoDup (monitoredAddresses m')
  /\ (forall a, In a (monitoredAddresses m')
                <-> In a (map ae_address (addresses (files m))))
  /\ (NoDup (map ae_address (addresses (files m))) -> inSync m')
  /\ files m' = files m.
Proof.
  cbn zeta. unfold loadMonitoredAddresses, inSync, StorageService.getMonitoredAddresses.
  cbn [monitoredAddresses files].
  destruct (Set_of_spec (map ae_address (addresses (files m)))) as [H1 H2].
  repeat split; try exact H1; try apply H2.
  intros Hnd. now apply Set_of_NoDup_id.
Qed.

Lemma loadMonitoredAddresses_mirrors_the_file_witness :
  inSync (loadMonitoredAddresses
            {| monitoredAddresses := [Examples.other]; wsOpen := false;
               files := StorageService.addMonitoredAddress
                          1 Examples.wallet "main" Examples.emptyFiles |}).
Proof.
  apply (loadMonitoredAddresses_mirrors_the_file
           {| monitoredAddresses := [Examples.other]; wsOpen := false;
              files := StorageService.addMonitoredAddress
                         1 Examples.wallet "main" Examples.emptyFiles |}).
  vm_compute. repeat constructor. intros [].
Defined.

(** A valid address is added to the set and to the persisted list, and a
    subscription request is sent exactly when the socket is open.  Adding an
    address that is already monitored leaves the set as it is, and still
    sends a new subscription request on an open socket. *)
Theorem addAddress_of_a_valid_address
  (env : Env) (a : Address) (label : string) (m : Monitor) :
  PublicKey.new a = Normal tt ->
  let r := addAddress env a label m in
  fst (fst r) = Normal tt
  /\ In a (monitoredAddresses (snd (fst r)))
  /\ In a (map ae_address (addresses (files (snd (fst r)))))
  /\ snd r = (if wsOpen m then [Send a] else [])
  /\ (In a (monitoredAddresses m) ->
      monitoredAddresses (snd (fst r)) = monitoredAddresses m)
  /\ transactions (files (snd (fst r))) = transactions (files m).
Proof.
  intros Hkey. cbn zeta. unfold addAddress. rewrite Hkey.
  cbn [fst snd monitoredAddresses files].
  repeat split.
  - apply In_add. now right.
  - rewrite addMonitoredAddress_addresses. apply In_add. now right.
  - intros Hin. unfold JSMap.add. apply has_true_In in Hin. now rewrite Hin.
Qed.

Lemma addAddress_of_a_valid_address_witness :
  snd (addAddress Examples.quietEnv Examples.wallet "again" Examples.walletMonitor)
  = [Send Examples.wallet]
  /\ monitoredAddresses
       (snd (fst (addAddress Examples.quietEnv Examples.wallet "again"
                             Examples.walletMonitor)))
     = monitoredAddresses Examples.walletMonitor.
Proof.
  destruct (addAddress_of_a_valid_address Examples.quietEnv Examples.wallet "again"
                                          Examples.walletMonitor)
    as [_ [_ [_ [Hs [Hset _]]]]].
  - vm_compute. reflexivity.
  - split; [exact Hs |]. apply Hset. now left.
Defined.

(* ------------------------------------------------------------------ *)
(** ** What every handler run keeps *)

Section HandlerRuns.

(** A relation between the files before a handler, and the files and
    effects after it, that holds of [processTransaction] under environments
    that are [Good], of steps that do no work on a transaction, and of
    sequences. *)
Variable Good : Env -> Prop.
Variable R : Files -> Files * list Effect -> Prop.

Hypothesis R_process :
  forall env sg a files, Good env -> R files (processTransaction env sg a files).
Hypothesis R_quiet : forall files effects, quiet effects -> R files (files, effects).
Hypothesis R_seq :
  forall files files1 e1 files2 e2,
    R files (files1, e1) -> R files1 (files2, e2) -> R files (files2, (e1 ++ e2)%list).

Lemma quiet_nil : quiet [].
Proof. unfold quiet. cbn. tauto. Qed.

Lemma lift_pollLoop env a sigs :
  Good env -> forall files, R files (pollLoop env a sigs files).
Proof.
  intros Hg. induction sigs as [| h rest IH]; intros files; cbn [pollLoop].
  - apply R_quiet, quiet_nil.
  - destruct (StorageService.isTransactionProcessed _ _); [apply IH |].
    pose proof (R_process env (si_signature h) a files Hg) as H1.
    destruct (processTransaction env (si_signature h) a files) as [files1 e1].
    pose proof (IH files1) as H2.
    destruct (pollLoop env a rest files1) as [files2 e2].
    now apply (R_seq files files1).
Qed.

Lemma lift_pollRecentTransactions env a files :
  Good env -> R files (pollRecentTransactions env a files).
Proof.
  intros Hg. unfold pollRecentTransactions.
  destruct (PublicKey.new a);
    [| apply R_quiet; unfold quiet; cbn; tauto].
  destruct (getSignaturesForAddress env a 10) as [sigs |];
    [| apply R_quiet; unfold quiet; cbn; tauto].
  pose proof (lift_pollLoop env a sigs Hg files) as H.
  destruct (pollLoop env a sigs files) as [files1 e1].
  change (GetSignatures a :: e1) with ([GetSignatures a] ++ e1)%list.
  apply (R_seq files files); [| exact H].
  apply R_quiet. unfold quiet. cbn. tauto.
Qed.

Lemma lift_pollEach env addrs :
  Good env -> forall files, R files (pollEach env addrs files).
Proof.
  intros Hg. induction addrs as [| a rest IH]; intros files; cbn [pollEach].
  - apply R_quiet, quiet_nil.
  - pose proof (lift_pollRecentTransactions env a files Hg) as H1.
    destruct (pollRecentTransactions env a files) as [files1 e1].
    pose proof (IH files1) as H2.
    destruct (pollEach env rest files1) as [files2 e2].
    now apply (R_seq files files1).
Qed.

Lemma lift_step env ev m :
  Good env ->
  R (files m) (files (fst (step env ev m)), snd (step env ev m)) /\
  monitoredAddresses (fst (step env ev m)) = monitoredAddresses m /\
  wsOpen (fst (step env ev m)) = wsOpen m.
Proof.
  intros Hg.
  destruct ev as [| [params | params |]]; cbn [step handleWebSocketMessage].
  - unfold tick.
    pose proof (lift_pollEach env (monitoredAddresses m) Hg (files m)) as H.
    destruct (pollEach env (monitoredAddresses m) (files m)) as [files1 e1].
    cbn [fst snd files monitoredAddresses wsOpen]. now repeat split.
  - unfold handleAccountNotification.
    destruct (JSMap.has (an_owner params) (monitoredAddresses m)).
    + pose proof (lift_pollRecentTransactions env (an_owner params) (files m) Hg) as H.
      destruct (pollRecentTransactions env (an_owner params) (files m)) as [files1 e1].
      cbn [fst snd files monitoredAddresses wsOpen]. now repeat split.
    + cbn [fst snd]. repeat split. apply R_quiet, quiet_nil.
  - unfold handleLogsNotification.
    match goal with
    | |- context [find ?p ?addrs] => destruct (find p addrs) as [a |]
    end.
    + pose proof (R_process env (ln_signature params) a (files m) Hg) as H.
      destruct (processTransaction env (ln_signature params) a (files m))
        as [files1 e1].
      cbn [fst snd files monitoredAddresses wsOpen]. now repeat split.
    + cbn [fst snd]. repeat split. apply R_quiet, quiet_nil.
  - cbn [fst snd]. repeat split. apply R_quiet, quiet_nil.
Qed.

Lemma lift_run events :
  (forall env ev, In (env, ev) events -> Good env) ->
  forall m,
    R (files m) (files (fst (run events m)), snd (run events m)) /\
    monitoredAddresses (fst (run events m)) = monitoredAddresses m /\
    wsOpen (fst (run events m)) = wsOpen m.
Proof.
  induction events as [| [env ev] rest IH]; intros Hg m; cbn [run].
  - cbn [fst snd]. repeat split. apply R_quiet, quiet_nil.
  - destruct (lift_step env ev m (Hg env ev (or_introl eq_refl))) as [H1 [Hm1 Hw1]].
    destruct (step env ev m) as [m1 e1]. cbn [fst snd] in *.
    destruct (IH (fun env0 ev0 Hin => Hg env0 ev0 (or_intror Hin)) m1) as [H2 [Hm2 Hw2]].
    destruct (run rest m1) as [m2 e2]. cbn [fst snd] in *.
    split; [now apply (R_seq (files m) (files m1)) |].
    split; congruence.
Qed.

End HandlerRuns.

Lemma orderly_app e1 e2 : orderly e1 -> orderly e2 -> orderly (e1 ++ e2).
Proof.
  unfold orderly. rewrite emitted_app, marked_app, classified_app, fetched_app.
  intros (H1 & H2 & H3) (H4 & H5 & H6).
  split; [congruence |]. split; apply incl_app; auto using incl_appl, incl_appr.
Qed.

Lemma quiet_orderly e : quiet e -> orderly e.
Proof.
  unfold quiet, orderly. intros (H1 & H2 & H3 & H4). rewrite H1, H2, H3, H4.
  repeat split; apply incl_refl.
Qed.

Lemma processTransaction_orderly env sg a files :
  orderly (snd (processTransaction env sg a files)).
Proof.
  unfold processTransaction, orderly.
  destruct (getTransaction env sg) as [[tx |] |].
  - destruct (parseTransaction _ _ _); cbn; repeat split;
      try apply incl_refl; try apply incl_nil_l.
  - cbn. repeat split; try apply incl_refl; apply incl_nil_l.
  - cbn. repeat split; try apply incl_refl; apply incl_nil_l.
Qed.

Lemma run_orderly (events : list (Env * Event)) (m : Monitor) :
  orderly (snd (run events m))
  /\ monitoredAddresses (fst (run events m)) = monitoredAddresses m
  /\ wsOpen (fst (run events m)) = wsOpen m.
Proof.
  destruct (lift_run (fun _ => True) (fun _ r => orderly (snd r))) with
    (events := events) (m := m) as [H [Hm Hw]].
  - intros env sg a files _. apply processTransaction_orderly.
  - intros files effects Hq. now apply quiet_orderly.
  - intros files files1 e1 files2 e2. cbn [snd]. apply orderly_app.
  - intros env ev _. exact I.
  - cbn [snd] in H. split; [exact H | split; assumption].
Qed.

(** In the runs of this model, where a handler ends before the next one
    starts and the write of the ledger succeeds, what is marked is what was
    emitted. *)
Lemma run_emitted_marked (events : list (Env * Event)) (m : Monitor) :
  emitted (snd (run events m)) = marked (snd (run events m)).
Proof. now destruct (run_orderly events m) as [(H & _ & _) _]. Qed.

Lemma ledgerKept_refl files : ledgerKept files files.
Proof. unfold ledgerKept. tauto. Qed.

Lemma ledgerKept_trans f1 f2 f3 : ledgerKept f1 f2 -> ledgerKept f2 f3 -> ledgerKept f1 f3.
Proof.
  unfold ledgerKept. intros (A1 & B1 & C1 & D1) (A2 & B2 & C2 & D2).
  repeat split; try congruence; auto.
Qed.

Lemma processTransaction_ledgerKept env sg a files :
  ledgerKept files (fst (processTransaction env sg a files)).
Proof.
  unfold processTransaction.
  destruct (getTransaction env sg) as [[tx |] |]; try apply ledgerKept_refl.
  destruct (parseTransaction _ _ _) as [ev |]; [| apply ledgerKept_refl].
  cbn [fst]. unfold ledgerKept.
  destruct (ledger_stays_bounded_and_unique_lemma (now env) sg (type ev) a (platform ev) files)
    as (H1 & H2 & H3).
  repeat split; auto.
Qed.

(** No run of timer ticks and push messages touches the address registry,
    and none breaks the ledger: a ledger of at most 1000 entries stays so,
    and signatures that are free of repetition stay so. *)
Theorem runs_keep_registry_and_ledger_shape
  (events : list (Env * Event)) (m : Monitor) :
  let files' := files (fst (run events m)) in
  addresses files' = addresses (files m)
  /\ addresses_lastUpdated files' = addresses_lastUpdated (files m)
  /\ ((List.length (transactions (files m)) <= 1000)%nat ->
      (List.length (transactions files') <= 1000)%nat)
  /\ (NoDup (ledger (files m)) -> NoDup (ledger files')).
Proof.
  cbn zeta.
  destruct (lift_run (fun _ => True) (fun before r => ledgerKept before (fst r))) with
    (events := events) (m := m) as [H _].
  - intros env sg a files0 _. apply processTransaction_ledgerKept.
  - intros files0 effects _. apply ledgerKept_refl.
  - intros files0 files1 e1 files2 e2. cbn [fst]. apply ledgerKept_trans.
  - intros env ev _. exact I.
  - exact H.
Qed.

Lemma runs_keep_registry_and_ledger_shape_witness :
  (List.length (transactions
                  (files (fst (run (Examples.busyRun 3) Examples.twoWallets)))) <= 1000)%nat.
Proof.
  apply (runs_keep_registry_and_ledger_shape (Examples.busyRun 3) Examples.twoWallets).
  vm_compute. lia.
Defined.

Lemma processTransaction_no_transaction env sg a files :
  returnsNoTransaction env ->
  fst (processTransaction env sg a files) = files /\
  emitted (snd (processTransaction env sg a files)) = [] /\
  classified (snd (processTransaction env sg a files)) = [].
Proof.
  intros Hno. specialize (Hno sg). unfold answersTransaction in Hno.
  unfold processTransaction.
  destruct (getTransaction env sg) as [[tx |] |]; [discriminate | |]; now repeat split.
Qed.

(** Transport failures leave no trace in the state: while the chain returns
    no transaction (it is unavailable, or answers null), no run of timer
    ticks and push messages changes the files, classifies anything or emits
    an event; the signatures are simply tried again at the next poll. *)
Theorem failed_fetches_change_nothing
  (events : list (Env * Event)) (m : Monitor) :
  (forall env ev, In (env, ev) events -> returnsNoTransaction env) ->
  let r := run events m in
  fst r = m /\ emitted (snd r) = [] /\ classified (snd r) = [] /\ marked (snd r) = [].
Proof.
  intros Hno. cbn zeta.
  destruct (lift_run returnsNoTransaction
              (fun before r => fst r = before /\ emitted (snd r) = [] /\
                               classified (snd r) = [])) with
    (events := events) (m := m) as [(H1 & H2 & H3) [Hm Hw]].
  - intros env sg a files0 Hg. now apply processTransaction_no_transaction.
  - intros files0 effects (_ & Hc & He & _). cbn [fst snd]. now repeat split.
  - intros files0 files1 e1 files2 e2. cbn [fst snd].
    intros (-> & E1 & C1) (-> & E2 & C2).
    rewrite emitted_app, classified_app, E1, E2, C1, C2. now repeat split.
  - exact Hno.
  - cbn [fst snd] in *.
    pose proof (run_emitted_marked events m) as Hmk.
    split.
    + destruct (fst (run events m)) as [ma ws fs]. cbn in *. destruct m. cbn in *.
      congruence.
    + repeat split; try assumption. rewrite <- Hmk. exact H2.
Qed.

Lemma failed_fetches_change_nothing_witness :
  fst (run [(Samples.downEnv, TimerFired);
            (Samples.downEnv, MessageReceived (logsNotification Examples.seenLogs))]
           Examples.seenMonitor) = Examples.seenMonitor.
Proof.
  apply (failed_fetches_change_nothing
           [(Samples.downEnv, TimerFired);
            (Samples.downEnv, MessageReceived (logsNotification Examples.seenLogs))]
           Examples.seenMonitor).
  intros env ev [H | [H | []]]; injection H as <- _; intros s; reflexivity.
Defined.

(* ------------------------------------------------------------------ *)
(** ** One firing of the timer *)

Lemma pollRecentTransactions_polled_exactly env a files :
  polled (snd (pollRecentTransactions env a files)) = if validKey a then [a] else [].
Proof.
  unfold pollRecentTransactions, validKey.
  destruct (PublicKey.new a); [| reflexivity].
  destruct (getSignaturesForAddress env a 10) as [sigs |]; [| reflexivity].
  pose proof (pollLoop_polled env a sigs files) as Hp.
  destruct (pollLoop env a sigs files) as [files1 e1]. cbn [snd] in *.
  change (polled (GetSignatures a :: e1)) with (a :: polled e1). now rewrite Hp.
Qed.

Lemma pollLoop_fetched_length env a sigs :
  forall files,
    (List.length (fetched (snd (pollLoop env a sigs files))) <= List.length sigs)%nat.
Proof.
  induction sigs as [| h rest IH]; intros files; cbn [pollLoop]; [cbn; lia |].
  destruct (StorageService.isTransactionProcessed _ _).
  - specialize (IH files). cbn [List.length]. lia.
  - pose proof (processTransaction_fetched env (si_signature h) a files) as [Hf _].
    destruct (processTransaction env (si_signature h) a files) as [files1 e1].
    specialize (IH files1).
    destruct (pollLoop env a rest files1) as [files2 e2]. cbn [fst snd] in *.
    rewrite fetched_app, length_app, Hf. cbn [List.length]. lia.
Qed.

Lemma pollRecentTransactions_fetched_length env a files :
  (List.length (fetched (snd (pollRecentTransactions env a files))) <= 10)%nat.
Proof.
  unfold pollRecentTransactions, getSignaturesForAddress.
  destruct (PublicKey.new a); [| cbn; lia].
  destruct (history env a) as [l |]; [| cbn; lia].
  pose proof (pollLoop_fetched_length env a (firstn 10 l) files) as H.
  destruct (pollLoop env a (firstn 10 l) files) as [files1 e1]. cbn [snd] in *.
  change (fetched (GetSignatures a :: e1)) with (fetched e1).
  pose proof (firstn_le_length 10 l). lia.
Qed.

(** One firing of the timer asks the chain for the signatures of every
    monitored address that is a valid public key, in the order of the set,
    whatever fails for the other addresses (an invalid key, an unavailable
    chain, a transaction that cannot be fetched); and it fetches at most ten
    transactions per monitored address. *)
Theorem tick_polls_every_valid_address (env : Env) (m : Monitor) :
  polled (snd (tick env m)) = filter validKey (monitoredAddresses m)
  /\ (List.length (fetched (snd (tick env m)))
      <= 10 * List.length (monitoredAddresses m))%nat.
Proof.
  unfold tick.
  assert (G : forall addrs files,
    polled (snd (pollEach env addrs files)) = filter validKey addrs /\
    (List.length (fetched (snd (pollEach env addrs files)))
     <= 10 * List.length addrs)%nat).
  { induction addrs as [| a rest IH]; intros files; cbn [pollEach filter];
      [cbn; split; [reflexivity | lia] |].
    pose proof (pollRecentTransactions_polled_exactly env a files) as Hp.
    pose proof (pollRecentTransactions_fetched_length env a files) as Hl.
    destruct (pollRecentTransactions env a files) as [files1 e1].
    destruct (IH files1) as [IH1 IH2].
    destruct (pollEach env rest files1) as [files2 e2]. cbn [fst snd] in *.
    rewrite polled_app, fetched_app, length_app, Hp, IH1. cbn [List.length].
    split; [now destruct (validKey a) | lia]. }
  destruct (G (monitoredAddresses m) (files m)) as [H1 H2].
  destruct (pollEach env (monitoredAddresses m) (files m)) as [files1 e1].
  cbn [fst snd] in *. now split.
Qed.

(* ------------------------------------------------------------------ *)
(** ** Log notifications *)

(** A log notification works on its own signature only, for at most one
    monitored address: the first of the set that some log line contains.
    When no log line contains a monitored address nothing is fetched and the
    monitor is left as it was. *)
Theorem logs_notification_handles_one_signature
  (env : Env) (params : LogsNotification) (m : Monitor) :
  let r := handleLogsNotification env params m in
  let named := fun address =>
    existsb (fun log => stringIncludes log address) (ln_logs params) in
  (fetched (snd r) = [] \/ fetched (snd r) = [ln_signature params])
  /\ (forall s, touches s (snd r) -> s = ln_signature params)
  /\ (forall a, In (Classify (ln_signature params) a) (snd r) ->
                find named (monitoredAddresses m) = Some a)
  /\ (existsb named (monitoredAddresses m) = false -> r = (m, []))
  /\ polled (snd r) = [].
Proof.
  cbn zeta. unfold handleLogsNotification.
  destruct (find (fun address =>
                    existsb (fun log => stringIncludes log address) (ln_logs params))
                 (monitoredAddresses m)) as [a |] eqn:Hfind.
  - pose proof (processTransaction_fetched env (ln_signature params) a (files m))
      as [Hf _].
    pose proof (processTransaction_touches env (ln_signature params) a (files m)) as Ht.
    pose proof (processTransaction_polled env (ln_signature params) a (files m)) as Hp.
    assert (Hc : forall a0, In (Classify (ln_signature params) a0)
                               (snd (processTransaction env (ln_signature params) a
                                                        (files m))) -> a0 = a).
    { unfold processTransaction. intros a0.
      destruct (getTransaction env (ln_signature params)) as [[tx |] |].
      - destruct (parseTransaction _ _ _); cbn [snd In];
          intros H; repeat (destruct H as [H | H]; try discriminate);
          try (now injection H); destruct H.
      - cbn [snd In]. intros [H | []]. discriminate.
      - cbn [snd In]. intros [H | [H | []]]; discriminate. }
    destruct (processTransaction env (ln_signature params) a (files m)) as [files1 e1].
    cbn [fst snd] in *.
    split; [now right |]. split; [exact Ht |]. split.
    + intros a0 H. now rewrite (Hc a0 H).
    + split; [| exact Hp]. intros Hex. apply find_some_existsb in Hfind. congruence.
  - cbn [snd]. split; [now left |]. split; [intros s H; now apply touches_nil in H |].
    split; [intros a [] |]. now split.
Qed.

Lemma logs_notification_handles_one_signature_witness :
  handleLogsNotification Examples.seenEnv Samples.strangerLogs Examples.seenMonitor
  = (Examples.seenMonitor, []).
Proof.
  apply (logs_notification_handles_one_signature
           Examples.seenEnv Samples.strangerLogs Examples.seenMonitor).
  vm_compute. reflexivity.
Defined.

(* ------------------------------------------------------------------ *)
(** ** Display helpers *)

Lemma length_take (n : nat) (s : string) :
  String.length (Formatters.take n s) = Nat.min n (String.length s).
Proof.
  revert s; induction n as [|n IH]; intros [|c s];
    cbn [Formatters.take String.length]; try reflexivity.
  now rewrite IH.
Qed.

Lemma length_drop (n : nat) (s : string) :
  String.length (Formatters.drop n s) = (String.length s - n)%nat.
Proof.
  revert s; induction n as [|n IH]; intros [|c s];
    cbn [Formatters.drop String.length]; try reflexivity.
  now rewrite IH.
Qed.

Lemma length_append (s t : string) :
  String.length (s ++ t) = (String.length s + String.length t)%nat.
Proof.
  induction s as [|c s IH]; cbn [append String.length]; [reflexivity | now rewrite IH].
Qed.

Lemma take_append_exact (s t : string) : Formatters.take (String.length s) (s ++ t) = s.
Proof.
  induction s as [|c s IH]; cbn [append String.length Formatters.take].
  - now destruct t.
  - now rewrite IH.
Qed.

Lemma drop_append_exact (s t : string) : Formatters.drop (String.length s) (s ++ t) = t.
Proof.
  induction s as [|c s IH]; cbn [append String.length Formatters.drop];
    [reflexivity | exact IH].
Qed.

Lemma append_assoc (s t u : string) : (s ++ t) ++ u = s ++ (t ++ u).
Proof.
  induction s as [|c s IH]; cbn [append]; [reflexivity | now rewrite IH].
Qed.

Lemma sliceFromEnd_length (n : nat) (s : string) :
  (0 < n)%nat ->
  String.length (Formatters.sliceFromEnd n s) = Nat.min n (String.length s).
Proof.
  intros Hn. unfold Formatters.sliceFromEnd.
  destruct (Nat.eqb_spec n 0) as [->|_]; [lia|].
  rewrite length_drop. lia.
Qed.

Lemma formatAddress_long (a : string) (p s : nat) :
  (p + s + 3 <= String.length a)%nat ->
  Formatters.formatAddress a p s
  = Formatters.take p a ++ "..." ++ Formatters.sliceFromEnd s a.
Proof.
  intros H. unfold Formatters.formatAddress.
  destruct (Nat.ltb_spec (String.length a) (p + s + 3)); [lia | reflexivity].
Qed.

(** With a suffix length of zero the whole address follows the dots
    ([slice(-0)] is [slice(0)]), so the text gets longer. *)
Lemma formatAddress_without_suffix (a : string) (p : nat) :
  (p + 3 <= String.length a)%nat ->
  Formatters.formatAddress a p 0 = Formatters.take p a ++ "..." ++ a.
Proof.
  intros H. rewrite formatAddress_long by lia. reflexivity.
Qed.

(** With a positive suffix length, [formatAddress] never makes a text longer:
    a text shorter than prefix + suffix + 3 is kept, a longer one is cut to
    exactly prefix + suffix + 3 characters; and formatting a formatted text
    again changes nothing. *)
Theorem formatAddress_shortens_once (a : string) (p s : nat) :
  (0 < s)%nat ->
  String.length (Formatters.formatAddress a p s) = Nat.min (String.length a) (p + s + 3)
  /\ Formatters.formatAddress (Formatters.formatAddress a p s) p s
     = Formatters.formatAddress a p s.
Proof.
  intros Hs.
  destruct (Nat.ltb_spec (String.length a) (p + s + 3)) as [H|H].
  - assert (E : Formatters.formatAddress a p s = a).
    { unfold Formatters.formatAddress.
      destruct (Nat.ltb_spec (String.length a) (p + s + 3)); [reflexivity | lia]. }
    rewrite !E. split; [lia | reflexivity].
  - rewrite (formatAddress_long a p s H).
    assert (Hp : String.length (Formatters.take p a) = p) by (rewrite length_take; lia).
    assert (Hq : String.length (Formatters.sliceFromEnd s a) = s)
      by (rewrite sliceFromEnd_length by exact Hs; lia).
    set (x := Formatters.take p a) in *. set (y := Formatters.sliceFromEnd s a) in *.
    split.
    { rewrite !length_append, Hp, Hq. cbn [String.length]. lia. }
    rewrite formatAddress_long
      by (rewrite !length_append, Hp, Hq; cbn [String.length]; lia).
    f_equal.
    + rewrite <- Hp at 1. apply take_append_exact.
    + f_equal. unfold Formatters.sliceFromEnd at 1.
      destruct (Nat.eqb_spec s 0) as [->|_]; [lia|].
      rewrite !length_append, Hp, Hq. cbn [String.length].
      replace (p + (3 + s) - s)%nat with (String.length (x ++ "..."))
        by (rewrite length_append, Hp; cbn [String.length]; lia).
      rewrite <- append_assoc. apply drop_append_exact.
Qed.

Lemma formatAddress_shortens_once_witness :
  String.length (Formatters.formatAddress Examples.wallet 4 4)
  = Nat.min (String.length Examples.wallet) (4 + 4 + 3)
  /\ Formatters.formatAddress (Formatters.formatAddress Examples.wallet 4 4) 4 4
     = Formatters.formatAddress Examples.wallet 4 4.
Proof.
  apply (formatAddress_shortens_once Examples.wallet 4 4). lia.
Defined.

(** [truncateText] keeps a text that fits; a longer text is cut to exactly
    the maximum length when the suffix fits in it, and in every case the
    result is no longer than the larger of the maximum length and the length
    of the suffix. *)
Theorem truncateText_length (text : string) (maxLength : nat) (suffix : string) :
  (String.length (Formatters.truncateText text maxLength suffix)
   <= Nat.max maxLength (String.length suffix))%nat
  /\ ((String.length suffix <= maxLength < String.length text)%nat ->
      String.length (Formatters.truncateText text maxLength suffix) = maxLength)
  /\ ((String.length text <= maxLength)%nat ->
      Formatters.truncateText text maxLength suffix = text).
Proof.
  unfold Formatters.truncateText.
  destruct (Nat.leb_spec (String.length text) maxLength) as [H|H].
  - repeat split; lia.
  - rewrite length_append, length_take. repeat split; lia.
Qed.

Lemma truncateText_length_witness :
  String.length (Formatters.truncateText "Transaction Detected" 10 "...") = 10%nat.
Proof.
  apply (truncateText_length "Transaction Detected" 10 "...").
  vm_compute. lia.
Defined.

(* ------------------------------------------------------------------ *)
(** ** Reconnection, fallback polling, start and stop *)

Lemma lifecycle_step_retry_budget (ev : Lifecycle.Event) (st : Lifecycle.State) :
  (Lifecycle.retryAttempts st <= Lifecycle.maxRetryAttempts st)%nat ->
  (Lifecycle.retryAttempts (Lifecycle.step ev st)
   <= Lifecycle.maxRetryAttempts (Lifecycle.step ev st))%nat
  /\ Lifecycle.maxRetryAttempts (Lifecycle.step ev st) = Lifecycle.maxRetryAttempts st.
Proof.
  intros H.
  destruct ev; cbn [Lifecycle.step];
    unfold Lifecycle.start, Lifecycle.stop, Lifecycle.onOpen, Lifecycle.onClose,
      Lifecycle.onError, Lifecycle.onReconnectTimer, Lifecycle.handleWebSocketError,
      Lifecycle.handleWebSocketDisconnect, Lifecycle.startPollingMode,
      Lifecycle.withReadyState, Lifecycle.initializeWebSocket.
  - destruct (Lifecycle.isRunning st); cbn; split; (lia || reflexivity).
  - destruct (negb (Lifecycle.isRunning st)); cbn; split; (lia || reflexivity).
  - cbn; split; (lia || reflexivity).
  - cbn [Lifecycle.retryAttempts Lifecycle.maxRetryAttempts].
    destruct (Nat.ltb_spec (Lifecycle.retryAttempts st) (Lifecycle.maxRetryAttempts st));
      cbn; split; (lia || reflexivity).
  - destruct (Nat.ltb_spec (Lifecycle.retryAttempts st) (Lifecycle.maxRetryAttempts st));
      cbn; split; (lia || reflexivity).
  - cbn; split; (lia || reflexivity).
Qed.

Lemma lifecycle_run_cons (ev : Lifecycle.Event) (evs : list Lifecycle.Event)
                         (st : Lifecycle.State) :
  Lifecycle.run (ev :: evs) st = Lifecycle.run evs (Lifecycle.step ev st).
Proof. reflexivity. Qed.

Lemma lifecycle_run_retry_budget (evs : list Lifecycle.Event) (st : Lifecycle.State) :
  (Lifecycle.retryAttempts st <= Lifecycle.maxRetryAttempts st)%nat ->
  (Lifecycle.retryAttempts (Lifecycle.run evs st)
   <= Lifecycle.maxRetryAttempts (Lifecycle.run evs st))%nat
  /\ Lifecycle.maxRetryAttempts (Lifecycle.run evs st) = Lifecycle.maxRetryAttempts st.
Proof.
  revert st; induction evs as [|ev evs IH]; intros st H.
  - split; [exact H | reflexivity].
  - rewrite lifecycle_run_cons.
    destruct (lifecycle_step_retry_budget ev st H) as [H1 H2].
    destruct (IH _ H1) as [H3 H4]. split; [exact H3 | congruence].
Qed.

Lemma clearInterval_fresh (id : nat) (l : list nat) :
  (forall j, In j l -> (j < id)%nat) -> Lifecycle.clearInterval id l = l.
Proof.
  induction l as [|j l IH]; intros H; cbn [Lifecycle.clearInterval filter];
    [reflexivity|].
  destruct (Nat.eqb_spec j id) as [->|_].
  - specialize (H id (or_introl eq_refl)). lia.
  - cbn [negb]. f_equal. apply IH. intros k Hk. apply H. now right.
Qed.

Lemma In_clearInterval (id j : nat) (l : list nat) :
  In j (Lifecycle.clearInterval id l) <-> In j l /\ j <> id.
Proof.
  unfold Lifecycle.clearInterval. rewrite filter_In.
  destruct (Nat.eqb_spec j id); cbn [negb]; intuition congruence.
Qed.

Lemma lifecycle_step_timersOk (ev : Lifecycle.Event) (st : Lifecycle.State) :
  Lifecycle.timersOk st -> Lifecycle.timersOk (Lifecycle.step ev st).
Proof.
  intros (Hnd & Hlt & Hcur).
  assert (Hpoll : forall s, NoDup (Lifecycle.activeIntervals s) ->
            (forall id, In id (Lifecycle.activeIntervals s) ->
                        (id < Lifecycle.nextInterval s)%nat) ->
            Lifecycle.timersOk (Lifecycle.startPollingMode s)).
  { intros s H1 H2. unfold Lifecycle.timersOk, Lifecycle.startPollingMode; cbn.
    repeat split.
    - constructor; [|exact H1]. intros Hin. apply H2 in Hin. lia.
    - intros id [<-|Hin]; [lia|]. apply H2 in Hin. lia.
    - intros id [= <-]. now left. }
  destruct ev; cbn [Lifecycle.step].
  - unfold Lifecycle.start. destruct (Lifecycle.isRunning st); [now repeat split|].
    apply Hpoll; assumption.
  - unfold Lifecycle.stop. destruct (negb (Lifecycle.isRunning st)); [now repeat split|].
    unfold Lifecycle.timersOk; cbn. repeat split.
    + destruct (Lifecycle.pollingInterval st); [|exact Hnd].
      unfold Lifecycle.clearInterval. now apply NoDup_filter.
    + intros id Hin. apply Hlt.
      destruct (Lifecycle.pollingInterval st); [|exact Hin].
      now apply In_clearInterval in Hin.
    + discriminate.
  - now repeat split.
  - unfold Lifecycle.onClose, Lifecycle.handleWebSocketDisconnect.
    cbn [Lifecycle.retryAttempts Lifecycle.maxRetryAttempts Lifecycle.withReadyState].
    destruct (Lifecycle.retryAttempts st <? Lifecycle.maxRetryAttempts st)%nat.
    + now repeat split.
    + apply Hpoll; assumption.
  - unfold Lifecycle.onError, Lifecycle.handleWebSocketError,
      Lifecycle.handleWebSocketDisconnect.
    destruct (Lifecycle.retryAttempts st <? Lifecycle.maxRetryAttempts st)%nat.
    + now repeat split.
    + apply Hpoll; assumption.
  - now repeat split.
Qed.

Lemma lifecycle_run_timersOk (evs : list Lifecycle.Event) (st : Lifecycle.State) :
  Lifecycle.timersOk st -> Lifecycle.timersOk (Lifecycle.run evs st).
Proof.
  revert st; induction evs as [|ev evs IH]; intros st H; [exact H|].
  rewrite lifecycle_run_cons. apply IH, lifecycle_step_timersOk, H.
Qed.

Lemma timersOk_initial (n : nat) : Lifecycle.timersOk (Lifecycle.initial n).
Proof.
  unfold Lifecycle.timersOk, Lifecycle.initial; cbn. repeat split.
  - constructor.
  - intros id [].
  - discriminate.
Qed.

(** Whatever happens to a monitor after its construction, the retry counter
    stays within the configured budget, and the stored polling interval is
    one of the active ones. *)
Lemma lifecycle_invariants (evs : list Lifecycle.Event) (n : nat) :
  let st := Lifecycle.run evs (Lifecycle.initial n) in
  (Lifecycle.retryAttempts st <= n)%nat /\ Lifecycle.maxRetryAttempts st = n
  /\ Lifecycle.timersOk st.
Proof.
  cbn zeta.
  destruct (lifecycle_run_retry_budget evs (Lifecycle.initial n)) as [H1 H2]; [cbn; lia|].
  cbn [Lifecycle.initial Lifecycle.maxRetryAttempts] in H2.
  repeat split; try (apply lifecycle_run_timersOk, timersOk_initial); try congruence; lia.
Qed.

Lemma outage_step (ev : Lifecycle.Event) (st : Lifecycle.State) :
  Lifecycle.isOutage ev = true ->
  (Lifecycle.retryAttempts st <= Lifecycle.maxRetryAttempts st)%nat ->
  let d := if Lifecycle.isDisconnect ev then 1%nat else 0%nat in
  Lifecycle.retryAttempts (Lifecycle.step ev st)
  = Nat.min (Lifecycle.maxRetryAttempts st) (Lifecycle.retryAttempts st + d)
  /\ List.length (Lifecycle.activeIntervals (Lifecycle.step ev st)) =
     (List.length (Lifecycle.activeIntervals st)
      + (Lifecycle.retryAttempts st + d - Lifecycle.maxRetryAttempts st))%nat
  /\ Lifecycle.isRunning (Lifecycle.step ev st) = Lifecycle.isRunning st.
Proof.
  intros Ho Hr.
  destruct ev; try discriminate Ho; cbn [Lifecycle.step Lifecycle.isDisconnect]; cbn zeta.
  - unfold Lifecycle.onClose, Lifecycle.handleWebSocketDisconnect.
    cbn [Lifecycle.retryAttempts Lifecycle.maxRetryAttempts Lifecycle.withReadyState].
    destruct (Nat.ltb_spec (Lifecycle.retryAttempts st) (Lifecycle.maxRetryAttempts st));
      cbn; repeat split; lia.
  - unfold Lifecycle.onError, Lifecycle.handleWebSocketError,
      Lifecycle.handleWebSocketDisconnect.
    destruct (Nat.ltb_spec (Lifecycle.retryAttempts st) (Lifecycle.maxRetryAttempts st));
      cbn; repeat split; lia.
  - cbn; repeat split; lia.
Qed.

(** During an outage (the socket only closes or fails, and reconnection
    timers fire) the retry counter grows by one per close or error until it
    reaches the budget; every close or error beyond the budget starts one
    more polling interval, and none of them is ever cleared: the number of
    active intervals grows by the number of disconnects over the budget. *)
Theorem outage_exhausts_retries_then_polls
  (evs : list Lifecycle.Event) (st : Lifecycle.State) :
  forallb Lifecycle.isOutage evs = true ->
  (Lifecycle.retryAttempts st <= Lifecycle.maxRetryAttempts st)%nat ->
  Lifecycle.retryAttempts (Lifecycle.run evs st) =
    Nat.min (Lifecycle.maxRetryAttempts st)
            (Lifecycle.retryAttempts st + Lifecycle.disconnects evs)
  /\ List.length (Lifecycle.activeIntervals (Lifecycle.run evs st)) =
     (List.length (Lifecycle.activeIntervals st)
      + (Lifecycle.retryAttempts st + Lifecycle.disconnects evs
         - Lifecycle.maxRetryAttempts st))%nat
  /\ Lifecycle.isRunning (Lifecycle.run evs st) = Lifecycle.isRunning st.
Proof.
  revert st; induction evs as [|ev evs IH]; intros st Ho Hr.
  - unfold Lifecycle.disconnects; cbn. repeat split; lia.
  - cbn [forallb] in Ho. apply andb_true_iff in Ho as [Hev Ho].
    rewrite lifecycle_run_cons.
    destruct (outage_step ev st Hev Hr) as (H1 & H2 & H3).
    destruct (lifecycle_step_retry_budget ev st Hr) as [H4 H5].
    destruct (IH (Lifecycle.step ev st) Ho H4) as (I1 & I2 & I3).
    rewrite I1, I2, I3, H1, H2, H3, H5.
    unfold Lifecycle.disconnects. cbn [filter].
    destruct (Lifecycle.isDisconnect ev); cbn [List.length]; repeat split; lia.
Qed.

Lemma outage_exhausts_retries_then_polls_witness :
  let evs := [Lifecycle.Close; Lifecycle.ReconnectTimer; Lifecycle.Error;
              Lifecycle.Error; Lifecycle.Close] in
  Lifecycle.retryAttempts (Lifecycle.run evs (Lifecycle.initial 2)) =
    Nat.min 2 (0 + Lifecycle.disconnects evs)
  /\ List.length (Lifecycle.activeIntervals (Lifecycle.run evs (Lifecycle.initial 2))) =
     (0 + (0 + Lifecycle.disconnects evs - 2))%nat
  /\ Lifecycle.isRunning (Lifecycle.run evs (Lifecycle.initial 2)) = false.
Proof.
  apply (outage_exhausts_retries_then_polls
           [Lifecycle.Close; Lifecycle.ReconnectTimer; Lifecycle.Error;
            Lifecycle.Error; Lifecycle.Close] (Lifecycle.initial 2)).
  - reflexivity.
  - vm_compute. lia.
Defined.

Lemma start_when_running (st : Lifecycle.State) :
  Lifecycle.isRunning st = true -> Lifecycle.start st = st.
Proof. intros H. unfold Lifecycle.start. now rewrite H. Qed.

Lemma isRunning_start (st : Lifecycle.State) :
  Lifecycle.isRunning (Lifecycle.start st) = true.
Proof.
  unfold Lifecycle.start. destruct (Lifecycle.isRunning st) eqn:H;
    [exact H | reflexivity].
Qed.

(** Starting twice is starting once: the second call starts no interval. *)
Lemma start_idempotent (st : Lifecycle.State) :
  Lifecycle.start (Lifecycle.start st) = Lifecycle.start st.
Proof. apply start_when_running, isRunning_start. Qed.

(** Round trip: starting a stopped monitor and stopping it again leaves it
    stopped with no interval stored, and the active intervals are those that
    were active before: the interval that [start] creates is cleared. *)
Theorem start_then_stop_clears_the_interval (st : Lifecycle.State) :
  Lifecycle.isRunning st = false -> Lifecycle.timersOk st ->
  let st' := Lifecycle.stop (Lifecycle.start st) in
  Lifecycle.isRunning st' = false /\ Lifecycle.pollingInterval st' = None
  /\ Lifecycle.activeIntervals st' = Lifecycle.activeIntervals st.
Proof.
  intros Hr (Hnd & Hlt & Hcur). cbn zeta.
  unfold Lifecycle.start. rewrite Hr. unfold Lifecycle.stop, Lifecycle.startPollingMode.
  cbn. repeat split.
  rewrite Nat.eqb_refl. cbn [negb].
  now apply clearInterval_fresh.
Qed.

Lemma start_then_stop_clears_the_interval_witness :
  let st' := Lifecycle.stop (Lifecycle.start (Lifecycle.initial 3)) in
  Lifecycle.isRunning st' = false /\ Lifecycle.pollingInterval st' = None
  /\ Lifecycle.activeIntervals st' = [].
Proof.
  apply (start_then_stop_clears_the_interval (Lifecycle.initial 3)).
  - reflexivity.
  - apply timersOk_initial.
Defined.

(** When the retry budget is used up while the monitor runs, the close of
    the socket starts a second polling interval and overwrites the stored
    one; [stop] then clears the second only, and the interval that [start]
    created keeps firing after the monitor has been stopped. *)
Theorem stop_leaves_the_first_interval_running (st : Lifecycle.State) (id : nat) :
  Lifecycle.timersOk st -> Lifecycle.isRunning st = true ->
  Lifecycle.pollingInterval st = Some id ->
  (Lifecycle.maxRetryAttempts st <= Lifecycle.retryAttempts st)%nat ->
  let st' := Lifecycle.stop (Lifecycle.onClose st) in
  Lifecycle.isRunning st' = false /\ Lifecycle.pollingInterval st' = None
  /\ In id (Lifecycle.activeIntervals st').
Proof.
  intros (Hnd & Hlt & Hcur) Hr Hp Hmax. cbn zeta.
  unfold Lifecycle.onClose, Lifecycle.handleWebSocketDisconnect.
  cbn [Lifecycle.retryAttempts Lifecycle.maxRetryAttempts Lifecycle.withReadyState].
  destruct (Nat.ltb_spec (Lifecycle.retryAttempts st) (Lifecycle.maxRetryAttempts st));
    [lia|].
  unfold Lifecycle.stop, Lifecycle.startPollingMode. cbn. rewrite Hr. cbn.
  repeat split.
  rewrite Nat.eqb_refl. cbn [negb].
  apply In_clearInterval. split; [now apply Hcur|].
  specialize (Hlt id (Hcur id Hp)). lia.
Qed.

Lemma stop_leaves_the_first_interval_running_witness :
  let st' := Lifecycle.stop (Lifecycle.onClose Samples.exhausted) in
  Lifecycle.isRunning st' = false /\ Lifecycle.pollingInterval st' = None
  /\ In 0%nat (Lifecycle.activeIntervals st').
Proof.
  apply (stop_leaves_the_first_interval_running Samples.exhausted 0).
  - apply lifecycle_run_timersOk, timersOk_initial.
  - reflexivity.
  - reflexivity.
  - vm_compute. lia.
Defined.

(* ------------------------------------------------------------------ *)
(** ** The caches of the token and market data services *)

Section MapLemmas.

Variable V : Type.
Implicit Types (m : list (string * V)) (k : string) (v : V).

Lemma getOf_set_same k v m : JSMapOf.get k (JSMapOf.set k v m) = Some v.
Proof.
  induction m as [|[k' v'] m IH]; cbn [JSMapOf.set JSMapOf.get].
  - now rewrite String.eqb_refl.
  - destruct (String.eqb_spec k' k) as [->|Hne]; cbn [JSMapOf.get].
    + now rewrite String.eqb_refl.
    + destruct (String.eqb_spec k' k); [contradiction | exact IH].
Qed.

Lemma getOf_delete_same k m : JSMapOf.get k (JSMapOf.delete k m) = None.
Proof.
  induction m as [|[k' v'] m IH]; cbn [JSMapOf.delete JSMapOf.get]; [reflexivity|].
  destruct (String.eqb_spec k' k) as [->|Hne]; [exact IH|].
  cbn [JSMapOf.get]. destruct (String.eqb_spec k' k); [contradiction | exact IH].
Qed.

Lemma getOf_delete_none k k' m :
  JSMapOf.get k m = None -> JSMapOf.get k (JSMapOf.delete k' m) = None.
Proof.
  induction m as [|[k0 v0] m IH]; cbn [JSMapOf.delete JSMapOf.get]; [reflexivity|].
  destruct (String.eqb_spec k0 k) as [->|Hne]; [discriminate|]. intros H.
  destruct (k0 =? k')%string; [now apply IH|].
  cbn [JSMapOf.get]. destruct (String.eqb_spec k0 k); [contradiction | now apply IH].
Qed.

Lemma InOf_set k v k' v' m :
  In (k', v') (JSMapOf.set k v m) -> (k' = k /\ v' = v) \/ In (k', v') m.
Proof.
  induction m as [|[k0 v0] m IH]; cbn [JSMapOf.set].
  - intros [[= <- <-]|[]]. now left.
  - destruct (String.eqb_spec k0 k) as [->|Hne].
    + intros [[= <- <-]|H]; [now left | right; now right].
    + intros [H|H]; [right; now left|].
      destruct (IH H) as [?|?]; [now left | right; now right].
Qed.

Lemma InOf_delete k (x : string * V) m : In x (JSMapOf.delete k m) -> In x m.
Proof.
  induction m as [|[k0 v0] m IH]; cbn [JSMapOf.delete]; [auto|].
  destruct (k0 =? k)%string.
  - intros H. right. now apply IH.
  - intros [H|H]; [now left | right; now apply IH].
Qed.

Lemma getOf_In k v m : JSMapOf.get k m = Some v -> In (k, v) m.
Proof.
  induction m as [|[k0 v0] m IH]; cbn [JSMapOf.get]; [discriminate|].
  destruct (String.eqb_spec k0 k) as [->|Hne].
  - intros [= <-]. now left.
  - intros H. right. now apply IH.
Qed.

End MapLemmas.

Lemma consistent_set (now : Z) (mint : Mint) (cache : TokenCache.Cache) :
  TokenCache.consistent cache ->
  TokenCache.consistent
    (TokenCache.setCachedMetadata now mint (TokenService.getTokenMetadata mint) cache).
Proof.
  intros Hc k e Hin. unfold TokenCache.setCachedMetadata in Hin.
  apply InOf_set in Hin as [[-> ->]|Hin]; [reflexivity | now apply Hc].
Qed.

(** The metadata cache is transparent: as long as every cached entry holds
    what the lookup of its key computes (which is so of the empty cache), a
    lookup through the cache answers what the lookup without a cache
    answers, whatever the time and whether the entry is absent, fresh or
    expired, and it leaves the cache in that state. *)
Theorem metadata_cache_is_transparent
  (now : Z) (mint : Mint) (cache : TokenCache.Cache) :
  TokenCache.consistent cache ->
  fst (TokenCache.getTokenMetadata now mint cache) = TokenService.getTokenMetadata mint
  /\ TokenCache.consistent (snd (TokenCache.getTokenMetadata now mint cache)).
Proof.
  intros Hc. unfold TokenCache.getTokenMetadata, TokenCache.getCachedMetadata.
  assert (Hmiss : forall c, TokenCache.consistent c ->
    let r := match TokenService.DEFAULT_TOKEN_METADATA mint with
      | Some metadata => (metadata, TokenCache.setCachedMetadata now mint metadata c)
      | None =>
          match TokenCache.fetchTokenMetadata mint with
          | Some metadata => (metadata, TokenCache.setCachedMetadata now mint metadata c)
          | None =>
              (mkMetadata "Unknown Token" "UNKNOWN" 9,
               TokenCache.setCachedMetadata now mint
                 (mkMetadata "Unknown Token" "UNKNOWN" 9) c)
          end
      end in
    fst r = TokenService.getTokenMetadata mint /\ TokenCache.consistent (snd r)).
  { intros c Hcc. cbn zeta.
    pose proof (consistent_set now mint c Hcc) as Hs.
    unfold TokenService.getTokenMetadata in *. unfold TokenCache.fetchTokenMetadata.
    destruct (TokenService.DEFAULT_TOKEN_METADATA mint); cbn [fst snd]; split;
      (reflexivity || exact Hs). }
  destruct (JSMapOf.get mint cache) as [e|] eqn:Hg.
  - destruct (now - TokenCache.timestamp e >? TokenCache.cacheTimeout).
    + apply Hmiss. intros k e' Hin. apply Hc. now apply InOf_delete in Hin.
    + cbn [fst snd]. split; [|exact Hc]. apply Hc. now apply getOf_In.
  - now apply Hmiss.
Qed.

Lemma metadata_cache_is_transparent_witness :
  fst (TokenCache.getTokenMetadata 5 Constants.USDC [])
  = TokenService.getTokenMetadata Constants.USDC
  /\ TokenCache.consistent (snd (TokenCache.getTokenMetadata 5 Constants.USDC [])).
Proof.
  apply (metadata_cache_is_transparent 5 Constants.USDC []).
  intros k e [].
Defined.

(** A cached metadata entry is served for five minutes and not a
    millisecond more: read up to 300000 ms after it was stored it is
    returned; read later it is reported missing and is deleted. *)
Theorem cached_metadata_expires
  (t t' : Z) (mint : Mint) (md : Metadata) (cache : TokenCache.Cache) :
  let r := TokenCache.getCachedMetadata t' mint
             (TokenCache.setCachedMetadata t mint md cache) in
  (t' - t <= 300000 -> fst r = Some md)
  /\ (300000 < t' - t -> fst r = None /\ JSMapOf.get mint (snd r) = None).
Proof.
  cbn zeta.
  unfold TokenCache.getCachedMetadata, TokenCache.setCachedMetadata.
  rewrite getOf_set_same.
  cbn [TokenCache.timestamp TokenCache.data]. unfold TokenCache.cacheTimeout.
  destruct (Z.gtb_spec (t' - t) 300000) as [Hgt|Hle]; split; intros H; try lia;
    cbn [fst snd].
  - split; [reflexivity | apply getOf_delete_same].
  - reflexivity.
Qed.

Lemma cached_metadata_expires_witness :
  fst (TokenCache.getCachedMetadata 300007 Examples.mintA
         (TokenCache.setCachedMetadata 7 Examples.mintA
            (mkMetadata "Unknown Token" "UNKNOWN" 9) []))
  = Some (mkMetadata "Unknown Token" "UNKNOWN" 9).
Proof.
  apply (cached_metadata_expires 7 300007 Examples.mintA
           (mkMetadata "Unknown Token" "UNKNOWN" 9) []).
  lia.
Defined.

Lemma getCachedData_fresh (t t' : Z) (key : string) (q : MarketData.Quote)
                          (cache : MarketData.Cache) :
  t' - t <= 30000 ->
  MarketData.getCachedData t' key (MarketData.setCachedData t key q cache)
  = (Some q, MarketData.setCachedData t key q cache).
Proof.
  intros H. unfold MarketData.getCachedData, MarketData.setCachedData.
  rewrite getOf_set_same.
  cbn [MarketData.timestamp MarketData.data]. unfold MarketData.cacheTimeout.
  destruct (Z.gtb_spec (t' - t) 30000); [lia | reflexivity].
Qed.

Lemma getCachedData_none (now : Z) (key : string) (cache cache1 : MarketData.Cache) :
  MarketData.getCachedData now key cache = (None, cache1) ->
  JSMapOf.get key cache1 = None
  /\ (forall k, JSMapOf.get k cache = None -> JSMapOf.get k cache1 = None).
Proof.
  unfold MarketData.getCachedData. destruct (JSMapOf.get key cache) as [e|] eqn:Hg.
  - destruct (now - MarketData.timestamp e >? MarketData.cacheTimeout); [|discriminate].
    intros [= <-]. split; [apply getOf_delete_same|].
    intros k Hk. now apply getOf_delete_none.
  - intros [= <-]. split; [exact Hg | auto].
Qed.

Lemma getCachedData_absent (now : Z) (key : string) (cache : MarketData.Cache) :
  JSMapOf.get key cache = None -> MarketData.getCachedData now key cache = (None, cache).
Proof. intros H. unfold MarketData.getCachedData. now rewrite H. Qed.

Lemma getTokenPrice_of_jupiter (http : MarketData.Http) (now : Z) (mint : Mint)
  (cache cache1 : MarketData.Cache) (q : MarketData.Quote)
  (reqs : list MarketData.Request) :
  MarketData.getJupiterPrice http now mint cache = (Some q, cache1, reqs) ->
  MarketData.getTokenPrice http now mint cache = (Some q, cache1, reqs).
Proof. intros H. unfold MarketData.getTokenPrice. now rewrite H. Qed.

(** A price that Jupiter has just answered is served from the cache, with
    no request at all, by every lookup made up to thirty seconds after the
    answer arrived, whatever the services would answer by then. *)
Theorem jupiter_price_is_served_from_cache
  (http http' : MarketData.Http) (now later : Z) (mint : Mint)
  (cache cache1 : MarketData.Cache) (q : MarketData.Quote) :
  MarketData.getJupiterPrice http now mint cache
  = (Some q, cache1, [MarketData.GetJupiterPrice mint]) ->
  later - (now + MarketData.latency http) <= 30000 ->
  MarketData.getJupiterPrice http' later mint cache1 = (Some q, cache1, [])
  /\ MarketData.getTokenPrice http' later mint cache1 = (Some q, cache1, []).
Proof.
  unfold MarketData.getJupiterPrice at 1. cbn zeta.
  destruct (MarketData.getCachedData now ("jupiter_" ++ mint) cache)
    as [[c|] cache0] eqn:Hc; [discriminate|].
  destruct (MarketData.jupiterPrice http mint) as [raw|]; [|discriminate].
  intros [= <- <-] Hl.
  assert (E : MarketData.getJupiterPrice http' later mint
                (MarketData.setCachedData (now + MarketData.latency http)
                   ("jupiter_" ++ mint) (MarketData.quoteOf raw "Jupiter") cache0)
              = (Some (MarketData.quoteOf raw "Jupiter"),
                 MarketData.setCachedData (now + MarketData.latency http)
                   ("jupiter_" ++ mint) (MarketData.quoteOf raw "Jupiter") cache0, [])).
  { unfold MarketData.getJupiterPrice. cbn zeta. now rewrite getCachedData_fresh. }
  split; [exact E | apply getTokenPrice_of_jupiter; exact E].
Qed.

Lemma jupiter_price_is_served_from_cache_witness :
  let q := MarketData.quoteOf (MarketData.mkRawQuote (2 # 1) None None) "Jupiter" in
  let cache1 := MarketData.setCachedData 1120 ("jupiter_" ++ Examples.mintA) q [] in
  MarketData.getJupiterPrice Samples.unpriced 31120 Examples.mintA cache1
  = (Some q, cache1, [])
  /\ MarketData.getTokenPrice Samples.unpriced 31120 Examples.mintA cache1
     = (Some q, cache1, []).
Proof.
  apply (jupiter_price_is_served_from_cache Samples.jupiterOnly Samples.unpriced
           1000 31120 Examples.mintA []).
  - reflexivity.
  - vm_compute. discriminate.
Defined.

Lemma getJupiterPrice_none (http : MarketData.Http) (now : Z) (mint : Mint)
  (cache cache1 : MarketData.Cache) (reqs : list MarketData.Request) :
  MarketData.getJupiterPrice http now mint cache = (None, cache1, reqs) ->
  reqs = [MarketData.GetJupiterPrice mint] /\ MarketData.jupiterPrice http mint = None
  /\ JSMapOf.get ("jupiter_" ++ mint) cache1 = None
  /\ (forall k, JSMapOf.get k cache = None -> JSMapOf.get k cache1 = None).
Proof.
  unfold MarketData.getJupiterPrice. cbn zeta.
  destruct (MarketData.getCachedData now ("jupiter_" ++ mint) cache)
    as [[c|] cache0] eqn:Hc; [discriminate|].
  destruct (MarketData.jupiterPrice http mint) as [raw|]; [discriminate|].
  intros [= <- <-]. apply getCachedData_none in Hc as [H1 H2]. now repeat split.
Qed.

Lemma getCoinGeckoPrice_none (http : MarketData.Http) (now : Z) (mint : Mint)
  (cache cache1 : MarketData.Cache) (reqs : list MarketData.Request) :
  MarketData.getCoinGeckoPrice http now mint cache = (None, cache1, reqs) ->
  JSMapOf.get ("coingecko_" ++ mint) cache1 = None
  /\ (forall k, JSMapOf.get k cache = None -> JSMapOf.get k cache1 = None)
  /\ (forall later,
        MarketData.getCoinGeckoPrice http later mint cache1 = (None, cache1, reqs))
  /\ exists rest, reqs = MarketData.GetCoinGeckoSearch mint :: rest.
Proof.
  unfold MarketData.getCoinGeckoPrice. cbn zeta.
  destruct (MarketData.getCachedData now ("coingecko_" ++ mint) cache)
    as [[c|] cache0] eqn:Hc; [discriminate|].
  apply getCachedData_none in Hc as [H1 H2].
  destruct (MarketData.coingeckoSearch http mint) as [coinId|].
  - destruct (MarketData.coingeckoSimplePrice http coinId) as [raw|]; [discriminate|].
    intros [= <- <-]. repeat split; try assumption.
    + intros later. now rewrite getCachedData_absent.
    + now eexists.
  - intros [= <- <-]. repeat split; try assumption.
    + intros later. now rewrite getCachedData_absent.
    + now eexists.
Qed.

(** A lookup that finds no price is not remembered: it has asked Jupiter and
    then CoinGecko, it leaves no entry for the token in the cache, and as
    long as the services answer the same, every later lookup makes the same
    requests again and finds nothing again. *)
Theorem missing_price_is_asked_again
  (http : MarketData.Http) (now later : Z) (mint : Mint)
  (cache cache1 : MarketData.Cache) (reqs : list MarketData.Request) :
  MarketData.getTokenPrice http now mint cache = (None, cache1, reqs) ->
  MarketData.getTokenPrice http later mint cache1 = (None, cache1, reqs)
  /\ JSMapOf.get ("jupiter_" ++ mint) cache1 = None
  /\ JSMapOf.get ("coingecko_" ++ mint) cache1 = None
  /\ exists rest,
       reqs = MarketData.GetJupiterPrice mint :: MarketData.GetCoinGeckoSearch mint :: rest.
Proof.
  unfold MarketData.getTokenPrice at 1.
  destruct (MarketData.getJupiterPrice http now mint cache)
    as [[[q|] cache0] reqs0] eqn:Hj; [discriminate|].
  apply getJupiterPrice_none in Hj as (-> & Hjp & Hjk & _).
  destruct (MarketData.getCoinGeckoPrice http (now + MarketData.latency http) mint cache0)
    as [[r cache2] reqs2] eqn:Hg.
  intros [= -> -> <-].
  apply getCoinGeckoPrice_none in Hg as (Hck & Hkeep & Hagain & rest & ->).
  repeat split; [| now apply Hkeep | exact Hck | now exists rest].
  unfold MarketData.getTokenPrice, MarketData.getJupiterPrice. cbn zeta.
  rewrite getCachedData_absent by (now apply Hkeep).
  rewrite Hjp, Hagain. reflexivity.
Qed.

Lemma missing_price_is_asked_again_witness :
  let reqs := [MarketData.GetJupiterPrice Examples.mintA;
               MarketData.GetCoinGeckoSearch Examples.mintA;
               MarketData.GetCoinGeckoSimplePrice "some-coin"] in
  MarketData.getTokenPrice Samples.unpriced 99 Examples.mintA [] = (None, [], reqs)
  /\ JSMapOf.get ("jupiter_" ++ Examples.mintA) ([] : MarketData.Cache) = None
  /\ JSMapOf.get ("coingecko_" ++ Examples.mintA) ([] : MarketData.Cache) = None
  /\ exists rest,
       reqs = MarketData.GetJupiterPrice Examples.mintA
              :: MarketData.GetCoinGeckoSearch Examples.mintA :: rest.
Proof.
  apply (missing_price_is_asked_again Samples.unpriced 0 99 Examples.mintA [] []).
  reflexivity.
Defined.

(** Jupiter comes first: when Jupiter has a price for the token, a lookup
    always finds a price and never asks CoinGecko; it makes no request at
    all (a fresh cached price) or the one Jupiter request, whose answer it
    returns with absent volume and market cap read as zero. *)
Theorem jupiter_answer_needs_no_coingecko
  (http : MarketData.Http) (now : Z) (mint : Mint) (cache : MarketData.Cache)
  (raw : MarketData.RawQuote) :
  MarketData.jupiterPrice http mint = Some raw ->
  exists q cache1 reqs,
    MarketData.getTokenPrice http now mint cache = (Some q, cache1, reqs)
    /\ (reqs = [] \/
        (reqs = [MarketData.GetJupiterPrice mint]
         /\ q = MarketData.quoteOf raw "Jupiter")).
Proof.
  intros Hj. unfold MarketData.getTokenPrice, MarketData.getJupiterPrice. cbn zeta.
  destruct (MarketData.getCachedData now ("jupiter_" ++ mint) cache) as [[c|] cache0].
  - exists c, cache0, []. split; [reflexivity | now left].
  - rewrite Hj. do 3 eexists. split; [reflexivity | right; split; reflexivity].
Qed.

Lemma jupiter_answer_needs_no_coingecko_witness :
  exists q cache1 reqs,
    MarketData.getTokenPrice Samples.jupiterOnly 1000 Examples.mintA [] = (Some q, cache1, reqs)
    /\ (reqs = [] \/
        (reqs = [MarketData.GetJupiterPrice Examples.mintA]
         /\ q = MarketData.quoteOf (MarketData.mkRawQuote (2 # 1) None None) "Jupiter")).
Proof.
  apply (jupiter_answer_needs_no_coingecko Samples.jupiterOnly 1000 Examples.mintA []
           (MarketData.mkRawQuote (2 # 1) None None)).
  reflexivity.
Defined.

(* ================================================================== *)
(** * The classifier against the exact deltas *)

(** *** Lists of texts *)

Lemma filter_twice {A} (p q : A -> bool) (l : list A) :
  filter p (filter q l) = filter (fun x => q x && p x) l.
Proof.
  induction l as [| x l IH]; cbn [filter]; [reflexivity |].
  destruct (q x); cbn [filter andb]; [destruct (p x) |]; now rewrite IH.
Qed.

Lemma filter_all {A} (p : A -> bool) (l : list A) :
  (forall x, In x l -> p x = true) -> filter p l = l.
Proof.
  induction l as [| x l IH]; intros H; cbn [filter]; [reflexivity |].
  rewrite (H x (or_introl eq_refl)). f_equal. apply IH. intros y Hy. apply H. now right.
Qed.

Lemma has_cons (y x : string) (s : list string) :
  JSMap.has y (x :: s) = (x =? y)%string || JSMap.has y s.
Proof. reflexivity. Qed.

Lemma has_app (y : string) (s t : list string) :
  JSMap.has y (s ++ t) = JSMap.has y s || JSMap.has y t.
Proof. unfold JSMap.has. apply existsb_app. Qed.

Lemma has_filter_other (y x : string) (l : list string) :
  y <> x ->
  JSMap.has y (filter (fun z => negb (z =? x)%string) l) = JSMap.has y l.
Proof.
  intros Hne. induction l as [| z l IH]; cbn [filter]; [reflexivity |].
  destruct (String.eqb_spec z x) as [-> | Hzx]; cbn [negb].
  - rewrite has_cons. rewrite <- IH.
    destruct (String.eqb_spec x y) as [-> | _]; [contradiction | reflexivity].
  - rewrite !has_cons. now rewrite IH.
Qed.

Lemma has_distinct (y : string) (l : list string) :
  JSMap.has y (Deltas.distinct l) = JSMap.has y l.
Proof.
  induction l as [| x l IH]; cbn [Deltas.distinct]; [reflexivity |].
  rewrite !has_cons.
  destruct (String.eqb_spec x y) as [-> | Hne]; [reflexivity |].
  cbn [orb]. rewrite has_filter_other by congruence. exact IH.
Qed.

Lemma distinct_filter (p : string -> bool) (l : list string) :
  Deltas.distinct (filter p l) = filter p (Deltas.distinct l).
Proof.
  induction l as [| x l IH]; cbn [filter Deltas.distinct]; [reflexivity |].
  destruct (p x) eqn:Hp; cbn [Deltas.distinct filter].
  - rewrite IH. f_equal. rewrite !filter_twice. apply filter_ext.
    intros a. apply andb_comm.
  - rewrite IH. rewrite filter_twice. apply filter_ext_in.
    intros a _. destruct (String.eqb_spec a x) as [-> | _]; cbn [negb andb];
      [now rewrite Hp | reflexivity].
Qed.

Lemma distinct_idempotent (l : list string) :
  Deltas.distinct (Deltas.distinct l) = Deltas.distinct l.
Proof.
  induction l as [| x l IH]; cbn [Deltas.distinct]; [reflexivity |].
  f_equal. rewrite distinct_filter, IH, filter_twice. apply filter_ext.
  intros a. now destruct (negb _).
Qed.

Lemma distinct_app (l1 l2 : list string) :
  Deltas.distinct (l1 ++ l2)
  = (Deltas.distinct l1
     ++ filter (fun y => negb (JSMap.has y l1)) (Deltas.distinct l2))%list.
Proof.
  induction l1 as [| x l1 IH]; cbn [app Deltas.distinct].
  - symmetry. apply filter_all. reflexivity.
  - f_equal. rewrite IH, filter_app. f_equal.
    rewrite filter_twice. apply filter_ext. intros a.
    rewrite has_cons, (String.eqb_sym x a).
    destruct (a =? x)%string, (JSMap.has a l1); reflexivity.
Qed.

Lemma addAll_distinct (l s : list string) :
  fold_left (fun s k => JSMap.add k s) l s
  = (s ++ filter (fun y => negb (JSMap.has y s)) (Deltas.distinct l))%list.
Proof.
  revert s; induction l as [| x l IH]; intros s; cbn [fold_left Deltas.distinct filter].
  - now rewrite app_nil_r.
  - rewrite IH. unfold JSMap.add. destruct (JSMap.has x s) eqn:Hx; cbn [negb].
    + f_equal. rewrite filter_twice. apply filter_ext_in. intros a _.
      destruct (String.eqb_spec a x) as [-> | _]; cbn [negb andb];
        [now rewrite Hx | reflexivity].
    + rewrite <- app_assoc. cbn [app]. do 2 f_equal.
      rewrite filter_twice. apply filter_ext. intros a.
      rewrite has_app, has_cons. cbn [JSMap.has existsb]. rewrite orb_false_r.
      rewrite (String.eqb_sym x a).
      destruct (a =? x)%string, (JSMap.has a s); reflexivity.
Qed.

Lemma Set_of_distinct (l : list string) : JSMap.Set_of l = Deltas.distinct l.
Proof.
  unfold JSMap.Set_of. rewrite addAll_distinct. cbn [app].
  apply filter_all. reflexivity.
Qed.

(** *** The keys of the balance maps *)

Lemma keys_set (k : string) (v : Z) (m : list (string * Z)) :
  JSMap.keys (JSMap.set k v m) = JSMap.add k (JSMap.keys m).
Proof.
  unfold JSMap.keys, JSMap.add.
  induction m as [| [k0 v0] m IH]; cbn [JSMap.set map fst]; [reflexivity |].
  rewrite has_cons.
  destruct (k0 =? k)%string eqn:E; cbn [map fst orb]; [reflexivity |].
  rewrite IH. now destruct (JSMap.has k (map fst m)).
Qed.

Lemma keys_balanceMap (balances : list TokenBalance) (owner : Address) :
  JSMap.keys (balanceMap balances owner) = Deltas.distinct (Deltas.mintsOf balances owner).
Proof.
  rewrite <- Set_of_distinct. unfold balanceMap, JSMap.Set_of.
  change (@nil string) with (JSMap.keys []).
  generalize (@nil (string * Z)).
  induction balances as [| b rest IH]; intros m; cbn [fold_left]; [reflexivity |].
  rewrite IH. unfold Deltas.mintsOf. cbn [filter]. unfold Deltas.ownedBy at 2.
  destruct (tb_owner b =? owner)%string; cbn [map fold_left]; [| reflexivity].
  now rewrite keys_set.
Qed.

Lemma allMints_ownedMints (pre post : list TokenBalance) (owner : Address) :
  JSMap.Set_of (JSMap.keys (balanceMap pre owner) ++ JSMap.keys (balanceMap post owner))
  = Deltas.ownedMints pre post owner.
Proof.
  rewrite Set_of_distinct, !keys_balanceMap. unfold Deltas.ownedMints.
  rewrite !distinct_app, !distinct_idempotent. f_equal.
  apply filter_ext. intros a. now rewrite has_distinct.
Qed.

(** *** Amounts *)

Lemma rawAmount_heldAmount (balances : list TokenBalance) (owner : Address) (mint : Mint) :
  rawAmount (balanceMap balances owner) mint = Deltas.heldAmount balances owner mint.
Proof.
  unfold rawAmount, Deltas.heldAmount, balanceMap.
  assert (G : forall m,
    JSMap.get mint
      (fold_left
         (fun m balance =>
            if (tb_owner balance =? owner)%string
            then JSMap.set (tb_mint balance) (tb_amount balance) m
            else m) balances m)
    = match find (balanceOf owner mint) (rev balances) with
      | Some b => Some (tb_amount b)
      | None => JSMap.get mint m
      end).
  { induction balances as [| b rest IH]; intros m; cbn [fold_left rev find];
      [reflexivity |].
    rewrite IH, find_app. destruct (find _ (rev rest)); [reflexivity |].
    cbn [find]. unfold balanceOf.
    destruct (tb_owner b =? owner)%string; cbn [andb]; [| reflexivity].
    destruct (String.eqb_spec (tb_mint b) mint) as [-> | Hne].
    - apply get_set_same.
    - now apply get_set_other. }
  rewrite G. cbn [JSMap.get]. now destruct (find _ _).
Qed.

Lemma heldAmount_bounded (P : Z -> Prop) (balances : list TokenBalance)
      (owner : Address) (mint : Mint) :
  P 0 -> (forall b, In b balances -> P (tb_amount b)) ->
  P (Deltas.heldAmount balances owner mint).
Proof.
  intros H0 H. unfold Deltas.heldAmount.
  destruct (find _ _) as [b |] eqn:E; [| exact H0].
  apply find_some in E. apply H. apply in_rev. tauto.
Qed.

Lemma changeOf_exact (pre post : list TokenBalance) (owner : Address) (mint : Mint) :
  (forall b, In b pre \/ In b post -> 0 <= tb_amount b <= 2 ^ 53) ->
  changeOf (balanceMap pre owner) (balanceMap post owner) mint
  = if Deltas.tokenDelta pre post owner mint =? 0 then []
    else [ {| tc_mint := mint;
              tc_change := Deltas.tokenDelta pre post owner mint;
              tc_preAmount := Deltas.heldAmount pre owner mint;
              tc_postAmount := Deltas.heldAmount post owner mint |} ].
Proof.
  intros Hb. change (2 ^ 53) with 9007199254740992 in Hb.
  unfold changeOf, Deltas.tokenDelta.
  fold (rawAmount (balanceMap pre owner) mint).
  fold (rawAmount (balanceMap post owner) mint).
  rewrite !rawAmount_heldAmount.
  assert (Hpre : 0 <= Deltas.heldAmount pre owner mint <= 9007199254740992).
  { apply (heldAmount_bounded (fun z => 0 <= z <= 9007199254740992)); [lia |].
    intros b Hin. apply Hb. now left. }
  assert (Hpost : 0 <= Deltas.heldAmount post owner mint <= 9007199254740992).
  { apply (heldAmount_bounded (fun z => 0 <= z <= 9007199254740992)); [lia |].
    intros b Hin. apply Hb. now right. }
  unfold JSNumber.parseInt, JSNumber.sub.
  rewrite (round53_exact (Deltas.heldAmount pre owner mint))
    by (change (2 ^ 53) with 9007199254740992; lia).
  rewrite (round53_exact (Deltas.heldAmount post owner mint))
    by (change (2 ^ 53) with 9007199254740992; lia).
  rewrite round53_exact by (change (2 ^ 53) with 9007199254740992; lia).
  reflexivity.
Qed.

Lemma strictEq_found (accounts : list AccountKey) (addr : Address) :
  In (KeyString addr) accounts ->
  exists i, findIndex (fun account => strictEq account addr) accounts = Some i.
Proof.
  induction accounts as [| k rest IH]; intros Hin; [destruct Hin |].
  cbn [findIndex]. destruct (strictEq k addr) eqn:E; [now eexists |].
  destruct Hin as [-> | Hin].
  - cbn [strictEq] in E. now rewrite String.eqb_refl in E.
  - destruct (IH Hin) as [i ->]. now eexists.
Qed.


(** Within 2^53, and for an address that is a string account key, the list
    [extractTokenChanges] computes is the list of the exact deltas: the same
    mints, in the same order, each with its exact delta and the two amounts
    it was taken from. *)
Lemma extractTokenChanges_exact
  (pre post : list TokenBalance) (accounts : list AccountKey) (addr : Address) :
  In (KeyString addr) accounts ->
  (forall b, In b pre \/ In b post -> 0 <= tb_amount b <= 2 ^ 53) ->
  extractTokenChanges pre post accounts addr
  = map (fun d => {| tc_mint := fst d; tc_change := snd d;
                     tc_preAmount := Deltas.heldAmount pre addr (fst d);
                     tc_postAmount := Deltas.heldAmount post addr (fst d) |})
        (Deltas.deltaList pre post addr).
Proof.
  intros Hin Hb. unfold extractTokenChanges.
  destruct (strictEq_found accounts addr Hin) as [i ->].
  cbv zeta. rewrite allMints_ownedMints. unfold Deltas.deltaList.
  induction (Deltas.ownedMints pre post addr) as [| mint rest IH];
    cbn [flat_map map filter]; [reflexivity |].
  rewrite (changeOf_exact pre post addr mint Hb), IH. cbn [snd].
  destruct (Deltas.tokenDelta pre post addr mint =? 0); reflexivity.
Qed.

Lemma listed_extractTokenChanges
  (pre post : list TokenBalance) (accounts : list AccountKey) (addr : Address) :
  In (KeyString addr) accounts ->
  (forall b, In b pre \/ In b post -> 0 <= tb_amount b <= 2 ^ 53) ->
  map Deltas.listed (extractTokenChanges pre post accounts addr)
  = Deltas.deltaList pre post addr.
Proof.
  intros Hin Hb. rewrite (extractTokenChanges_exact pre post accounts addr Hin Hb).
  rewrite map_map. unfold Deltas.listed. cbn [tc_mint tc_change].
  rewrite <- (map_id (Deltas.deltaList pre post addr)) at 2.
  apply map_ext. now intros [m d].
Qed.


Lemma findIndex_ext_in {A} (p q : A -> bool) (l : list A) :
  (forall x, In x l -> p x = q x) -> findIndex p l = findIndex q l.
Proof.
  induction l as [| x l IH]; intros H; cbn [findIndex]; [reflexivity |].
  rewrite (H x (or_introl eq_refl)), IH; [reflexivity |].
  intros y Hy. apply H. now right.
Qed.

Lemma strictEq_keyIndex (accounts : list AccountKey) (addr : Address) :
  Deltas.stringKeys accounts = true ->
  findIndex (fun account => strictEq account addr) accounts = Deltas.keyIndex accounts addr.
Proof.
  intros Hs. unfold Deltas.keyIndex. apply findIndex_ext_in. intros k Hk.
  unfold Deltas.stringKeys in Hs. rewrite forallb_forall in Hs. specialize (Hs k Hk).
  destruct k; [reflexivity | discriminate].
Qed.

Lemma nth_bounded (i : nat) (l : list Z) :
  (forall x, In x l -> 0 <= x <= 2 ^ 53) -> 0 <= nth i l 0 <= 2 ^ 53.
Proof.
  intros H. destruct (nth_in_or_default i l 0) as [Hin | ->]; [auto |].
  change (2 ^ 53) with 9007199254740992. lia.
Qed.

(** Within 2^53, and when the account keys are strings, the native delta
    [calculateSOLChange] computes is the exact one. *)
Lemma calculateSOLChange_exact
  (accounts : list AccountKey) (pre post : list Z) (addr : Address) :
  Deltas.stringKeys accounts = true ->
  (forall x, In x pre \/ In x post -> 0 <= x <= 2 ^ 53) ->
  calculateSOLChange accounts pre post addr = Deltas.nativeDelta accounts pre post addr.
Proof.
  intros Hs Hb. unfold calculateSOLChange, Deltas.nativeDelta.
  rewrite (strictEq_keyIndex accounts addr Hs).
  destruct (Deltas.keyIndex accounts addr) as [i |]; [| reflexivity].
  unfold JSNumber.sub. apply round53_exact.
  pose proof (nth_bounded i pre (fun x Hx => Hb x (or_introl Hx))).
  pose proof (nth_bounded i post (fun x Hx => Hb x (or_intror Hx))).
  change (2 ^ 53) with 9007199254740992 in *. lia.
Qed.


(* ------------------------------------------------------------------ *)
(** ** Swap extraction *)



(* ------------------------------------------------------------------ *)
(** ** Transfer extraction *)




(* ------------------------------------------------------------------ *)
(** ** Balance deltas *)

(** C8 (as amended): balance deltas are taken on the raw, unscaled amounts
    with JavaScript number arithmetic.  Whenever the raw amounts lie between
    0 and 2^53 and the address is among the account keys, which are strings,
    the computed deltas are the exact integer differences post - pre: the
    list of token changes is the list of the mints of the address whose
    exact delta is not zero, no such mint left out, each with its exact
    delta and the raw amounts it was taken from, and the native delta is the
    exact one.  Scaling comes after: the amount text is made from the
    magnitude of the unscaled delta, with nine decimals. *)
Theorem deltas_exact_up_to_2_53
  (pre post : list TokenBalance) (preNative postNative : list Z)
  (accounts : list AccountKey) (addr : Address) :
  Deltas.stringKeys accounts = true ->
  In (KeyString addr) accounts ->
  (forall b, In b pre \/ In b post -> 0 <= tb_amount b <= 2 ^ 53) ->
  (forall x, In x preNative \/ In x postNative -> 0 <= x <= 2 ^ 53) ->
  let changes := extractTokenChanges pre post accounts addr in
  let native := calculateSOLChange accounts preNative postNative addr in
  map Deltas.listed changes = Deltas.deltaList pre post addr
  /\ (forall mint, In mint (Deltas.ownedMints pre post addr) ->
        Deltas.tokenDelta pre post addr mint <> 0 ->
        exists c, In c changes /\ tc_mint c = mint /\
                  tc_change c = Deltas.tokenDelta pre post addr mint)
  /\ (forall c, In c changes ->
        tc_preAmount c = Deltas.heldAmount pre addr (tc_mint c) /\
        tc_postAmount c = Deltas.heldAmount post addr (tc_mint c) /\
        tc_change c = tc_postAmount c - tc_preAmount c /\
        formatTokenAmount (Z.abs (tc_change c)) (tc_mint c)
        = {| at_raw := Z.abs (Deltas.tokenDelta pre post addr (tc_mint c));
             at_decimals := 9 |})
  /\ native = Deltas.nativeDelta accounts preNative postNative addr
  /\ formatTokenAmount (Z.abs native) SOL
     = {| at_raw := Z.abs (Deltas.nativeDelta accounts preNative postNative addr);
          at_decimals := 9 |}.
Proof.
  intros Hs Hkey Hbt Hbn changes native.
  pose proof (listed_extractTokenChanges pre post accounts addr Hkey Hbt) as Hl.
  fold changes in Hl.
  assert (Hn : native = Deltas.nativeDelta accounts preNative postNative addr)
    by (apply calculateSOLChange_exact; assumption).
  split; [exact Hl |]. split; [| split; [| split]].
  - intros mint Hin Hnz.
    assert (Hd : In (mint, Deltas.tokenDelta pre post addr mint)
                    (Deltas.deltaList pre post addr)).
    { unfold Deltas.deltaList. apply filter_In. split.
      - apply in_map_iff. now exists mint.
      - cbn [snd]. apply negb_true_iff. now apply Z.eqb_neq. }
    rewrite <- Hl in Hd. apply in_map_iff in Hd. destruct Hd as (c & Hc & Hin').
    unfold Deltas.listed in Hc. injection Hc as H1 H2. now exists c.
  - intros c Hc. unfold changes in Hc.
    rewrite (extractTokenChanges_exact pre post accounts addr Hkey Hbt) in Hc.
    apply in_map_iff in Hc. destruct Hc as ([mint d] & <- & Hd).
    cbn [tc_mint tc_change tc_preAmount tc_postAmount fst snd].
    unfold Deltas.deltaList in Hd. apply filter_In in Hd. destruct Hd as [Hd _].
    apply in_map_iff in Hd. destruct Hd as (mint' & [= -> <-] & _).
    repeat split; reflexivity.
  - exact Hn.
  - rewrite Hn. reflexivity.
Qed.

Lemma deltas_exact_up_to_2_53_witness :
  map Deltas.listed
      (extractTokenChanges [Examples.bal Examples.mintA 1500000000;
                            Examples.bal Examples.mintB 40]
                           [Examples.bal Examples.mintB 40;
                            Examples.bal Examples.mintA 250;
                            Examples.bal Examples.mintC 3]
                           [KeyString Examples.wallet] Examples.wallet)
  = [(Examples.mintA, -1499999750); (Examples.mintC, 3)]
  /\ calculateSOLChange [KeyString Examples.wallet] [1000] [5000001000] Examples.wallet
     = 5000000000.
Proof.
  destruct (deltas_exact_up_to_2_53
              [Examples.bal Examples.mintA 1500000000; Examples.bal Examples.mintB 40]
              [Examples.bal Examples.mintB 40; Examples.bal Examples.mintA 250;
               Examples.bal Examples.mintC 3]
              [1000] [5000001000] [KeyString Examples.wallet] Examples.wallet)
    as (Hl & _ & _ & Hn & _).
  - reflexivity.
  - left. reflexivity.
  - intros b [[<- | [<- | []]] | [<- | [<- | [<- | []]]]]; vm_compute; split; discriminate.
  - intros x [[<- | []] | [<- | []]]; vm_compute; split; discriminate.
  - split; [rewrite Hl | rewrite Hn]; vm_compute; reflexivity.
Defined.

(* ------------------------------------------------------------------ *)
(** ** Signatures the classifier maps to null *)

Lemma step_keeps_addresses env ev m :
  monitoredAddresses (fst (step env ev m)) = monitoredAddresses m.
Proof.
  destruct ev as [| [params | params |]]; cbn [step handleWebSocketMessage].
  - unfold tick. now destruct (pollEach _ _ _).
  - unfold handleAccountNotification.
    destruct (JSMap.has _ _); [| reflexivity]. now destruct (pollRecentTransactions _ _ _).
  - unfold handleLogsNotification.
    match goal with |- context [find ?p ?l] => destruct (find p l) end; [| reflexivity].
    now destruct (processTransaction _ _ _ _).
  - reflexivity.
Qed.

Lemma run_keeps_addresses events :
  forall m, monitoredAddresses (fst (run events m)) = monitoredAddresses m.
Proof.
  induction events as [| [env ev] rest IH]; intros m; cbn [run]; [reflexivity |].
  pose proof (step_keeps_addresses env ev m) as H1.
  destruct (step env ev m) as [m1 e1]. cbn [fst] in H1.
  pose proof (IH m1) as H2. destruct (run rest m1) as [m2 e2]. cbn [fst] in *.
  congruence.
Qed.

Lemma pollRecentTransactions_reaches env a files s l :
  processed s (ledger files) = false ->
  PublicKey.new a = Normal tt ->
  history env a = Answer l ->
  In s (map si_signature (firstn 10 l)) ->
  In (GetTransaction s) (snd (pollRecentTransactions env a files)) /\
  (forall tx, getTransaction env s = Answer (Some tx) ->
              In (Classify s a) (snd (pollRecentTransactions env a files))).
Proof.
  intros Hp Hkey Hhist Hin.
  unfold pollRecentTransactions, getSignaturesForAddress. rewrite Hkey, Hhist.
  destruct (pollLoop_reaches env a (firstn 10 l) files s Hp Hin) as [Hf Hc].
  destruct (pollLoop env a (firstn 10 l) files) as [files1 e1]. cbn [fst snd] in *.
  split; [now right |]. intros tx Htx. right. eauto.
Qed.

(** A timer tick reaches the signature through the poll of [a], whatever
    the polls of the addresses before [a] did. *)
Lemma pollEach_reaches env addrs :
  forall files s a l,
    processed s (ledger files) = false ->
    (forall a0, In a0 addrs -> nullFor env s a0) ->
    In a addrs ->
    PublicKey.new a = Normal tt ->
    history env a = Answer l ->
    In s (map si_signature (firstn 10 l)) ->
    In (GetTransaction s) (snd (pollEach env addrs files)) /\
    (forall tx, getTransaction env s = Answer (Some tx) ->
                In (Classify s a) (snd (pollEach env addrs files))).
Proof.
  induction addrs as [| a0 rest IH]; intros files s a l Hp Hnull Ha Hkey Hhist Hin;
    [destruct Ha |].
  cbn [pollEach].
  pose proof (pollRecentTransactions_untouched env a0 files s Hp
                (Hnull a0 (or_introl eq_refl))) as Hu.
  destruct (String.eqb_spec a0 a) as [-> | Hne].
  - destruct (pollRecentTransactions_reaches env a files s l Hp Hkey Hhist Hin) as [Hf Hc].
    destruct (pollRecentTransactions env a files) as [files1 e1].
    destruct (pollEach env rest files1) as [files2 e2]. cbn [fst snd] in *.
    split; [apply in_app_iff; now left |].
    intros tx Htx. apply in_app_iff. left. eauto.
  - destruct Ha as [-> | Ha]; [contradiction |].
    destruct (pollRecentTransactions env a0 files) as [files1 e1]. cbn [fst snd] in Hu.
    destruct (IH files1 s a l (proj1 Hu) (fun b Hb => Hnull b (or_intror Hb))
                Ha Hkey Hhist Hin) as [Hf Hc].
    destruct (pollEach env rest files1) as [files2 e2]. cbn [fst snd] in *.
    split; [apply in_app_iff; now right |].
    intros tx Htx. apply in_app_iff. right. eauto.
Qed.

(** C10 (as amended): a signature whose transaction the classifier maps to
    null for every monitored address is never marked in the dedup ledger,
    nor emitted, by any sequence of timer ticks and push notifications; and
    when the window of ten of a monitored address holds the signature, the
    next timer tick fetches its transaction again, classifies it again for
    that address, and again leaves it unmarked. *)
Theorem null_signature_is_never_marked_and_is_retried
  (events : list (Env * Event)) (env : Env) (m : Monitor)
  (s : Signature) (a : Address) (l : list SigInfo) :
  StorageService.isTransactionProcessed s (files m) = false ->
  (forall env0 ev0 a0, In (env0, ev0) events -> In a0 (monitoredAddresses m) ->
                       nullFor env0 s a0) ->
  (forall a0, In a0 (monitoredAddresses m) -> nullFor env s a0) ->
  In a (monitoredAddresses m) ->
  PublicKey.new a = Normal tt ->
  history env a = Answer l ->
  In s (map si_signature (firstn 10 l)) ->
  let before := run events m in
  let next := step env TimerFired (fst before) in
  ~ In s (marked (snd before)) /\
  ~ In s (emitted (snd before)) /\
  StorageService.isTransactionProcessed s (files (fst before)) = false /\
  In (GetTransaction s) (snd next) /\
  (forall tx, getTransaction env s = Answer (Some tx) -> In (Classify s a) (snd next)) /\
  ~ In s (marked (snd next)) /\
  ~ In s (emitted (snd next)) /\
  StorageService.isTransactionProcessed s (files (fst next)) = false.
Proof.
  intros Hp Hnull Hnow Ha Hkey Hhist Hin before next.
  rewrite isTransactionProcessed_ledger in Hp.
  destruct (run_untouched events m s Hp Hnull) as [H1 [H2 H3]].
  cbn [fst snd] in H1, H2, H3. fold before in H1, H2, H3.
  pose proof (run_keeps_addresses events m) as Hm. fold before in Hm.
  rewrite !isTransactionProcessed_ledger.
  split; [exact H2 |]. split; [exact H3 |]. split; [exact H1 |].
  assert (Hnow' : forall a0, In a0 (monitoredAddresses (fst before)) -> nullFor env s a0)
    by (rewrite Hm; exact Hnow).
  destruct (step_untouched env TimerFired (fst before) s H1 Hnow') as [[U1 [U2 U3]] _].
  cbn [fst snd] in U1, U2, U3. fold next in U1, U2, U3.
  assert (Ha' : In a (monitoredAddresses (fst before))) by (rewrite Hm; exact Ha).
  destruct (pollEach_reaches env (monitoredAddresses (fst before)) (files (fst before))
              s a l H1 Hnow' Ha' Hkey Hhist Hin) as [Hf Hc].
  assert (Hnext : snd next
                  = snd (pollEach env (monitoredAddresses (fst before)) (files (fst before)))).
  { unfold next. cbn [step]. unfold tick. now destruct (pollEach _ _ _). }
  rewrite Hnext.
  split; [exact Hf |]. split; [exact Hc |].
  rewrite <- Hnext. repeat split; assumption.
Qed.

Lemma null_signature_is_never_marked_and_is_retried_witness :
  let before :=
    run [(Examples.nullEnv, TimerFired); (Examples.nullEnv, TimerFired)]
        Examples.walletMonitor in
  let next := step Examples.nullEnv TimerFired (fst before) in
  ~ In "nullSig" (marked (snd before)) /\
  ~ In "nullSig" (emitted (snd before)) /\
  StorageService.isTransactionProcessed "nullSig" (files (fst before)) = false /\
  In (GetTransaction "nullSig") (snd next) /\
  (forall tx, getTransaction Examples.nullEnv "nullSig" = Answer (Some tx) ->
              In (Classify "nullSig" Examples.wallet) (snd next)) /\
  ~ In "nullSig" (marked (snd next)) /\
  ~ In "nullSig" (emitted (snd next)) /\
  StorageService.isTransactionProcessed "nullSig" (files (fst next)) = false.
Proof.
  assert (Hnull : nullFor Examples.nullEnv "nullSig" Examples.wallet).
  { intros tx Htx. injection Htx as <-. vm_compute. reflexivity. }
  apply (null_signature_is_never_marked_and_is_retried
           [(Examples.nullEnv, TimerFired); (Examples.nullEnv, TimerFired)]
           Examples.nullEnv Examples.walletMonitor "nullSig" Examples.wallet
           [Examples.sigAt "nullSig" 50]).
  - reflexivity.
  - intros env0 ev0 a0 Hin Ha.
    assert (env0 = Examples.nullEnv) as ->
      by (destruct Hin as [H | [H | []]]; now injection H).
    destruct Ha as [<- | []]. exact Hnull.
  - intros a0 [<- | []]. exact Hnull.
  - left. reflexivity.
  - vm_compute. reflexivity.
  - reflexivity.
  - left. reflexivity.
Defined.

(** C10 (as stated) fails: the ledger is keyed by signature alone.  The
    transaction of ["shared"] is null for the first wallet and an event for
    the second; the tick that polls both marks the signature for the second,
    and the next tick fetches and classifies nothing, although the window of
    the first wallet still holds the signature. *)
Lemma signature_null_for_one_address_is_marked_for_another :
  let first := step Samples.sharedEnv TimerFired Examples.twoWallets in
  let second := step Samples.sharedEnv TimerFired (fst first) in
  parseTransaction Examples.noPrices (Some Samples.sharedTx) Examples.wallet = None /\
  StorageService.isTransactionProcessed "shared" (files Examples.twoWallets) = false /\
  getSignaturesForAddress Samples.sharedEnv Examples.wallet 10
  = Answer [Examples.sigAt "shared" 60] /\
  fetched (snd first) = ["shared"; "shared"] /\
  filter (fun e => match e with Classify _ _ => true | _ => false end) (snd first)
  = [Classify "shared" Examples.wallet; Classify "shared" Examples.wallet2] /\
  marked (snd first) = ["shared"] /\
  StorageService.isTransactionProcessed "shared" (files (fst first)) = true /\
  polled (snd second) = [Examples.wallet; Examples.wallet2] /\
  fetched (snd second) = [] /\
  classified (snd second) = [].
Proof. vm_compute. repeat split; reflexivity. Qed.
